(** * psygreg-site: language resolution, translation cache and content fallback

    A shallow embedding of the two scripts of the site:

    - the [TranslationManager] class (language detection, loading of
      translation bundles, language switching, application of the
      translations to the document), and
    - the [ContentLoader] class of [js/content-loader.js] (content-type
      resolution, markdown fetch with fallback to English, page metadata).

    Modelling conventions.

    - JavaScript strings are [string]; [toLowerCase] acts on the ASCII
      letters, which is all a language tag contains.
    - A plain object used as a dictionary is a [gmap string _] of its own
      properties.  A translation bundle is what the translation source
      serves: a JSON object whose values are strings.  The modules [TM] and
      [CL] read a dictionary through its own properties alone, which is what
      a lookup finds for every key that names no member of Object.prototype
      ([plain]).  The modules [TMjs] and [CLjs] are the same methods with
      every lookup made the way the engine makes it, through the prototype;
      what the engine's built-in objects are is a parameter.  The two
      readings agree on pages whose languages and keys are plain
      ([updatePageTranslations_plain], [getTranslation_plain],
      [setLanguage_plain], [init_plain], [updatePageMeta_plain]).
    - [async] methods are computations in a state-and-exception monad over
      the page: a rejected promise is a [Throw].  The network, the browser
      settings, the location and the markdown renderer are parameters.
    - The document is the sequence of its elements in document order.  An
      element records its id, attributes, class list, inline style, what was
      last written to its content, and the position of its next element
      sibling; nesting is not modelled, so a write to an element is recorded
      on that element alone: the children that a write of [textContent] or
      [innerHTML] removes or creates are not part of the model, nor is the
      title element behind [document.title].
    - [console] output is not modelled. *)

From Stdlib Require Import Ascii String.
From stdpp Require Import base option list strings gmap fin_maps.

Local Open Scope string_scope.

(** ** JavaScript string operations *)

Module JsString.

(** [s.split(sep)[0]]: the text before the first separator, the whole
    string when there is none. *)
Fixpoint split_head (sep : ascii) (s : string) : string :=
  match s with
  | EmptyString => EmptyString
  | String c s' =>
      if Ascii.eqb c sep then EmptyString else String c (split_head sep s')
  end.

Definition lower_ascii (c : ascii) : ascii :=
  let n := nat_of_ascii c in
  if (65 <=? n)%nat && (n <=? 90)%nat then ascii_of_nat (n + 32) else c.

(** [s.toLowerCase()] *)
Fixpoint toLowerCase (s : string) : string :=
  match s with
  | EmptyString => EmptyString
  | String c s' => String (lower_ascii c) (toLowerCase s')
  end.

(** [s.includes(sub)] *)
Fixpoint includes (s sub : string) : bool :=
  String.prefix sub s ||
  match s with
  | EmptyString => false
  | String _ s' => includes s' sub
  end.

(** Truthiness of a string value: every string but the empty one. *)
Definition truthy (s : string) : bool :=
  match s with EmptyString => false | String _ _ => true end.

(** [a || b] on strings where [a] may be [undefined]. *)
Definition or_else (a : option string) (b : option string) : option string :=
  match a with
  | Some s => if truthy s then Some s else b
  | None => b
  end.

End JsString.

Export JsString.

(** [Array.prototype.includes] on an array of strings. *)
Definition array_includes (l : list string) (x : string) : bool :=
  bool_decide (x ∈ l).

(** ** Data model *)

(** A translation bundle: key to localized string. *)
Abbreviation Bundle := (gmap string string).

Record TranslationManager := {
  currentLang : string;
  translations : gmap string Bundle;
  fallbackLang : string;
  supportedLanguages : list string;
}.

(** What was last written to the inside of an element: [innerHTML = s]
    gives [Markup s], [textContent = s] gives [Text s].  The markup the page
    was served with is a [Markup] too. *)
Inductive Content :=
  | Markup (html : string)
  | Text (s : string).

Record Element := {
  el_id : option string;
  attributes : gmap string string;
  classList : list string;
  content : Content;
  style : gmap string string;
  nextElementSibling : option nat;
}.

(** [document.title], the lang attribute of the root element, and the
    elements in document order. *)
Record Document := {
  doc_title : string;
  doc_lang : string;
  elements : list Element;
}.

(** Notifications sent to other components. *)
Inductive Notification :=
  | OnLanguageChange (language : string)   (* window.toolsLoader.onLanguageChange *)
  | LanguageChanged (language : string)    (* CustomEvent 'languageChanged' *)
  | ScrollTo (x y : nat).                  (* window.scrollTo *)

Record ContentLoader := {
  contentType : option string;
  cl_supportedLanguages : list string;
}.

Record Page := {
  translationManager : TranslationManager;
  contentLoader : ContentLoader;
  document : Document;
  localStorage : gmap string string;
  requests : list string;              (* URLs fetched so far, oldest first *)
  notifications : list Notification;   (* oldest first *)
  listeners : list (string * string);  (* click on element id -> setLanguage lang *)
  window_contentLoader : bool;         (* window.contentLoader is set *)
}.

(** The network. *)
Record Response := {
  ok : bool;
  json : option Bundle;   (* [None]: the body does not parse, response.json() rejects *)
  text : option string;   (* [None]: reading the body fails, response.text() rejects *)
}.

Inductive FetchResult :=
  | NetworkError
  | Responded (r : Response).

(** The browser's language settings; [None] is [undefined]. *)
Record Navigator := {
  nav_language : option string;
  nav_languages : option (list string);
  nav_userLanguage : option string;
  nav_browserLanguage : option string;
  nav_systemLanguage : option string;
}.

(** ** Computations *)

Inductive Error :=
  | TypeError                 (* a property of null is read *)
  | FetchRejected             (* fetch() rejects *)
  | BodyRejected              (* response.json() or response.text() rejects *)
  | ErrorMsg (msg : string).  (* new Error(msg) *)

Inductive Outcome (A : Type) :=
  | Return (a : A)
  | Throw (e : Error)
  | OutOfFuel.
Arguments Return {A} a.
Arguments Throw {A} e.
Arguments OutOfFuel {A}.

Definition M (A : Type) : Type := Page -> Outcome A * Page.

Definition ret {A} (a : A) : M A := fun p => (Return a, p).
Definition throw {A} (e : Error) : M A := fun p => (Throw e, p).
Definition out_of_fuel {A} : M A := fun p => (OutOfFuel, p).

Definition bind {A B} (m : M A) (k : A -> M B) : M B :=
  fun p =>
    match m p with
    | (Return a, p') => k a p'
    | (Throw e, p') => (Throw e, p')
    | (OutOfFuel, p') => (OutOfFuel, p')
    end.

(** [try { m } catch (error) { h error }] *)
Definition try_catch {A} (m : M A) (h : Error -> M A) : M A :=
  fun p =>
    match m p with
    | (Throw e, p') => h e p'
    | r => r
    end.

Definition get : M Page := fun p => (Return p, p).
Definition modify (f : Page -> Page) : M unit := fun p => (Return tt, f p).

#[global] Instance M_ret : MRet M := @ret.
#[global] Instance M_bind : MBind M := fun A B k m => bind m k.

(** Field updates. *)
Definition set_tm (f : TranslationManager -> TranslationManager) (p : Page) : Page :=
  {| translationManager := f (translationManager p);
     contentLoader := contentLoader p;
     document := document p;
     localStorage := localStorage p;
     requests := requests p;
     notifications := notifications p;
     listeners := listeners p;
     window_contentLoader := window_contentLoader p |}.

Definition set_contentLoader (f : ContentLoader -> ContentLoader) (p : Page) : Page :=
  {| translationManager := translationManager p;
     contentLoader := f (contentLoader p);
     document := document p;
     localStorage := localStorage p;
     requests := requests p;
     notifications := notifications p;
     listeners := listeners p;
     window_contentLoader := window_contentLoader p |}.

Definition set_document (f : Document -> Document) (p : Page) : Page :=
  {| translationManager := translationManager p;
     contentLoader := contentLoader p;
     document := f (document p);
     localStorage := localStorage p;
     requests := requests p;
     notifications := notifications p;
     listeners := listeners p;
     window_contentLoader := window_contentLoader p |}.

Definition set_localStorage (f : gmap string string -> gmap string string) (p : Page) : Page :=
  {| translationManager := translationManager p;
     contentLoader := contentLoader p;
     document := document p;
     localStorage := f (localStorage p);
     requests := requests p;
     notifications := notifications p;
     listeners := listeners p;
     window_contentLoader := window_contentLoader p |}.

Definition set_requests (f : list string -> list string) (p : Page) : Page :=
  {| translationManager := translationManager p;
     contentLoader := contentLoader p;
     document := document p;
     localStorage := localStorage p;
     requests := f (requests p);
     notifications := notifications p;
     listeners := listeners p;
     window_contentLoader := window_contentLoader p |}.

Definition set_notifications (f : list Notification -> list Notification) (p : Page) : Page :=
  {| translationManager := translationManager p;
     contentLoader := contentLoader p;
     document := document p;
     localStorage := localStorage p;
     requests := requests p;
     notifications := f (notifications p);
     listeners := listeners p;
     window_contentLoader := window_contentLoader p |}.

Definition set_listeners (f : list (string * string) -> list (string * string)) (p : Page) : Page :=
  {| translationManager := translationManager p;
     contentLoader := contentLoader p;
     document := document p;
     localStorage := localStorage p;
     requests := requests p;
     notifications := notifications p;
     listeners := f (listeners p);
     window_contentLoader := window_contentLoader p |}.

Definition set_window_contentLoader (b : bool) (p : Page) : Page :=
  {| translationManager := translationManager p;
     contentLoader := contentLoader p;
     document := document p;
     localStorage := localStorage p;
     requests := requests p;
     notifications := notifications p;
     listeners := listeners p;
     window_contentLoader := b |}.

Definition set_currentLang (l : string) (t : TranslationManager) : TranslationManager :=
  {| currentLang := l;
     translations := translations t;
     fallbackLang := fallbackLang t;
     supportedLanguages := supportedLanguages t |}.

Definition set_translations (f : gmap string Bundle -> gmap string Bundle)
    (t : TranslationManager) : TranslationManager :=
  {| currentLang := currentLang t;
     translations := f (translations t);
     fallbackLang := fallbackLang t;
     supportedLanguages := supportedLanguages t |}.

Definition set_supportedLanguages (f : list string -> list string)
    (t : TranslationManager) : TranslationManager :=
  {| currentLang := currentLang t;
     translations := translations t;
     fallbackLang := fallbackLang t;
     supportedLanguages := f (supportedLanguages t) |}.

Definition set_elements (f : list Element -> list Element) (d : Document) : Document :=
  {| doc_title := doc_title d; doc_lang := doc_lang d; elements := f (elements d) |}.

Definition set_doc_title (s : string) (d : Document) : Document :=
  {| doc_title := s; doc_lang := doc_lang d; elements := elements d |}.

Definition set_doc_lang (s : string) (d : Document) : Document :=
  {| doc_title := doc_title d; doc_lang := s; elements := elements d |}.

(** ** Elements *)

Definition setAttribute (name value : string) (e : Element) : Element :=
  {| el_id := el_id e;
     attributes := <[name := value]> (attributes e);
     classList := classList e;
     content := content e;
     style := style e;
     nextElementSibling := nextElementSibling e |}.

Definition hasAttribute (name : string) (e : Element) : bool :=
  bool_decide (is_Some (attributes e !! name)).

Definition getAttribute (name : string) (e : Element) : option string :=
  attributes e !! name.

Definition set_content (c : Content) (e : Element) : Element :=
  {| el_id := el_id e;
     attributes := attributes e;
     classList := classList e;
     content := c;
     style := style e;
     nextElementSibling := nextElementSibling e |}.

Definition set_style (prop value : string) (e : Element) : Element :=
  {| el_id := el_id e;
     attributes := attributes e;
     classList := classList e;
     content := content e;
     style := <[prop := value]> (style e);
     nextElementSibling := nextElementSibling e |}.

Definition set_classList (f : list string -> list string) (e : Element) : Element :=
  {| el_id := el_id e;
     attributes := attributes e;
     classList := f (classList e);
     content := content e;
     style := style e;
     nextElementSibling := nextElementSibling e |}.

Definition classList_contains (c : string) (e : Element) : bool :=
  bool_decide (c ∈ classList e).

(** [classList.add(c)]: a class already present is not added twice. *)
Definition classList_add (c : string) (e : Element) : Element :=
  set_classList (fun l : list string => if bool_decide (c ∈ l) then l else (l ++ [c])%list) e.

(** [classList.remove(c)] *)
Definition classList_remove (c : string) (e : Element) : Element :=
  set_classList (fun l : list string => filter (fun x => x ≠ c) l) e.

(** [document.getElementById(id)]: the position of the first element with
    that id, [None] for [null]. *)
Definition getElementById (i : string) (d : Document) : option nat :=
  fst <$> list_find (fun e => el_id e = Some i) (elements d).

(** [document.querySelectorAll('[data-key]')], in document order. *)
Fixpoint querySelectorAll_from (n : nat) (l : list Element) : list nat :=
  match l with
  | [] => []
  | e :: l' =>
      if hasAttribute "data-key" e
      then n :: querySelectorAll_from (S n) l'
      else querySelectorAll_from (S n) l'
  end.

Definition querySelectorAll_data_key (d : Document) : list nat :=
  querySelectorAll_from 0 (elements d).

(** Mutation of the element at position [i]. *)
Definition update_element (i : nat) (f : Element -> Element) (d : Document) : Document :=
  set_elements (fun l => alter f i l) d.

(** [a || d] where [a] may be [undefined] and [d] is a string. *)
Definition or_default (a : option string) (d : string) : string :=
  match a with
  | Some s => if truthy s then s else d
  | None => d
  end.

(** [array.filter(Boolean)] on an array of strings and [undefined]s. *)
Definition filter_Boolean (l : list (option string)) : list string :=
  filter (fun s => truthy s = true) (omap id l).

(** A method call on the result of [getElementById]: a [TypeError] on
    [null]. *)
Definition on_element (el : option nat) (f : Element -> Element) : M unit :=
  match el with
  | None => throw TypeError
  | Some i => modify (set_document (update_element i f))
  end.

Definition with_element_by_id (i : string) (f : Element -> Element) : M unit :=
  p ← get; on_element (getElementById i (document p)) f.

Definition when (b : bool) (m : M unit) : M unit :=
  if b then m else mret tt.

(** ** The network *)

Section Network.

Variable network : nat -> string -> FetchResult.

(** [fetch(url)]: the request is recorded; the answer may depend on the
    requests made before. *)
Definition fetch (url : string) : M Response :=
  fun p =>
    let p' := set_requests (fun l => (l ++ [url])%list) p in
    match network (length (requests p)) url with
    | NetworkError => (Throw FetchRejected, p')
    | Responded r => (Return r, p')
    end.

Definition response_json (r : Response) : M Bundle :=
  match json r with
  | Some b => mret b
  | None => throw BodyRejected
  end.

Definition response_text (r : Response) : M string :=
  match text r with
  | Some s => mret s
  | None => throw BodyRejected
  end.

End Network.

(** ** class TranslationManager *)

Module TM.

Definition constructor : TranslationManager :=
  {| currentLang := "en";
     translations := ∅;
     fallbackLang := "en";
     supportedLanguages := ["en"; "pt"] |}.

Definition browserLanguages (navigator : Navigator) : list string :=
  filter_Boolean
    ([nav_language navigator]
       ++ (Some <$> default [] (nav_languages navigator))
       ++ [nav_userLanguage navigator;
           nav_browserLanguage navigator;
           nav_systemLanguage navigator])%list.

(** The [for ... of] loop of [detectBrowserLanguage]. *)
Fixpoint detect_loop (this : TranslationManager) (l : list string) : string :=
  match l with
  | [] => fallbackLang this
  | browserLang :: rest =>
      let langCode := toLowerCase (split_head "-" browserLang) in
      if array_includes (supportedLanguages this) langCode
      then langCode
      else detect_loop this rest
  end.

Definition detectBrowserLanguage (navigator : Navigator)
    (this : TranslationManager) : string :=
  detect_loop this (browserLanguages navigator).

(** The bundle both [updatePageTranslations] and [getTranslation] read:
    [this.translations[this.currentLang] || this.translations[this.fallbackLang] || {}],
    with the cache read through its own properties;
    [TMjs.currentTranslations] reads it through the prototype. *)
Definition currentTranslations (this : TranslationManager) : Bundle :=
  match translations this !! currentLang this with
  | Some b => b
  | None =>
      match translations this !! fallbackLang this with
      | Some b => b
      | None => ∅
      end
  end.

Definition updateToggleButton (button : nat) (translations : Bundle)
    (d : Document) : Document :=
  let list :=
    match elements d !! button with
    | Some b =>
        match nextElementSibling b with
        | Some j => elements d !! j
        | None => None
        end
    | None => None
    end in
  if match list with
     | Some list => classList_contains "expanded" list
     | None => false
     end
  then update_element button
         (set_content (Text (or_default (translations !! "toggle-button-less") "Show Less"))) d
  else update_element button
         (set_content (Text (or_default (translations !! "toggle-button") "Show Tools"))) d.

(** Lines 93-103: a translation that was found is written to the element. *)
Definition apply_translation (translation : string) (element : Element) : Element :=
  let element :=
    if hasAttribute "title" element
    then setAttribute "title" translation element
    else element in
  if includes translation "<a href"
  then set_content (Markup translation) element
  else set_content (Text translation) element.

(** The body of the [forEach] of [updatePageTranslations], for the element
    at position [i], with the key read among the bundle's own properties;
    [TMjs.translate_element] reads it through the prototype, where the
    lookup can find a function and the body throw. *)
Definition translate_element (currentTranslations : Bundle)
    (d : Document) (i : nat) : Document :=
  match from_option (getAttribute "data-key") None (elements d !! i) with
  | None => d
  | Some key =>
      if bool_decide (key = "toggle-button")
      then updateToggleButton i currentTranslations d
      else
        match currentTranslations !! key with
        | Some translation =>
            if truthy translation
            then update_element i (apply_translation translation) d
            else d
        | None => d
        end
  end.

Definition updatePageTranslations (this : TranslationManager)
    (d : Document) : Document :=
  let elements := querySelectorAll_data_key d in
  foldl (translate_element (currentTranslations this)) d elements.

Definition updateLanguageButtons (this : TranslationManager)
    (d : Document) : Document :=
  foldl
    (fun d lang =>
       match getElementById ("lang-" +:+ lang) d with
       | Some button =>
           if bool_decide (currentLang this = lang)
           then update_element button
                  (fun e => set_style "color" "white"
                              (set_style "backgroundColor" "#e64845" e)) d
           else update_element button
                  (fun e => set_style "color" "#d1d5db"
                              (set_style "backgroundColor" "#374151" e)) d
       | None => d
       end)
    d (supportedLanguages this).

(** [getTranslation], with the key read among the bundle's own properties;
    [TMjs.getTranslation] reads it through the prototype. *)
Definition getTranslation (this : TranslationManager) (key : string) : string :=
  or_default (currentTranslations this !! key) key.

Definition setupLanguageSwitchers (this : TranslationManager) (p : Page) : Page :=
  foldl
    (fun p lang =>
       match getElementById ("lang-" +:+ lang) (document p) with
       | Some _ => set_listeners (fun l => (l ++ [("lang-" +:+ lang, lang)])%list) p
       | None => p
       end)
    p (supportedLanguages this).

Definition addSupportedLanguage (languageCode : string)
    (this : TranslationManager) : TranslationManager :=
  if array_includes (supportedLanguages this) languageCode
  then this
  else set_supportedLanguages (fun l => (l ++ [languageCode])%list) this.

(** The language [init] settles on, from the saved preference
    ([localStorage.getItem('preferredLanguage')], [None] for [null]) and the
    browser's settings. *)
Definition initialLanguage (navigator : Navigator) (this : TranslationManager)
    (savedLang : option string) : string :=
  match savedLang with
  | Some s =>
      if truthy s && array_includes (supportedLanguages this) s
      then s
      else detectBrowserLanguage navigator this
  | None => detectBrowserLanguage navigator this
  end.

Section Methods.

Variable network : nat -> string -> FetchResult.
Variable navigator : Navigator.
(** [window.toolsLoader] is set and has a function [onLanguageChange]. *)
Variable toolsLoader : bool.

(** The method calls itself in its [catch] block; [fuel] bounds the depth of
    these calls. *)
Fixpoint loadTranslations (fuel : nat) (language : string) : M Bundle :=
  match fuel with
  | O => out_of_fuel
  | S fuel' =>
      try_catch
        (response ← fetch network ("translations/" +:+ language +:+ ".json");
         if negb (ok response)
         then throw (ErrorMsg ("Failed to load " +:+ language +:+ " translations"))
         else
           b ← response_json response;
           modify (set_tm (set_translations <[language := b]>));;
           mret b)
        (fun error =>
           p ← get;
           let this := translationManager p in
           if bool_decide (language ≠ fallbackLang this)
           then loadTranslations fuel' (fallbackLang this)
           else mret ∅)
  end.

(** [setLanguage], with the cache read through its own properties;
    [TMjs.setLanguage] reads it through the prototype. *)
Definition setLanguage (fuel : nat) (language : string) : M unit :=
  p ← get;
  when (bool_decide (translations (translationManager p) !! language = None))
    (loadTranslations fuel language;; mret tt);;
  modify (set_tm (set_currentLang language));;
  modify (set_document (set_doc_lang language));;
  modify (fun p => set_document (updatePageTranslations (translationManager p)) p);;
  modify (fun p => set_document (updateLanguageButtons (translationManager p)) p);;
  when toolsLoader
    (modify (set_notifications (fun l => (l ++ [OnLanguageChange language])%list)));;
  modify (set_notifications (fun l => (l ++ [LanguageChanged language])%list));;
  modify (set_localStorage <["preferredLanguage" := language]>).

Definition init (fuel : nat) : M unit :=
  p ← get;
  loadTranslations fuel (fallbackLang (translationManager p));;
  p ← get;
  let this := translationManager p in
  let savedLang := localStorage p !! "preferredLanguage" in
  let initialLanguage := initialLanguage navigator this savedLang in
  when (bool_decide (initialLanguage ≠ fallbackLang this))
    (loadTranslations fuel initialLanguage;; mret tt);;
  modify (set_tm (set_currentLang initialLanguage));;
  modify (fun p => set_document (updatePageTranslations (translationManager p)) p);;
  modify (fun p => set_document (updateLanguageButtons (translationManager p)) p);;
  modify (fun p => setupLanguageSwitchers (translationManager p) p).

End Methods.

End TM.

(** ** class ContentLoader (js/content-loader.js) *)

Module CL.

Definition constructor : ContentLoader :=
  {| contentType := None;
     cl_supportedLanguages := ["en"; "pt"] |}.

Definition set_contentType (c : option string) (this : ContentLoader) : ContentLoader :=
  {| contentType := c;
     cl_supportedLanguages := cl_supportedLanguages this |}.

(** [path] is [window.location.pathname]. *)
Definition getContentTypeFromPath (path : string) : option string :=
  if includes path "handbook" then Some "handbook"
  else if includes path "cli-mode" then Some "cli-mode"
  else if includes path "knowledgebase" then Some "knowledgebase"
  else if includes path "credits" then Some "credits"
  else None.

(** The two tables of [updatePageMeta]. *)
Definition titles : gmap string (gmap string string) :=
  list_to_map
    [("handbook",
       list_to_map
         [("en", "Developer Handbook - LinuxToys");
          ("pt", "Manual do Desenvolvedor - LinuxToys");
          ("es", "Manual del Desarrollador - LinuxToys");
          ("fr", "Manuel du Développeur - LinuxToys");
          ("de", "Entwicklerhandbuch - LinuxToys");
          ("nl", "Ontwikkelaarshandboek - LinuxToys");
          ("zh", "开发者手册 - LinuxToys");
          ("ja", "開発者ハンドブック - LinuxToys");
          ("ru", "Руководство разработчика - LinuxToys");
          ("ga", "Lámhleabhar Forbróra - LinuxToys")]);
     ("cli-mode",
       list_to_map
         [("en", "CLI Mode Instructions - LinuxToys");
          ("pt", "Instruções do Modo CLI - LinuxToys");
          ("es", "Instrucciones del Modo CLI - LinuxToys");
          ("fr", "Instructions du Mode CLI - LinuxToys");
          ("de", "CLI-Modus Anweisungen - LinuxToys");
          ("nl", "CLI-modus Instructies - LinuxToys");
          ("zh", "CLI 模式说明 - LinuxToys");
          ("ja", "CLIモードの説明 - LinuxToys");
          ("ru", "Инструкции CLI режима - LinuxToys");
          ("ga", "Treoracha Mód CLI - LinuxToys")]);
     ("knowledgebase",
       list_to_map
         [("en", "Knowledge Base - LinuxToys");
          ("pt", "Base de Conhecimento - LinuxToys");
          ("es", "Base de Conocimientos - LinuxToys");
          ("fr", "Base de Connaissances - LinuxToys");
          ("de", "Wissensdatenbank - LinuxToys");
          ("nl", "Kennisbank - LinuxToys");
          ("zh", "知识库 - LinuxToys");
          ("ja", "ナレッジベース - LinuxToys");
          ("ru", "База знаний - LinuxToys");
          ("ga", "Bunachar Eolais - LinuxToys")]);
     ("credits",
       list_to_map
         [("en", "Credits & Acknowledgments - LinuxToys");
          ("pt", "Créditos & Reconhecimentos - LinuxToys");
          ("es", "Créditos & Reconocimientos - LinuxToys");
          ("fr", "Crédits & Remerciements - LinuxToys");
          ("de", "Credits & Danksagungen - LinuxToys");
          ("nl", "Credits & Dankbetuigingen - LinuxToys");
          ("zh", "致谢 & 鸣谢 - LinuxToys");
          ("ja", "クレジット & 謝辞 - LinuxToys");
          ("ru", "Авторские права и благодарности - LinuxToys");
          ("ga", "Creidiúintí & Aitheantas - LinuxToys")])].

Definition descriptions : gmap string (gmap string string) :=
  list_to_map
    [("handbook",
       list_to_map
         [("en", "Complete guide for developing LinuxToys tools and scripts");
          ("pt", "Guia completo para desenvolver ferramentas e scripts do LinuxToys");
          ("es", "Guía completa para desarrollar herramientas y scripts de LinuxToys");
          ("fr", "Guide complet pour développer des outils et scripts LinuxToys");
          ("de", "Vollständiger Leitfaden für die Entwicklung von LinuxToys-Tools und -Skripten");
          ("nl", "Volledige gids voor het ontwikkelen van LinuxToys tools en scripts");
          ("zh", "开发 LinuxToys 工具和脚本的完整指南");
          ("ja", "LinuxToysツールとスクリプトの開発完全ガイド");
          ("ru", "Полное руководство по разработке инструментов и скриптов LinuxToys")]);
     ("cli-mode",
       list_to_map
         [("en", "Learn how to use LinuxToys CLI mode for automated installations");
          ("pt", "Aprenda a usar o modo CLI do LinuxToys para instalações automatizadas");
          ("es", "Aprende a usar el modo CLI de LinuxToys para instalaciones automatizadas");
          ("fr", "Apprenez à utiliser le mode CLI de LinuxToys pour les installations automatisées");
          ("de", "Erfahren Sie, wie Sie den LinuxToys CLI-Modus für automatisierte Installationen verwenden");
          ("nl", "Leer hoe je LinuxToys CLI-modus gebruikt voor geautomatiseerde installaties");
          ("zh", "学习如何使用 LinuxToys CLI 模式进行自动化安装");
          ("ja", "自動インストール用のLinuxToys CLIモードの使用方法を学ぶ");
          ("ru", "Изучите, как использовать режим CLI LinuxToys для автоматических установок")]);
     ("knowledgebase",
       list_to_map
         [("en", "Comprehensive guide to LinuxToys features and installation procedures");
          ("pt", "Guia abrangente dos recursos e procedimentos de instalação do LinuxToys");
          ("es", "Guía completa de características y procedimientos de instalación de LinuxToys");
          ("fr", "Guide complet des fonctionnalités et procédures d'installation de LinuxToys");
          ("de", "Umfassender Leitfaden zu LinuxToys-Funktionen und Installationsverfahren");
          ("nl", "Uitgebreide gids voor LinuxToys functies en installatieprocedures");
          ("zh", "LinuxToys 功能和安装程序的综合指南");
          ("ja", "LinuxToysの機能とインストール手順の包括的ガイド");
          ("ru", "Полное руководство по функциям и процедурам установки LinuxToys")]);
     ("credits",
       list_to_map
         [("en", "Credits and acknowledgments for all the amazing developers who made LinuxToys features possible");
          ("pt", "Créditos e reconhecimentos para todos os incríveis desenvolvedores que tornaram possíveis os recursos do LinuxToys");
          ("es", "Créditos y reconocimientos para todos los increíbles desarrolladores que hicieron posibles las características de LinuxToys");
          ("fr", "Crédits et remerciements pour tous les incroyables développeurs qui ont rendu possibles les fonctionnalités de LinuxToys");
          ("de", "Credits und Danksagungen an alle erstaunlichen Entwickler, die die LinuxToys-Features möglich gemacht haben");
          ("nl", "Credits en dankbetuigingen voor alle geweldige ontwikkelaars die LinuxToys functies mogelijk maakten");
          ("zh", "向所有使LinuxToys功能成为可能的优秀开发者致谢和鸣谢");
          ("ja", "LinuxToysの機能を可能にしてくれた全ての素晴らしい開発者への謝辞と感謝");
          ("ru", "Благодарности и признание всем удивительным разработчикам, которые сделали возможными функции LinuxToys")])].

(** [titles[contentType]?.[language]], read through own properties;
    [CLjs.entry] reads it through the prototype. *)
Definition entry (table : gmap string (gmap string string))
    (contentType language : string) : option string :=
  match table !! contentType with
  | Some row => row !! language
  | None => None
  end.

Definition chosen_title (contentType language : string) : string :=
  or_default
    (or_else (entry titles contentType language) (entry titles contentType "en"))
    "LinuxToys".

Definition chosen_description (contentType language : string) : string :=
  or_default
    (or_else (entry descriptions contentType language)
             (entry descriptions contentType "en"))
    "LinuxToys documentation".

Definition updatePageMeta (contentType language : string) : M unit :=
  let title := chosen_title contentType language in
  modify (set_document (set_doc_title title));;
  with_element_by_id "page-title" (set_content (Text title));;
  let description := chosen_description contentType language in
  with_element_by_id "page-description" (setAttribute "content" description);;
  with_element_by_id "og-description" (setAttribute "content" description);;
  with_element_by_id "twitter-description" (setAttribute "content" description);;
  with_element_by_id "og-title" (setAttribute "content" title);;
  with_element_by_id "twitter-title" (setAttribute "content" title).

Definition showError : M unit :=
  p ← get;
  let loadingEl := getElementById "content-loading" (document p) in
  let contentEl := getElementById "markdown-content" (document p) in
  let errorEl := getElementById "content-error" (document p) in
  on_element loadingEl (classList_add "hidden");;
  on_element contentEl (classList_add "hidden");;
  on_element errorEl (classList_remove "hidden").

Section Methods.

Variable network : nat -> string -> FetchResult.
(** [marked.parse]; [None] when it throws. *)
Variable marked_parse : string -> option string.
(** [new URLSearchParams(window.location.search).get('content')],
    [None] for [null]. *)
Variable urlParams_content : option string.
(** [window.location.pathname] *)
Variable pathname : string.

(** One [try { fetch; if (response.ok) return text } catch { }] block:
    [Some text] when the function returns from inside it, [None] when
    control falls through to what follows. *)
Definition attempt (url : string) : M (option string) :=
  try_catch
    (response ← fetch network url;
     if ok response
     then t ← response_text response; mret (Some t)
     else mret None)
    (fun error => mret None).

(** [None] is [null]. *)
Definition fetchMarkdownContent (contentType language : string) : M (option string) :=
  r ← attempt ("content/" +:+ language +:+ "/" +:+ contentType +:+ ".md");
  match r with
  | Some t => mret (Some t)
  | None =>
      if bool_decide (language ≠ "en")
      then
        r ← attempt ("content/en/" +:+ contentType +:+ ".md");
        match r with
        | Some t => mret (Some t)
        | None => mret None
        end
      else mret None
  end.

Definition loadContent : M unit :=
  p ← get;
  let loadingEl := getElementById "content-loading" (document p) in
  let contentEl := getElementById "markdown-content" (document p) in
  let errorEl := getElementById "content-error" (document p) in
  on_element loadingEl (classList_remove "hidden");;
  on_element contentEl (classList_add "hidden");;
  on_element errorEl (classList_add "hidden");;
  try_catch
    (p ← get;
     let currentLang := currentLang (translationManager p) in
     let contentType := default "null" (contentType (contentLoader p)) in
     content ← fetchMarkdownContent contentType currentLang;
     match content with
     | Some content =>
         if truthy content
         then
           match marked_parse content with
           | Some htmlContent =>
               on_element contentEl (set_content (Markup htmlContent));;
               updatePageMeta contentType currentLang;;
               on_element loadingEl (classList_add "hidden");;
               on_element contentEl (classList_remove "hidden");;
               modify (set_notifications (fun l => (l ++ [ScrollTo 0 0])%list))
           | None => throw (ErrorMsg "marked.parse")
           end
         else throw (ErrorMsg "Content not found")
     | None => throw (ErrorMsg "Content not found")
     end)
    (fun error => showError).

Definition init : M unit :=
  let contentType := or_else urlParams_content (getContentTypeFromPath pathname) in
  modify (set_contentLoader (set_contentType contentType));;
  (if from_option truthy false contentType
   then loadContent
   else showError);;
  modify (set_window_contentLoader true).

End Methods.

End CL.

(** ** What the outside world serves *)

(** Where the bundle of [language] is fetched from. *)
Definition translations_url (language : string) : string :=
  "translations/" +:+ language +:+ ".json".

(** The result of the [n]-th request when it asks for the bundle of
    [language]: [None] is a load failure (network error, non-success status,
    or a body that does not parse). *)
Definition bundle_served (network : nat -> string -> FetchResult)
    (n : nat) (language : string) : option Bundle :=
  match network n (translations_url language) with
  | Responded r => if ok r then json r else None
  | NetworkError => None
  end.

(** The same for a document: [None] is a fetch failure (network error,
    non-success status, or a body that cannot be read). *)
Definition document_served (network : nat -> string -> FetchResult)
    (n : nat) (url : string) : option string :=
  match network n url with
  | Responded r => if ok r then text r else None
  | NetworkError => None
  end.

(** The primary subtag of a browser language, as [detectBrowserLanguage]
    extracts it. *)
Definition primary_subtag (browserLang : string) : string :=
  toLowerCase (split_head "-" browserLang).

(** The element an id denotes. *)
Definition element_by_id (i : string) (d : Document) : option Element :=
  match getElementById i d with
  | Some n => elements d !! n
  | None => None
  end.

(** The three panels of the content page and the state they show. *)
Inductive View := Loading | ContentShown | ErrorShown.

Definition hidden (i : string) (d : Document) : option bool :=
  classList_contains "hidden" <$> element_by_id i d.

Definition view (d : Document) : option View :=
  match hidden "content-loading" d, hidden "markdown-content" d,
        hidden "content-error" d with
  | Some false, Some true, Some true => Some Loading
  | Some true, Some false, Some true => Some ContentShown
  | Some true, Some true, Some false => Some ErrorShown
  | _, _, _ => None
  end.

(** ** States reached along the way *)

(** The page after a request for [url]. *)
Definition requested (url : string) (p : Page) : Page :=
  set_requests (fun l => (l ++ [url])%list) p.

(** The page after [this.translations[language] = b]. *)
Definition cached (language : string) (b : Bundle) (p : Page) : Page :=
  set_tm (set_translations <[language := b]>) p.

(** Every bundle in the cache is what some request of the page's history was
    served for the bundle's own language. *)
Definition cache_sound (network : nat -> string -> FetchResult) (p : Page) : Prop :=
  ∀ (K : string) (b : Bundle),
    translations (translationManager p) !! K = Some b →
    ∃ m, requests p !! m = Some (translations_url K)
         ∧ bundle_served network m K = Some b.

(** What [setLanguage] does once the bundle is there. *)
Definition switch_to (toolsLoader : bool) (language : string) (p : Page) : Page :=
  let p := set_tm (set_currentLang language) p in
  let p := set_document (set_doc_lang language) p in
  let p := set_document (TM.updatePageTranslations (translationManager p)) p in
  let p := set_document (TM.updateLanguageButtons (translationManager p)) p in
  let p :=
    if toolsLoader
    then set_notifications (fun l => (l ++ [OnLanguageChange language])%list) p
    else p in
  let p := set_notifications (fun l => (l ++ [LanguageChanged language])%list) p in
  set_localStorage <["preferredLanguage" := language]> p.

(** ** What the loops do to one element *)

(** Whether the next element sibling of [e] is expanded, read from the
    elements [all] of the document. *)
Definition next_is_expanded (all : list Element) (e : Element) : bool :=
  match
    match nextElementSibling e with
    | Some j => all !! j
    | None => None
    end
  with
  | Some list => classList_contains "expanded" list
  | None => false
  end.

(** What [updatePageTranslations] makes of one element of the document. *)
Definition translated (cur : Bundle) (all : list Element) (e : Element) : Element :=
  match getAttribute "data-key" e with
  | None => e
  | Some key =>
      if bool_decide (key = "toggle-button")
      then
        if next_is_expanded all e
        then set_content (Text (or_default (cur !! "toggle-button-less") "Show Less")) e
        else set_content (Text (or_default (cur !! "toggle-button") "Show Tools")) e
      else
        match cur !! key with
        | Some translation =>
            if truthy translation
            then TM.apply_translation translation e
            else e
        | None => e
        end
  end.

(** The style [updateLanguageButtons] gives the button of [lang]. *)
Definition button_style (this : TranslationManager) (lang : string)
    (e : Element) : Element :=
  if bool_decide (currentLang this = lang)
  then set_style "color" "white" (set_style "backgroundColor" "#e64845" e)
  else set_style "color" "#d1d5db" (set_style "backgroundColor" "#374151" e).

(** What [updateLanguageButtons] makes of the element at position [n]: it is
    styled once for every supported language whose button it is. *)
Definition restyled (this : TranslationManager) (d0 : Document)
    (langs : list string) (n : nat) (e : Element) : Element :=
  foldl
    (fun e lang =>
       if bool_decide (getElementById ("lang-" +:+ lang) d0 = Some n)
       then button_style this lang e
       else e)
    e langs.

(** What [setLanguage] does to the document. *)
Definition reapplied (this : TranslationManager) (language : string)
    (d : Document) : Document :=
  TM.updateLanguageButtons this
    (TM.updatePageTranslations this (set_doc_lang language d)).

(** ** What a computation leaves alone *)

(** [m] never changes what [obs] reads from the page. *)
Definition preserves {X A} (obs : Page → X) (m : M A) : Prop :=
  ∀ p, obs (m p).2 = obs p.

(** ** A sample page *)

Module Sample.

Definition en_bundle : Bundle :=
  list_to_map
    [("greeting", "Hello");
     ("docs", "Read the <a href='docs.html'>docs</a>");
     ("toggle-button", "Show Tools")].

(** The Portuguese bundle has no greeting. *)
Definition pt_bundle : Bundle :=
  list_to_map [("docs", "Leia os <a href='docs.html'>documentos</a>")].

Definition stale_bundle : Bundle := {[ "greeting" := "Hi" ]}.

Definition tag (i : option string) (attrs : list (string * string))
    (classes : list string) (inner : string) : Element :=
  {| el_id := i;
     attributes := list_to_map attrs;
     classList := classes;
     content := Markup inner;
     style := ∅;
     nextElementSibling := None |}.

Definition greeting_el : Element :=
  tag None [("data-key", "greeting")] [] "Welcome".

Definition docs_el : Element :=
  tag None [("data-key", "docs"); ("title", "Documentation")] [] "Documentation".

Definition doc : Document :=
  {| doc_title := "LinuxToys";
     doc_lang := "en";
     elements :=
       [greeting_el;
        docs_el;
        tag (Some "lang-en") [] [] "EN";
        tag (Some "lang-pt") [] [] "PT";
        tag (Some "content-loading") [("data-key", "loading-content")] [] "";
        tag (Some "markdown-content") [] ["hidden"] "";
        tag (Some "content-error") [] ["hidden"] "";
        tag (Some "page-title") [] [] "";
        tag (Some "page-description") [("content", "")] [] "";
        tag (Some "og-description") [("content", "")] [] "";
        tag (Some "twitter-description") [("content", "")] [] "";
        tag (Some "og-title") [("content", "")] [] "";
        tag (Some "twitter-title") [("content", "")] [] ""] |}.

Definition manager (lang : string) (cache : gmap string Bundle) : TranslationManager :=
  {| currentLang := lang;
     translations := cache;
     fallbackLang := "en";
     supportedLanguages := ["en"; "pt"] |}.

Definition page (this : TranslationManager) : Page :=
  {| translationManager := this;
     contentLoader := CL.constructor;
     document := doc;
     localStorage := ∅;
     requests := [];
     notifications := [];
     listeners := [];
     window_contentLoader := false |}.

(** A fresh page, a page with a stale English bundle in the cache, and a
    page in Portuguese with both bundles in the cache. *)
Definition fresh : Page := page TM.constructor.
Definition stale : Page := page (manager "en" {[ "en" := stale_bundle ]}).
Definition portuguese : Page :=
  page (manager "pt" (<["pt" := pt_bundle]> {[ "en" := en_bundle ]})).

(** The site serves the English bundle and the English handbook; the
    Portuguese bundle cannot be reached and nothing else exists. *)
Definition network (n : nat) (url : string) : FetchResult :=
  if String.eqb url "translations/en.json"
  then Responded {| ok := true; json := Some en_bundle; text := None |}
  else if String.eqb url "content/en/handbook.md"
  then Responded {| ok := true; json := None; text := Some "# Handbook" |}
  else if String.eqb url "translations/pt.json"
  then NetworkError
  else Responded {| ok := false; json := None; text := Some "Not Found" |}.

Definition navigator : Navigator :=
  {| nav_language := Some "fr-FR";
     nav_languages := Some ["fr-FR"; "pt-BR"; "en-US"];
     nav_userLanguage := None;
     nav_browserLanguage := None;
     nav_systemLanguage := None |}.

Definition marked_parse (markdown : string) : option string :=
  Some ("<article>" +:+ markdown +:+ "</article>").

End Sample.

(** ** The remaining methods *)

(** The object [getLanguageInfo] returns. *)
Record LanguageInfo := {
  info_current : string;
  info_supported : list string;
  info_fallback : string;
  info_detected : string;
}.

Definition getLanguageInfo (navigator : Navigator)
    (this : TranslationManager) : LanguageInfo :=
  {| info_current := currentLang this;
     info_supported := supportedLanguages this;
     info_fallback := fallbackLang this;
     info_detected := TM.detectBrowserLanguage navigator this |}.

(** ** Reasoning about a computation *)

(** From a page where [P] holds, [m] returns a value and a page related by
    [Q], or throws leaving a page where [E] holds; it does not run out of
    fuel. *)
Definition triple {A} (P : Page → Prop) (m : M A)
    (Q : A → Page → Prop) (E : Page → Prop) : Prop :=
  ∀ p, P p →
    match m p with
    | (Return a, p') => Q a p'
    | (Throw _, p') => E p'
    | (OutOfFuel, _) => False
    end.

(** The ids of the elements, in document order. *)
Definition ids (d : Document) : list (option string) := el_id <$> elements d.

(** Whether the element at position [n] has the class hidden. *)
Definition has_hidden (n : nat) (d : Document) : option bool :=
  classList_contains "hidden" <$> elements d !! n.

(** The three panels of the content page exist. *)
Definition panels_exist (d : Document) : Prop :=
  is_Some (getElementById "content-loading" d)
  ∧ is_Some (getElementById "markdown-content" d)
  ∧ is_Some (getElementById "content-error" d).

(** The content types [getContentTypeFromPath] knows. *)
Definition known_content_types : list string :=
  ["handbook"; "cli-mode"; "knowledgebase"; "credits"].

(** What [loadContent] does with the result of the fetch. *)
Definition loadContent_render (marked_parse : string -> option string)
    (loadingEl contentEl : option nat) (contentType currentLang : string)
    (content : option string) : M unit :=
  match content with
  | Some content =>
      if truthy content
      then
        match marked_parse content with
        | Some htmlContent =>
            on_element contentEl (set_content (Markup htmlContent));;
            CL.updatePageMeta contentType currentLang;;
            on_element loadingEl (classList_add "hidden");;
            on_element contentEl (classList_remove "hidden");;
            modify (set_notifications (fun l => (l ++ [ScrollTo 0 0])%list))
        | None => throw (ErrorMsg "marked.parse")
        end
      else throw (ErrorMsg "Content not found")
  | None => throw (ErrorMsg "Content not found")
  end.

(** The [try] block of [loadContent], given the two panels it writes to. *)
Definition loadContent_try (network : nat -> string -> FetchResult)
    (marked_parse : string -> option string)
    (loadingEl contentEl : option nat) : M unit :=
  p ← get;
  let currentLang := currentLang (translationManager p) in
  let contentType := default "null" (contentType (contentLoader p)) in
  content ← CL.fetchMarkdownContent network contentType currentLang;
  loadContent_render marked_parse loadingEl contentEl contentType currentLang content.

(** An element without its class list. *)
Definition without_classes (e : Element) : Element :=
  set_classList (fun _ => []) e.


(** ** More sample pages *)

Module Visit.

(** The content page asked for the handbook. *)
Definition handbook : Page :=
  set_contentLoader (CL.set_contentType (Some "handbook")) Sample.fresh.

(** A page that has none of the panels. *)
Definition bare : Page :=
  set_document (set_elements (fun _ => [])) Sample.fresh.



End Visit.

(** ** Property lookups through the prototype *)

(** [o[k]] finds the own property [k] of [o] and, when there is none, the
    property [k] of the prototype of [o].  The objects the scripts use as
    dictionaries (the cache, a bundle, the two tables of [updatePageMeta]
    and their rows) are plain objects, whose prototype is Object.prototype.
    Its members, by name (ECMAScript, with the legacy members of every
    browser): *)
Definition Object_prototype : list string :=
  ["constructor"; "__defineGetter__"; "__defineSetter__"; "hasOwnProperty";
   "__lookupGetter__"; "__lookupSetter__"; "isPrototypeOf";
   "propertyIsEnumerable"; "toString"; "valueOf"; "__proto__";
   "toLocaleString"].

(** A key that names no member of Object.prototype: looked up in a plain
    object it finds an own property or nothing. *)
Definition plain (k : string) : Prop := k ∉ Object_prototype.

(** What a lookup in a dictionary of [A]s finds. *)
Inductive Property (A : Type) :=
  | Found (a : A)   (* an own property *)
  | Inherited       (* the member of Object.prototype of that name *)
  | Missing.        (* undefined *)
Arguments Found {A} a.
Arguments Inherited {A}.
Arguments Missing {A}.

Definition property {A} (o : gmap string A) (key : string) : Property A :=
  match o !! key with
  | Some a => Found a
  | None => if bool_decide (key ∈ Object_prototype) then Inherited else Missing
  end.

(** A value the scripts go on to use as a string. *)
Inductive Value :=
  | Undefined
  | Str (s : string)
  | Other (truthy : bool) (text : string).
    (* any other value, a function, an object, a number or null: whether it
       is truthy, and what [String(v)] is; it has no method [includes] *)

Definition value_truthy (v : Value) : bool :=
  match v with
  | Undefined => false
  | Str s => truthy s
  | Other b _ => b
  end.

(** The string a truthy value becomes when it is written to the document. *)
Definition to_text (v : Value) : string :=
  match v with
  | Undefined => "undefined"
  | Str s => s
  | Other _ text => text
  end.

(** [v || d] *)
Definition value_or (v : Value) (d : Value) : Value :=
  if value_truthy v then v else d.

(** What the engine's built-in objects are is not in the scripts; it is a
    parameter, as the network is. *)
Record Engine := {
  (** [String(v)] for the member [name] of Object.prototype, as an object
      inherits it: a function for every name but __proto__, for which it is
      Object.prototype itself.  All of them are truthy. *)
  member_text : string → string;
  (** [v[key]] for that [v]; [None] when reading it throws a TypeError. *)
  member_get : string → string → option Value;
}.

(** What the expression [this.translations[...] || ... || {}] evaluates to:
    a bundle, or a member of Object.prototype. *)
Inductive Receiver :=
  | Own (b : Bundle)
  | Member (name : string).

(** [translations[key]]; [None] when reading it throws a TypeError. *)
Definition lookup (engine : Engine) (translations : Receiver) (key : string)
    : option Value :=
  match translations with
  | Own b =>
      Some match property b key with
           | Found s => Str s
           | Inherited => Other true (member_text engine key)
           | Missing => Undefined
           end
  | Member name => member_get engine name key
  end.

(** A loop over the elements at the positions [l] that stops at the first
    step that throws. *)
Fixpoint forEach (f : Document → nat → Outcome unit * Document)
    (l : list nat) (d : Document) : Outcome unit * Document :=
  match l with
  | [] => (Return tt, d)
  | i :: l' =>
      match f d i with
      | (Return _, d') => forEach f l' d'
      | r => r
      end
  end.

(** A step on the document as a computation on the page. *)
Definition on_document (f : Document → Outcome unit * Document) : M unit :=
  fun p => let r := f (document p) in (r.1, set_document (fun _ => r.2) p).

(** ** class TranslationManager, with every lookup as the engine makes it *)

Module TMjs.

Section Engine.

Variable engine : Engine.

(** [this.translations[this.currentLang] || this.translations[this.fallbackLang] || {}]:
    a bundle and a member of Object.prototype are both truthy. *)
Definition currentTranslations (this : TranslationManager) : Receiver :=
  match property (translations this) (currentLang this) with
  | Found b => Own b
  | Inherited => Member (currentLang this)
  | Missing =>
      match property (translations this) (fallbackLang this) with
      | Found b => Own b
      | Inherited => Member (fallbackLang this)
      | Missing => Own ∅
      end
  end.

Definition updateToggleButton (button : nat) (translations : Receiver)
    (d : Document) : Outcome unit * Document :=
  let list :=
    match elements d !! button with
    | Some b =>
        match nextElementSibling b with
        | Some j => elements d !! j
        | None => None
        end
    | None => None
    end in
  if match list with
     | Some list => classList_contains "expanded" list
     | None => false
     end
  then
    match lookup engine translations "toggle-button-less" with
    | Some v =>
        (Return tt,
         update_element button
           (set_content (Text (to_text (value_or v (Str "Show Less"))))) d)
    | None => (Throw TypeError, d)
    end
  else
    match lookup engine translations "toggle-button" with
    | Some v =>
        (Return tt,
         update_element button
           (set_content (Text (to_text (value_or v (Str "Show Tools"))))) d)
    | None => (Throw TypeError, d)
    end.

(** Lines 93-96 for a translation that is not a string: the title
    attribute is written before [translation.includes] turns out not to be
    a function. *)
Definition write_title (text : string) (element : Element) : Element :=
  if hasAttribute "title" element
  then setAttribute "title" text element
  else element.

(** The body of the [forEach] of [updatePageTranslations], for the element
    at position [i]. *)
Definition translate_element (currentTranslations : Receiver)
    (d : Document) (i : nat) : Outcome unit * Document :=
  match from_option (getAttribute "data-key") None (elements d !! i) with
  | None => (Return tt, d)
  | Some key =>
      if bool_decide (key = "toggle-button")
      then updateToggleButton i currentTranslations d
      else
        match lookup engine currentTranslations key with
        | Some translation =>
            if value_truthy translation
            then
              match translation with
              | Str translation =>
                  (Return tt, update_element i (TM.apply_translation translation) d)
              | _ =>
                  (Throw TypeError,
                   update_element i (write_title (to_text translation)) d)
              end
            else (Return tt, d)
        | None => (Throw TypeError, d)
        end
  end.

Definition updatePageTranslations (this : TranslationManager)
    (d : Document) : Outcome unit * Document :=
  let elements := querySelectorAll_data_key d in
  forEach (translate_element (currentTranslations this)) elements d.

(** [currentTranslations[key] || key]; [None] when the lookup throws a
    TypeError. *)
Definition getTranslation (this : TranslationManager) (key : string)
    : option Value :=
  match lookup engine (currentTranslations this) key with
  | Some v => Some (value_or v (Str key))
  | None => None
  end.

Section Methods.

Variable network : nat -> string -> FetchResult.
Variable navigator : Navigator.
Variable toolsLoader : bool.

(** [!this.translations[language]]: a cached bundle is truthy, and so is a
    member of Object.prototype. *)
Definition not_loaded (this : TranslationManager) (language : string) : bool :=
  match property (translations this) language with
  | Missing => true
  | _ => false
  end.

Definition setLanguage (fuel : nat) (language : string) : M unit :=
  p ← get;
  when (not_loaded (translationManager p) language)
    (TM.loadTranslations network fuel language;; mret tt);;
  modify (set_tm (set_currentLang language));;
  modify (set_document (set_doc_lang language));;
  p ← get;
  on_document (updatePageTranslations (translationManager p));;
  modify (fun p => set_document (TM.updateLanguageButtons (translationManager p)) p);;
  when toolsLoader
    (modify (set_notifications (fun l => (l ++ [OnLanguageChange language])%list)));;
  modify (set_notifications (fun l => (l ++ [LanguageChanged language])%list));;
  modify (set_localStorage <["preferredLanguage" := language]>).

Definition init (fuel : nat) : M unit :=
  p ← get;
  TM.loadTranslations network fuel (fallbackLang (translationManager p));;
  p ← get;
  let this := translationManager p in
  let savedLang := localStorage p !! "preferredLanguage" in
  let initialLanguage := TM.initialLanguage navigator this savedLang in
  when (bool_decide (initialLanguage ≠ fallbackLang this))
    (TM.loadTranslations network fuel initialLanguage;; mret tt);;
  modify (set_tm (set_currentLang initialLanguage));;
  p ← get;
  on_document (updatePageTranslations (translationManager p));;
  modify (fun p => set_document (TM.updateLanguageButtons (translationManager p)) p);;
  modify (fun p => TM.setupLanguageSwitchers (translationManager p) p).

End Methods.

End Engine.

End TMjs.

(** ** [updatePageMeta], with every lookup as the engine makes it *)

Module CLjs.

Section Engine.

Variable engine : Engine.

(** [table[contentType]?.[language]]; [None] when reading it throws a
    TypeError. *)
Definition entry (table : gmap string (gmap string string))
    (contentType language : string) : option Value :=
  match property table contentType with
  | Found row =>
      Some match property row language with
           | Found s => Str s
           | Inherited => Other true (member_text engine language)
           | Missing => Undefined
           end
  | Inherited => member_get engine contentType language
  | Missing => Some Undefined
  end.

(** [table[contentType]?.[language] || table[contentType]?.['en'] || generic] *)
Definition chosen (table : gmap string (gmap string string))
    (contentType language generic : string) : option Value :=
  match entry table contentType language with
  | Some v =>
      if value_truthy v then Some v
      else
        match entry table contentType "en" with
        | Some v => Some (value_or v (Str generic))
        | None => None
        end
  | None => None
  end.

Definition chosen_title (contentType language : string) : option Value :=
  chosen CL.titles contentType language "LinuxToys".

Definition chosen_description (contentType language : string) : option Value :=
  chosen CL.descriptions contentType language "LinuxToys documentation".

Definition updatePageMeta (contentType language : string) : M unit :=
  match chosen_title contentType language with
  | Some title =>
      let title := to_text title in
      modify (set_document (set_doc_title title));;
      with_element_by_id "page-title" (set_content (Text title));;
      match chosen_description contentType language with
      | Some description =>
          let description := to_text description in
          with_element_by_id "page-description" (setAttribute "content" description);;
          with_element_by_id "og-description" (setAttribute "content" description);;
          with_element_by_id "twitter-description" (setAttribute "content" description);;
          with_element_by_id "og-title" (setAttribute "content" title);;
          with_element_by_id "twitter-title" (setAttribute "content" title)
      | None => throw TypeError
      end
  | None => throw TypeError
  end.

Section Methods.

Variable network : nat -> string -> FetchResult.
(** [marked.parse]; [None] when it throws. *)
Variable marked_parse : string -> option string.

Definition loadContent : M unit :=
  p ← get;
  let loadingEl := getElementById "content-loading" (document p) in
  let contentEl := getElementById "markdown-content" (document p) in
  let errorEl := getElementById "content-error" (document p) in
  on_element loadingEl (classList_remove "hidden");;
  on_element contentEl (classList_add "hidden");;
  on_element errorEl (classList_add "hidden");;
  try_catch
    (p ← get;
     let currentLang := currentLang (translationManager p) in
     let contentType := default "null" (contentType (contentLoader p)) in
     content ← CL.fetchMarkdownContent network contentType currentLang;
     match content with
     | Some content =>
         if truthy content
         then
           match marked_parse content with
           | Some htmlContent =>
               on_element contentEl (set_content (Markup htmlContent));;
               updatePageMeta contentType currentLang;;
               on_element loadingEl (classList_add "hidden");;
               on_element contentEl (classList_remove "hidden");;
               modify (set_notifications (fun l => (l ++ [ScrollTo 0 0])%list))
           | None => throw (ErrorMsg "marked.parse")
           end
         else throw (ErrorMsg "Content not found")
     | None => throw (ErrorMsg "Content not found")
     end)
    (fun error => CL.showError).

End Methods.

End Engine.

End CLjs.

(** What that [loadContent] does with the result of the fetch. *)
Definition loadContent_render_js (engine : Engine)
    (marked_parse : string -> option string)
    (loadingEl contentEl : option nat) (contentType currentLang : string)
    (content : option string) : M unit :=
  match content with
  | Some content =>
      if truthy content
      then
        match marked_parse content with
        | Some htmlContent =>
            on_element contentEl (set_content (Markup htmlContent));;
            CLjs.updatePageMeta engine contentType currentLang;;
            on_element loadingEl (classList_add "hidden");;
            on_element contentEl (classList_remove "hidden");;
            modify (set_notifications (fun l => (l ++ [ScrollTo 0 0])%list))
        | None => throw (ErrorMsg "marked.parse")
        end
      else throw (ErrorMsg "Content not found")
  | None => throw (ErrorMsg "Content not found")
  end.

(** Its [try] block, given the two panels it writes to. *)
Definition loadContent_try_js (engine : Engine)
    (network : nat -> string -> FetchResult)
    (marked_parse : string -> option string)
    (loadingEl contentEl : option nat) : M unit :=
  p ← get;
  let currentLang := currentLang (translationManager p) in
  let contentType := default "null" (contentType (contentLoader p)) in
  content ← CL.fetchMarkdownContent network contentType currentLang;
  loadContent_render_js engine marked_parse loadingEl contentEl contentType
    currentLang content.

(** ** Pages on which every lookup finds an own property or nothing *)

(** No translation key of the document names a member of Object.prototype. *)
Definition plain_document (d : Document) : Prop :=
  ∀ (e : Element) (key : string),
    e ∈ elements d → getAttribute "data-key" e = Some key → plain key.

(** The translation key of the element stops the loop: it is not
    toggle-button, it names a member of Object.prototype, and the bundle has
    no value of its own for it. *)
Definition stops (cur : Bundle) (e : Element) : Prop :=
  ∃ key, getAttribute "data-key" e = Some key
         ∧ key ≠ "toggle-button"
         ∧ key ∈ Object_prototype
         ∧ cur !! key = None.

(** What a translation leaves of an element: everything but its content and
    the value of its title attribute. *)
Definition kept (e e' : Element) : Prop :=
  el_id e' = el_id e
  ∧ classList e' = classList e
  ∧ style e' = style e
  ∧ hasAttribute "title" e' = hasAttribute "title" e
  ∧ ∀ k, k ≠ "title" → attributes e' !! k = attributes e !! k.

(** [d'] has the elements of [d], each with what a translation keeps, and
    its language. *)
Definition kept_document (d d' : Document) : Prop :=
  doc_lang d' = doc_lang d
  ∧ ∀ n, match elements d !! n, elements d' !! n with
         | Some e, Some e' => kept e e'
         | None, None => True
         | _, _ => False
         end.

(** ** Sample pages for the lookups *)

Module Edge.

(** An engine for the examples: it prints the members of Object.prototype
    the way V8 does, and of the properties of the function Object it has the
    three that the examples read, name, length and is; every other property
    of a member reads as undefined here. *)
Definition engine : Engine :=
  {| member_text name :=
       if String.eqb name "__proto__" then "[object Object]"
       else if String.eqb name "constructor"
            then "function Object() { [native code] }"
            else "function " +:+ name +:+ "() { [native code] }";
     member_get name key :=
       if String.eqb name "constructor"
       then if String.eqb key "name" then Some (Str "Object")
            else if String.eqb key "length" then Some (Other true "1")
            else if String.eqb key "is"
                 then Some (Other true "function is() { [native code] }")
                 else Some Undefined
       else Some Undefined |}.

(** An element whose translation key is the name of a member of
    Object.prototype, in front of the greeting. *)
Definition about_el : Element :=
  Sample.tag None [("data-key", "constructor"); ("title", "About")] [] "About".

Definition doc : Document :=
  {| doc_title := "LinuxToys";
     doc_lang := "en";
     elements := [about_el; Sample.greeting_el] |}.

(** The stale English page with that document. *)
Definition page : Page := set_document (fun _ => doc) Sample.stale.

(** A page in Portuguese whose bundle could not be loaded: the cache holds
    the English bundle alone. *)
Definition unloaded : Page :=
  Sample.page (Sample.manager "pt" {[ "en" := Sample.en_bundle ]}).

(** A manager whose English bundle has an image next to the link. *)
Definition mixed : TranslationManager :=
  Sample.manager "en"
    {[ "en" := {[ "docs" := "<img src=x onerror=alert(1)> <a href='docs.html'>docs</a>" ]} ]}.

End Edge.

(** * Properties *)

(** ** Strings *)

Lemma append_cons (c : ascii) (a b : string) : String c a +:+ b = String c (a +:+ b).
Proof. reflexivity. Qed.
Lemma prefix_spec (sub s : string) :
  String.prefix sub s = true ↔ ∃ post, s = sub +:+ post.
Proof.
  revert s. induction sub as [|c sub IH]; intros s.
  - destruct s; simpl; (split; [intros _; eauto | done]).
  - destruct s as [|c' s]; simpl.
    + split; [done | intros [post Hpost]; discriminate].
    + setoid_rewrite append_cons.
      destruct (Ascii.ascii_dec c c') as [->|Hne].
      * rewrite IH. split; intros [post Hpost]; exists post; congruence.
      * split; [done | intros [post Hpost]; congruence].
Qed.
Lemma includes_spec (s sub : string) :
  includes s sub = true ↔ ∃ pre post, s = pre +:+ sub +:+ post.
Proof.
  induction s as [|c s IH].
  - cbn [includes]. rewrite orb_false_r, prefix_spec. split.
    + intros [post Hpost]. by exists "", post.
    + intros [[|c pre] [post Hpost]]; [by exists post | discriminate].
  - cbn [includes]. rewrite orb_true_iff, IH, prefix_spec. split.
    + intros [[post Hpost] | (pre & post & Hs)].
      * by exists "", post.
      * exists (String c pre), post. rewrite append_cons. by rewrite Hs.
    + intros ([|c' pre] & post & Hs).
      * left. by exists post.
      * right. exists pre, post. rewrite append_cons in Hs. congruence.
Qed.

Lemma truthy_true (s : string) : truthy s = true ↔ s ≠ "".
Proof. destruct s; simpl; split; congruence. Qed.

Lemma array_includes_true (l : list string) (x : string) :
  array_includes l x = true ↔ x ∈ l.
Proof. unfold array_includes. by rewrite bool_decide_eq_true. Qed.

Lemma array_includes_false (l : list string) (x : string) :
  array_includes l x = false ↔ x ∉ l.
Proof. unfold array_includes. by rewrite bool_decide_eq_false. Qed.

(** ** Language detection *)

Lemma detect_loop_first_match (this : TranslationManager)
    (pre : list string) (b : string) (post : list string) :
  (∀ x, x ∈ pre → primary_subtag x ∉ supportedLanguages this) →
  primary_subtag b ∈ supportedLanguages this →
  TM.detect_loop this (pre ++ b :: post) = primary_subtag b.
Proof.
  intros Hpre Hb. induction pre as [|x pre IH]; simpl.
  - apply array_includes_true in Hb. unfold primary_subtag in Hb. by rewrite Hb.
  - assert (array_includes (supportedLanguages this)
              (toLowerCase (split_head "-" x)) = false) as ->.
    { apply array_includes_false, Hpre. left. }
    apply IH. intros y Hy. apply Hpre. by right.
Qed.

Lemma detect_loop_no_match (this : TranslationManager) (l : list string) :
  (∀ x, x ∈ l → primary_subtag x ∉ supportedLanguages this) →
  TM.detect_loop this l = fallbackLang this.
Proof.
  intros Hl. induction l as [|x l IH]; simpl; [done|].
  assert (array_includes (supportedLanguages this)
            (toLowerCase (split_head "-" x)) = false) as ->.
  { apply array_includes_false, Hl. left. }
  apply IH. intros y Hy. apply Hl. by right.
Qed.

Lemma initialLanguage_saved navigator (this : TranslationManager) (s : string) :
  s ≠ "" → s ∈ supportedLanguages this →
  TM.initialLanguage navigator this (Some s) = s.
Proof.
  intros Hs Hin. unfold TM.initialLanguage.
  apply truthy_true in Hs. apply array_includes_true in Hin.
  by rewrite Hs, Hin.
Qed.

Lemma initialLanguage_detect navigator (this : TranslationManager)
    (savedLang : option string) :
  ¬ (∃ s, savedLang = Some s ∧ s ≠ "" ∧ s ∈ supportedLanguages this) →
  TM.initialLanguage navigator this savedLang =
  TM.detectBrowserLanguage navigator this.
Proof.
  intros Hno. unfold TM.initialLanguage.
  destruct savedLang as [s|]; [|done].
  destruct (truthy s) eqn:Ht; [|done].
  destruct (array_includes (supportedLanguages this) s) eqn:Hi; [|done].
  exfalso. apply Hno. exists s.
  by rewrite <- truthy_true, <- array_includes_true.
Qed.

(** ** Loading a bundle *)

Ltac run :=
  repeat (cbn [TM.loadTranslations];
          unfold mbind, M_bind, mret, M_ret, bind, ret, try_catch, throw,
            out_of_fuel, modify, get, fetch, when, response_json,
            response_text, on_element, with_element_by_id).

Section LoadTranslations.

Variable network : nat -> string -> FetchResult.

Lemma loadTranslations_success (fuel : nat) (language : string) (p : Page) (b : Bundle) :
  bundle_served network (length (requests p)) language = Some b →
  TM.loadTranslations network (S fuel) language p =
  (Return b, cached language b (requested (translations_url language) p)).
Proof.
  unfold bundle_served, translations_url. intros Hserved.
  run.
  destruct (network _ _) as [|r]; [done|].
  destruct (ok r); [|done]. cbn. by rewrite Hserved.
Qed.

Lemma loadTranslations_failure (fuel : nat) (language : string) (p : Page) :
  bundle_served network (length (requests p)) language = None →
  TM.loadTranslations network (S fuel) language p =
  if bool_decide (language ≠ fallbackLang (translationManager p))
  then TM.loadTranslations network fuel (fallbackLang (translationManager p))
         (requested (translations_url language) p)
  else (Return ∅, requested (translations_url language) p).
Proof.
  unfold bundle_served, translations_url. intros Hserved.
  run.
  destruct (network _ _) as [|r]; cbn.
  - by case_bool_decide.
  - destruct (ok r); cbn.
    + rewrite Hserved. cbn. by case_bool_decide.
    + by case_bool_decide.
Qed.

Lemma requested_length (url : string) (p : Page) :
  length (requests (requested url p)) = S (length (requests p)).
Proof. cbn. rewrite length_app. cbn. lia. Qed.

(** The fallback language is loaded without a further call. *)
Lemma loadTranslations_fallback (fuel : nat) (p : Page) :
  let fb := fallbackLang (translationManager p) in
  TM.loadTranslations network (S fuel) fb p =
  match bundle_served network (length (requests p)) fb with
  | Some b => (Return b, cached fb b (requested (translations_url fb) p))
  | None => (Return ∅, requested (translations_url fb) p)
  end.
Proof.
  intros fb. destruct (bundle_served _ _ _) as [b|] eqn:Hserved.
  - by apply loadTranslations_success.
  - rewrite loadTranslations_failure by done.
    rewrite bool_decide_eq_false_2; [done | by intros []].
Qed.

(** What a call does, in closed form: two levels are all it takes. *)
Lemma loadTranslations_eq (fuel : nat) (language : string) (p : Page) :
  (2 ≤ fuel)%nat →
  let fb := fallbackLang (translationManager p) in
  let n := length (requests p) in
  let p1 := requested (translations_url language) p in
  TM.loadTranslations network fuel language p =
  match bundle_served network n language with
  | Some b => (Return b, cached language b p1)
  | None =>
      if bool_decide (language ≠ fb)
      then
        match bundle_served network (S n) fb with
        | Some b => (Return b, cached fb b (requested (translations_url fb) p1))
        | None => (Return ∅, requested (translations_url fb) p1)
        end
      else (Return ∅, p1)
  end.
Proof.
  intros Hfuel fb n p1.
  destruct fuel as [|[|fuel]]; [lia | lia |].
  destruct (bundle_served network n language) as [b|] eqn:Hserved.
  - by apply loadTranslations_success.
  - rewrite loadTranslations_failure by done. fold fb p1.
    case_bool_decide; [|done].
    pose proof (loadTranslations_fallback fuel p1) as Hfb.
    cbn zeta in Hfb.
    replace (length (requests p1)) with (S n) in Hfb
      by (symmetry; apply requested_length).
    exact Hfb.
Qed.

Lemma loadTranslations_returns (fuel : nat) (language : string) (p : Page) :
  (2 ≤ fuel)%nat →
  ∃ (b : Bundle) (p' : Page),
    TM.loadTranslations network fuel language p = (Return b, p').
Proof.
  intros Hfuel. rewrite (loadTranslations_eq fuel language p Hfuel). cbn zeta.
  repeat case_match; eauto.
Qed.

End LoadTranslations.

(** ** Switching the language *)

Section SetLanguage.

Variable network : nat -> string -> FetchResult.
Variable toolsLoader : bool.

Lemma setLanguage_cached (fuel : nat) (language : string) (p : Page) :
  is_Some (translations (translationManager p) !! language) →
  TM.setLanguage network toolsLoader fuel language p =
  (Return tt, switch_to toolsLoader language p).
Proof.
  intros [b Hb]. unfold TM.setLanguage. run.
  rewrite Hb. rewrite bool_decide_eq_false_2 by done.
  unfold switch_to. by destruct toolsLoader.
Qed.

Lemma setLanguage_not_cached (fuel : nat) (language : string) (p : Page) :
  (2 ≤ fuel)%nat →
  translations (translationManager p) !! language = None →
  TM.setLanguage network toolsLoader fuel language p =
  (Return tt,
   switch_to toolsLoader language (TM.loadTranslations network fuel language p).2).
Proof.
  intros Hfuel Hnone. unfold TM.setLanguage. run.
  rewrite Hnone. rewrite bool_decide_eq_true_2 by done.
  destruct (loadTranslations_returns network fuel language p Hfuel)
    as (b & p' & ->).
  unfold switch_to. by destruct toolsLoader.
Qed.

End SetLanguage.

Lemma switch_to_requests toolsLoader language p :
  requests (switch_to toolsLoader language p) = requests p.
Proof. by destruct toolsLoader. Qed.

Lemma switch_to_translations toolsLoader language p :
  translations (translationManager (switch_to toolsLoader language p)) =
  translations (translationManager p).
Proof. by destruct toolsLoader. Qed.

(** C3: [loadTranslations] always returns a bundle.  When the load of a
    language other than the fallback fails, the result is that of loading
    the fallback language; when the load of the fallback language fails,
    the result is the empty bundle; so when both fail it is empty. *)
Theorem C3_loadTranslations_never_raises
    (network : nat -> string -> FetchResult) (fuel : nat)
    (language : string) (p : Page) :
  (2 ≤ fuel)%nat →
  let this := translationManager p in
  let n := length (requests p) in
  let p1 := requested (translations_url language) p in
  (∃ (b : Bundle) (p' : Page),
     TM.loadTranslations network fuel language p = (Return b, p'))
  ∧ (bundle_served network n language = None →
     language ≠ fallbackLang this →
     TM.loadTranslations network fuel language p =
     TM.loadTranslations network fuel (fallbackLang this) p1)
  ∧ (bundle_served network n language = None →
     language = fallbackLang this →
     TM.loadTranslations network fuel language p = (Return ∅, p1))
  ∧ (bundle_served network n language = None →
     bundle_served network (S n) (fallbackLang this) = None →
     ∃ p' : Page, TM.loadTranslations network fuel language p = (Return ∅, p')).
Proof.
  intros Hfuel this n p1.
  rewrite (loadTranslations_eq network fuel language p Hfuel). cbn zeta.
  fold this n p1.
  split; [|split; [|split]].
  - repeat case_match; eauto.
  - intros -> Hne. rewrite bool_decide_eq_true_2 by done.
    destruct fuel as [|fuel]; [lia|].
    symmetry. etrans; [apply (loadTranslations_fallback network fuel p1)|].
    cbn zeta.
    replace (length (requests p1)) with (S n)
      by (symmetry; apply requested_length).
    done.
  - intros -> Heq. by rewrite bool_decide_eq_false_2 by (by intros []).
  - intros -> ->. case_bool_decide; eauto.
Qed.

Section Requests.

Variable network : nat -> string -> FetchResult.

Lemma loadTranslations_requests_extend (fuel : nat) (language : string) (p : Page) :
  ∃ rest, requests (TM.loadTranslations network fuel language p).2 =
          (requests p ++ rest)%list.
Proof.
  revert language p. induction fuel as [|fuel IH]; intros language p.
  - exists []. cbn. by rewrite app_nil_r.
  - destruct (bundle_served network (length (requests p)) language) as [b|] eqn:Hs.
    + rewrite (loadTranslations_success network fuel language p b Hs).
      by exists [translations_url language].
    + rewrite (loadTranslations_failure network fuel language p Hs).
      case_bool_decide.
      * destruct (IH (fallbackLang (translationManager p))
                    (requested (translations_url language) p)) as [rest ->].
        exists (translations_url language :: rest). cbn.
        by rewrite <- app_assoc.
      * by exists [translations_url language].
Qed.

(** Every call starts with a request for the bundle of its language. *)
Lemma loadTranslations_requests (fuel : nat) (language : string) (p : Page) :
  (0 < fuel)%nat →
  ∃ rest, requests (TM.loadTranslations network fuel language p).2 =
          (requests p ++ translations_url language :: rest)%list.
Proof.
  intros Hfuel. destruct fuel as [|fuel]; [lia|].
  destruct (bundle_served network (length (requests p)) language) as [b|] eqn:Hs.
  - rewrite (loadTranslations_success network fuel language p b Hs).
    by exists [].
  - rewrite (loadTranslations_failure network fuel language p Hs).
    case_bool_decide.
    + destruct (loadTranslations_requests_extend fuel
                  (fallbackLang (translationManager p))
                  (requested (translations_url language) p)) as [rest ->].
      exists rest. cbn. by rewrite <- app_assoc.
    + by exists [].
Qed.

End Requests.

(** C1, as the code has it: the cache is consulted by [setLanguage], which
    neither fetches nor touches the cache when a bundle for the language is
    already there.  [loadTranslations] itself always requests the bundle of
    its language, and when the load succeeds it stores and returns what was
    served, whatever the cache held. *)
Theorem C1_setLanguage_uses_cache_loadTranslations_fetches
    (network : nat -> string -> FetchResult) (toolsLoader : bool)
    (fuel : nat) (language : string) (p : Page) (b : Bundle) :
  translations (translationManager p) !! language = Some b →
  (∃ p' : Page,
     TM.setLanguage network toolsLoader fuel language p = (Return tt, p')
     ∧ requests p' = requests p
     ∧ translations (translationManager p') = translations (translationManager p))
  ∧ ((0 < fuel)%nat →
     ∃ rest, requests (TM.loadTranslations network fuel language p).2 =
             (requests p ++ translations_url language :: rest)%list)
  ∧ ((0 < fuel)%nat →
     ∀ b' : Bundle,
       bundle_served network (length (requests p)) language = Some b' →
       TM.loadTranslations network fuel language p =
       (Return b', cached language b' (requested (translations_url language) p))).
Proof.
  intros Hb. split; [|split].
  - eexists. split; [apply setLanguage_cached; by eexists|].
    by rewrite switch_to_requests, switch_to_translations.
  - apply loadTranslations_requests.
  - intros Hfuel b' Hs. destruct fuel as [|fuel]; [lia|].
    by apply loadTranslations_success.
Qed.

(** ** Initial language *)

Lemma detect_loop_ext (a b : TranslationManager) (l : list string) :
  supportedLanguages a = supportedLanguages b →
  fallbackLang a = fallbackLang b →
  TM.detect_loop a l = TM.detect_loop b l.
Proof.
  intros Hs Hf. induction l as [|x l IH]; simpl; [done|].
  by rewrite Hs, IH.
Qed.

Lemma initialLanguage_ext navigator (a b : TranslationManager)
    (savedLang : option string) :
  supportedLanguages a = supportedLanguages b →
  fallbackLang a = fallbackLang b →
  TM.initialLanguage navigator a savedLang =
  TM.initialLanguage navigator b savedLang.
Proof.
  intros Hs Hf. unfold TM.initialLanguage, TM.detectBrowserLanguage.
  by rewrite Hs, (detect_loop_ext a b _ Hs Hf).
Qed.

Lemma setupLanguageSwitchers_translationManager (this : TranslationManager) (p : Page) :
  translationManager (TM.setupLanguageSwitchers this p) = translationManager p.
Proof.
  unfold TM.setupLanguageSwitchers. generalize (supportedLanguages this).
  intros l. revert p. induction l as [|lang l IH]; intros p; simpl; [done|].
  rewrite IH. by destruct (getElementById _ _).
Qed.

Section Init.

Variable network : nat -> string -> FetchResult.
Variable navigator : Navigator.

(** What a load leaves alone. *)
Lemma loadTranslations_frame (fuel : nat) (language : string) (p : Page) :
  (2 ≤ fuel)%nat →
  let p' := (TM.loadTranslations network fuel language p).2 in
  supportedLanguages (translationManager p') = supportedLanguages (translationManager p)
  ∧ fallbackLang (translationManager p') = fallbackLang (translationManager p)
  ∧ currentLang (translationManager p') = currentLang (translationManager p)
  ∧ localStorage p' = localStorage p
  ∧ document p' = document p
  ∧ notifications p' = notifications p
  ∧ contentLoader p' = contentLoader p.
Proof.
  intros Hfuel. rewrite (loadTranslations_eq network fuel language p Hfuel).
  cbn zeta. by repeat case_match.
Qed.

Lemma init_currentLang (fuel : nat) (p : Page) :
  (2 ≤ fuel)%nat →
  ∃ p' : Page,
    TM.init network navigator fuel p = (Return tt, p')
    ∧ currentLang (translationManager p') =
      TM.initialLanguage navigator (translationManager p)
        (localStorage p !! "preferredLanguage").
Proof.
  intros Hfuel. unfold TM.init. run.
  destruct (loadTranslations_returns network fuel
              (fallbackLang (translationManager p)) p Hfuel) as (b1 & p1 & Hload1).
  pose proof (loadTranslations_frame fuel (fallbackLang (translationManager p)) p Hfuel)
    as (Hs & Hf & _ & Hl & _).
  rewrite Hload1 in *. cbn [snd] in *. rewrite Hl.
  rewrite (initialLanguage_ext navigator (translationManager p1)
             (translationManager p) _ Hs Hf).
  set (initial := TM.initialLanguage navigator (translationManager p) _).
  case_bool_decide.
  - destruct (loadTranslations_returns network fuel initial p1 Hfuel)
      as (b2 & p2 & ->).
    eexists. split; [done|].
    by rewrite setupLanguageSwitchers_translationManager.
  - eexists. split; [done|].
    by rewrite setupLanguageSwitchers_translationManager.
Qed.

End Init.

(** ** The cache invariant *)

Lemma setupLanguageSwitchers_requests (this : TranslationManager) (p : Page) :
  requests (TM.setupLanguageSwitchers this p) = requests p.
Proof.
  unfold TM.setupLanguageSwitchers. generalize (supportedLanguages this).
  intros l. revert p. induction l as [|lang l IH]; intros p; simpl; [done|].
  rewrite IH. by destruct (getElementById _ _).
Qed.

Lemma cache_sound_same (network : nat -> string -> FetchResult) (p q : Page) :
  translations (translationManager q) = translations (translationManager p) →
  requests q = requests p →
  cache_sound network p → cache_sound network q.
Proof. intros Ht Hr Hp K b. rewrite Ht, Hr. apply Hp. Qed.

Section CacheSound.

Variable network : nat -> string -> FetchResult.

Lemma cache_sound_empty (p : Page) :
  translations (translationManager p) = ∅ → cache_sound network p.
Proof. intros Hempty K b. by rewrite Hempty, lookup_empty. Qed.

Lemma loadTranslations_entries (fuel : nat) (language : string) (p : Page)
    (K : string) (b : Bundle) :
  (2 ≤ fuel)%nat →
  let p' := (TM.loadTranslations network fuel language p).2 in
  translations (translationManager p') !! K = Some b →
  translations (translationManager p) !! K = Some b ∨
  ∃ m, (length (requests p) ≤ m)%nat
       ∧ requests p' !! m = Some (translations_url K)
       ∧ bundle_served network m K = Some b.
Proof.
  intros Hfuel. rewrite (loadTranslations_eq network fuel language p Hfuel).
  cbn zeta. set (n := length (requests p)). set (this := translationManager p).
  destruct (bundle_served network n language) as [b0|] eqn:Hs.
  - cbn. intros HK. destruct (decide (language = K)) as [->|Hne].
    + rewrite lookup_insert_eq in HK. injection HK as ->.
      right. exists n. split; [lia|]. split; [|done].
      by rewrite list_lookup_middle.
    + rewrite lookup_insert_ne in HK by done. by left.
  - case_bool_decide as Hfb; [|by left].
    destruct (bundle_served network (S n) (fallbackLang this)) as [b1|] eqn:Hs1;
      cbn; intros HK; [|by left].
    destruct (decide (fallbackLang this = K)) as [<-|Hne].
    + rewrite lookup_insert_eq in HK. injection HK as ->.
      right. exists (S n). split; [lia|]. split; [|done].
      rewrite list_lookup_middle; [done|].
      rewrite length_app. cbn. lia.
    + rewrite lookup_insert_ne in HK by done. by left.
Qed.

Lemma loadTranslations_cache_sound (fuel : nat) (language : string) (p : Page) :
  (2 ≤ fuel)%nat →
  cache_sound network p →
  cache_sound network (TM.loadTranslations network fuel language p).2.
Proof.
  intros Hfuel Hsound K b HK.
  destruct (loadTranslations_entries fuel language p K b Hfuel HK)
    as [Hold | (m & _ & Hm & Hserved)]; [|by exists m].
  destruct (Hsound K b Hold) as (m & Hm & Hserved). exists m. split; [|done].
  destruct (loadTranslations_requests_extend network fuel language p) as [rest ->].
  by apply lookup_app_l_Some.
Qed.

Lemma setLanguage_cache_sound (toolsLoader : bool) (fuel : nat)
    (language : string) (p : Page) :
  (2 ≤ fuel)%nat →
  cache_sound network p →
  cache_sound network (TM.setLanguage network toolsLoader fuel language p).2.
Proof.
  intros Hfuel Hsound.
  destruct (translations (translationManager p) !! language) as [b|] eqn:Hb.
  - rewrite setLanguage_cached by by eexists. cbn [snd].
    eapply cache_sound_same; [| |exact Hsound].
    + apply switch_to_translations.
    + apply switch_to_requests.
  - rewrite setLanguage_not_cached by done. cbn [snd].
    eapply cache_sound_same;
      [apply switch_to_translations | apply switch_to_requests |].
    by apply loadTranslations_cache_sound.
Qed.

Lemma init_cache_sound (navigator : Navigator) (fuel : nat) (p : Page) :
  (2 ≤ fuel)%nat →
  cache_sound network p →
  cache_sound network (TM.init network navigator fuel p).2.
Proof.
  intros Hfuel Hsound. unfold TM.init. run.
  pose proof (loadTranslations_cache_sound fuel
                (fallbackLang (translationManager p)) p Hfuel Hsound) as Hsound1.
  destruct (loadTranslations_returns network fuel
              (fallbackLang (translationManager p)) p Hfuel) as (b1 & p1 & Hload1).
  rewrite Hload1 in *. cbn [snd] in Hsound1.
  set (initial := TM.initialLanguage navigator (translationManager p1) _).
  case_bool_decide.
  - pose proof (loadTranslations_cache_sound fuel initial p1 Hfuel Hsound1)
      as Hsound2.
    destruct (loadTranslations_returns network fuel initial p1 Hfuel)
      as (b2 & p2 & Hload2).
    rewrite Hload2 in *. cbn [snd] in *.
    eapply cache_sound_same; [| |exact Hsound2].
    + by rewrite setupLanguageSwitchers_translationManager.
    + by rewrite setupLanguageSwitchers_requests.
  - cbn [snd]. eapply cache_sound_same; [| |exact Hsound1].
    + by rewrite setupLanguageSwitchers_translationManager.
    + by rewrite setupLanguageSwitchers_requests.
Qed.

End CacheSound.

(** C10: after a call of [loadTranslations], every entry of the cache was
    there before or is the bundle that a request of this call was served for
    the entry's own language.  So a cache that holds only bundles served for
    their own language keeps doing so, through [loadTranslations],
    [setLanguage] and [init].  When the load of the requested language
    fails, its entry is left as it was; if it is not the fallback language
    and the fallback bundle is served, that bundle is returned and stored
    under the fallback language alone.  A later [setLanguage] for a language
    that has no entry requests its bundle again. *)
Theorem C10_cache_entries_come_from_their_own_source
    (network : nat -> string -> FetchResult) (navigator : Navigator)
    (toolsLoader : bool) (fuel : nat) (language : string) (p : Page)
    (r : Outcome Bundle) (p' : Page) :
  (2 ≤ fuel)%nat →
  TM.loadTranslations network fuel language p = (r, p') →
  let this := translationManager p in
  let n := length (requests p) in
  (∀ (K : string) (b : Bundle),
     translations (translationManager p') !! K = Some b →
     translations this !! K = Some b ∨
     ∃ m, (n ≤ m)%nat
          ∧ requests p' !! m = Some (translations_url K)
          ∧ bundle_served network m K = Some b)
  ∧ (cache_sound network p → cache_sound network p')
  ∧ (∀ (lang : string) (q : Page),
       cache_sound network q →
       cache_sound network (TM.setLanguage network toolsLoader fuel lang q).2
       ∧ cache_sound network (TM.init network navigator fuel q).2)
  ∧ (bundle_served network n language = None →
     translations (translationManager p') !! language = translations this !! language)
  ∧ (bundle_served network n language = None →
     language ≠ fallbackLang this →
     ∀ b : Bundle,
       bundle_served network (S n) (fallbackLang this) = Some b →
       r = Return b
       ∧ translations (translationManager p') =
         <[fallbackLang this := b]> (translations this))
  ∧ (bundle_served network n language = None →
     translations this !! language = None →
     requests (TM.setLanguage network toolsLoader fuel language p').2
       !! length (requests p') = Some (translations_url language)).
Proof.
  intros Hfuel Hload this n.
  assert (p' = (TM.loadTranslations network fuel language p).2) as Hp'
    by by rewrite Hload.
  assert (bundle_served network n language = None →
          translations (translationManager p') !! language =
          translations this !! language) as Hkept.
  { intros Hs. rewrite (loadTranslations_eq network fuel language p Hfuel) in Hload.
    cbn zeta in Hload. fold n this in Hload. rewrite Hs in Hload.
    case_bool_decide as Hne.
    - destruct (bundle_served network (S n) (fallbackLang this)) as [b|];
        injection Hload as <- <-; cbn; [|done].
      by rewrite lookup_insert_ne.
    - by injection Hload as <- <-. }
  split; [|split; [|split; [|split; [done|split]]]].
  - intros K b. rewrite Hp'. by apply loadTranslations_entries.
  - rewrite Hp'. by apply loadTranslations_cache_sound.
  - intros lang q Hq. split.
    + by apply setLanguage_cache_sound.
    + by apply init_cache_sound.
  - intros Hs Hne b Hs1.
    rewrite (loadTranslations_eq network fuel language p Hfuel) in Hload.
    cbn zeta in Hload. fold n this in Hload. rewrite Hs, Hs1 in Hload.
    rewrite bool_decide_eq_true_2 in Hload by done.
    by injection Hload as <- <-.
  - intros Hs Hnone.
    rewrite setLanguage_not_cached; [|done|by rewrite Hkept].
    cbn [snd]. rewrite switch_to_requests.
    destruct (loadTranslations_requests network fuel language p') as [rest ->];
      [lia|].
    by rewrite list_lookup_middle.
Qed.

(** ** Fetching a document *)

Section FetchMarkdown.

Variable network : nat -> string -> FetchResult.

Lemma attempt_eq (url : string) (p : Page) :
  CL.attempt network url p =
  (Return (document_served network (length (requests p)) url), requested url p).
Proof.
  unfold CL.attempt, document_served. run.
  destruct (network _ _) as [|r]; [done|].
  destruct (ok r); [|done]. cbn.
  by destruct (text r).
Qed.

End FetchMarkdown.

(** C5: [fetchMarkdownContent] requests the document in the requested
    language and returns its text when that succeeds.  When it fails (network
    error, non-success status, unreadable body) and the language is en, the
    result is null after that single request; when the language is not en,
    exactly one more request is made, for the en document, and the result is
    its text, or null when this fails too.  The call never throws. *)
Theorem C5_fetchMarkdownContent_two_levels
    (network : nat -> string -> FetchResult)
    (contentType language : string) (p : Page) :
  let n := length (requests p) in
  let url := "content/" +:+ language +:+ "/" +:+ contentType +:+ ".md" in
  let url_en := "content/en/" +:+ contentType +:+ ".md" in
  (∀ t : string,
     document_served network n url = Some t →
     CL.fetchMarkdownContent network contentType language p =
     (Return (Some t), requested url p))
  ∧ (document_served network n url = None →
     language = "en" →
     CL.fetchMarkdownContent network contentType language p =
     (Return None, requested url p))
  ∧ (document_served network n url = None →
     language ≠ "en" →
     CL.fetchMarkdownContent network contentType language p =
     (Return (document_served network (S n) url_en),
      requested url_en (requested url p))).
Proof.
  intros n url url_en.
  assert (∀ q (f : option string → M (option string)),
            (CL.attempt network q ≫= f) p =
            f (document_served network n q) (requested q p)) as Hfirst.
  { intros q f. unfold mbind, M_bind, bind. by rewrite attempt_eq. }
  unfold CL.fetchMarkdownContent. fold url url_en. rewrite Hfirst.
  split; [|split].
  - by intros t ->.
  - intros -> ->. by rewrite bool_decide_eq_false_2 by (by intros []).
  - intros -> Hne. rewrite bool_decide_eq_true_2 by done.
    unfold mbind, M_bind, bind. rewrite attempt_eq, requested_length.
    fold n. by destruct (document_served network (S n) url_en).
Qed.

(** ** Elements and their ids *)

Lemma list_find_fst_ids (i : string) (l1 l2 : list Element) :
  el_id <$> l1 = el_id <$> l2 →
  fst <$> list_find (fun e => el_id e = Some i) l1 =
  fst <$> list_find (fun e => el_id e = Some i) l2.
Proof.
  revert l2. induction l1 as [|e1 l1 IH]; intros [|e2 l2] Hids;
    try discriminate; [done|].
  injection Hids as Hid Hids. cbn. rewrite Hid.
  case_decide; [done|].
  specialize (IH l2 Hids).
  destruct (list_find _ l1) as [[]|], (list_find _ l2) as [[]|];
    cbn in *; congruence.
Qed.

Lemma ids_alter (f : Element → Element) (j : nat) (l : list Element) :
  (∀ e, el_id (f e) = el_id e) →
  el_id <$> alter f j l = el_id <$> l.
Proof.
  intros Hf. apply list_eq. intros n. rewrite !list_lookup_fmap.
  destruct (decide (j = n)) as [->|Hne].
  - rewrite list_lookup_alter_eq. destruct (l !! n); cbn; [|done]. by rewrite Hf.
  - by rewrite list_lookup_alter_ne.
Qed.

Lemma getElementById_update (i : string) (j : nat) (f : Element → Element)
    (d : Document) :
  (∀ e, el_id (f e) = el_id e) →
  getElementById i (update_element j f d) = getElementById i d.
Proof.
  intros Hf. unfold getElementById. cbn.
  apply list_find_fst_ids. by apply ids_alter.
Qed.

Lemma getElementById_set_doc_title (i s : string) (d : Document) :
  getElementById i (set_doc_title s d) = getElementById i d.
Proof. done. Qed.

Lemma getElementById_inj (a b : string) (n : nat) (d : Document) :
  getElementById a d = Some n → getElementById b d = Some n → a = b.
Proof.
  unfold getElementById. intros Ha Hb.
  destruct (list_find _ _) as [[na ea]|] eqn:Hfa; [|done].
  destruct (list_find (λ e, el_id e = Some b) _) as [[nb eb]|] eqn:Hfb; [|done].
  cbn in *. injection Ha as ->. injection Hb as ->.
  apply list_find_Some in Hfa as (Hea & Hida & _).
  apply list_find_Some in Hfb as (Heb & Hidb & _).
  congruence.
Qed.

Lemma getElementById_lookup (i : string) (n : nat) (d : Document) :
  getElementById i d = Some n → is_Some (elements d !! n).
Proof.
  unfold getElementById. intros Hn.
  destruct (list_find _ _) as [[n' e]|] eqn:Hf; [|done].
  cbn in Hn. injection Hn as ->.
  apply list_find_Some in Hf as (He & _). by exists e.
Qed.

Lemma element_by_id_update (i : string) (j : nat) (f : Element → Element)
    (d : Document) :
  (∀ e, el_id (f e) = el_id e) →
  element_by_id i (update_element j f d) =
  if bool_decide (getElementById i d = Some j)
  then f <$> element_by_id i d
  else element_by_id i d.
Proof.
  intros Hf. unfold element_by_id. rewrite getElementById_update by done.
  destruct (getElementById i d) as [n|]; [|by case_bool_decide].
  cbn. case_bool_decide as Hn.
  - injection Hn as ->. by rewrite list_lookup_alter_eq.
  - rewrite list_lookup_alter_ne; [done | congruence].
Qed.

Lemma element_by_id_is_Some (i : string) (d : Document) :
  is_Some (getElementById i d) ↔ is_Some (element_by_id i d).
Proof.
  unfold element_by_id. split.
  - intros [n Hn]. rewrite Hn. by eapply getElementById_lookup.
  - destruct (getElementById i d); [by eexists | by intros []].
Qed.

(** The element writes keep the id. *)
Lemma el_id_set_content c e : el_id (set_content c e) = el_id e.
Proof. done. Qed.
Lemma el_id_setAttribute n v e : el_id (setAttribute n v e) = el_id e.
Proof. done. Qed.
Lemma el_id_classList_add c e : el_id (classList_add c e) = el_id e.
Proof. done. Qed.
Lemma el_id_classList_remove c e : el_id (classList_remove c e) = el_id e.
Proof. done. Qed.
Lemma el_id_set_style k v e : el_id (set_style k v e) = el_id e.
Proof. done. Qed.

Lemma classList_contains_add (c : string) (e : Element) :
  classList_contains c (classList_add c e) = true.
Proof.
  unfold classList_contains, classList_add. cbn.
  apply bool_decide_eq_true. case_bool_decide; [done|].
  apply elem_of_app. right. by left.
Qed.

Lemma classList_contains_remove (c : string) (e : Element) :
  classList_contains c (classList_remove c e) = false.
Proof.
  unfold classList_contains, classList_remove. cbn.
  apply bool_decide_eq_false. rewrite list_elem_of_filter. by intros [? _].
Qed.

(** ** Page metadata *)

Lemma tables_truthy :
  map_Forall (fun _ row => map_Forall (fun _ t => truthy t = true) row) CL.titles
  ∧ map_Forall (fun _ row => map_Forall (fun _ t => truthy t = true) row)
      CL.descriptions.
Proof. split; apply (bool_decide_unpack _); vm_compute; exact I. Qed.

Lemma entry_truthy (table : gmap string (gmap string string))
    (contentType language t : string) :
  map_Forall (fun _ row => map_Forall (fun _ t => truthy t = true) row) table →
  CL.entry table contentType language = Some t → truthy t = true.
Proof.
  intros Htable. unfold CL.entry.
  destruct (table !! contentType) as [row|] eqn:Hrow; [|done].
  intros Ht. exact (Htable _ _ Hrow _ _ Ht).
Qed.

Lemma chosen_from_table (table : gmap string (gmap string string))
    (contentType language generic : string) :
  map_Forall (fun _ row => map_Forall (fun _ t => truthy t = true) row) table →
  or_default
    (or_else (CL.entry table contentType language) (CL.entry table contentType "en"))
    generic =
  match CL.entry table contentType language with
  | Some t => t
  | None =>
      match CL.entry table contentType "en" with
      | Some t => t
      | None => generic
      end
  end.
Proof.
  intros Htable. unfold or_default, or_else.
  destruct (CL.entry table contentType language) as [t|] eqn:Ht.
  - by rewrite (entry_truthy _ _ _ _ Htable Ht), (entry_truthy _ _ _ _ Htable Ht).
  - destruct (CL.entry table contentType "en") as [t|] eqn:Hen; [|done].
    by rewrite (entry_truthy _ _ _ _ Htable Hen).
Qed.

Lemma with_element_by_id_ok (i : string) (f : Element → Element) (p : Page) (n : nat) :
  getElementById i (document p) = Some n →
  with_element_by_id i f p = (Return tt, set_document (update_element n f) p).
Proof. intros Hn. unfold with_element_by_id. run. by rewrite Hn. Qed.

Lemma element_by_id_update_id (a b : string) (n : nat) (f : Element → Element)
    (d : Document) :
  (∀ e, el_id (f e) = el_id e) →
  getElementById b d = Some n →
  element_by_id a (update_element n f d) =
  if bool_decide (a = b) then f <$> element_by_id a d else element_by_id a d.
Proof.
  intros Hf Hb. rewrite element_by_id_update by done.
  case_bool_decide as Ha; case_bool_decide as Hab; try done.
  - destruct Hab. by eapply getElementById_inj.
  - subst a. congruence.
Qed.

Lemma with_element_by_id_bind {A} (i : string) (f : Element → Element)
    (k : unit → M A) (p : Page) (n : nat) :
  getElementById i (document p) = Some n →
  (with_element_by_id i f ≫= k) p = k tt (set_document (update_element n f) p).
Proof.
  intros Hn. unfold mbind, M_bind, bind. by rewrite (with_element_by_id_ok i f p n Hn).
Qed.

Ltac by_id_stable :=
  cbn [document set_document];
  rewrite ?getElementById_update by done;
  rewrite ?getElementById_set_doc_title;
  eassumption.

Lemma element_by_id_set_doc_title (i s : string) (d : Document) :
  element_by_id i (set_doc_title s d) = element_by_id i d.
Proof. done. Qed.

Ltac by_id_read :=
  repeat (erewrite element_by_id_update_id; [|done|by_id_stable];
          first [ rewrite bool_decide_eq_true_2 by done
                | rewrite bool_decide_eq_false_2 by done ]);
  rewrite ?element_by_id_set_doc_title.

(** ** What a computation leaves alone *)

Section Preserves.

Context {X : Type} (obs : Page → X).

Lemma preserves_ret {A} (a : A) : preserves obs (mret a).
Proof. by intros p. Qed.

Lemma preserves_throw {A} (e : Error) : preserves obs (@throw A e).
Proof. by intros p. Qed.

Lemma preserves_get : preserves obs get.
Proof. by intros p. Qed.

Lemma preserves_modify (f : Page → Page) :
  (∀ p, obs (f p) = obs p) → preserves obs (modify f).
Proof. intros Hf p. apply Hf. Qed.

Lemma preserves_bind {A B} (m : M A) (k : A → M B) :
  preserves obs m → (∀ a, preserves obs (k a)) → preserves obs (m ≫= k).
Proof.
  intros Hm Hk p. unfold mbind, M_bind, bind.
  specialize (Hm p). destruct (m p) as [[a|e|] p']; cbn in *; [|done..].
  by rewrite Hk.
Qed.

Lemma preserves_try_catch {A} (m : M A) (h : Error → M A) :
  preserves obs m → (∀ e, preserves obs (h e)) → preserves obs (try_catch m h).
Proof.
  intros Hm Hh p. unfold try_catch.
  specialize (Hm p). destruct (m p) as [[a|e|] p']; cbn in *; [done| |done].
  by rewrite Hh.
Qed.

Lemma preserves_on_element (el : option nat) (f : Element → Element) :
  (∀ g p, obs (set_document g p) = obs p) → preserves obs (on_element el f).
Proof.
  intros Hobs. destruct el; cbn; [by apply preserves_modify | apply preserves_throw].
Qed.

Lemma preserves_with_element_by_id (i : string) (f : Element → Element) :
  (∀ g p, obs (set_document g p) = obs p) →
  preserves obs (with_element_by_id i f).
Proof.
  intros Hobs. apply preserves_bind; [apply preserves_get|].
  intros p. by apply preserves_on_element.
Qed.

Lemma preserves_fetch network (url : string) :
  (∀ g p, obs (set_requests g p) = obs p) → preserves obs (fetch network url).
Proof. intros Hobs p. unfold fetch. destruct (network _ _); apply Hobs. Qed.

End Preserves.

Lemma showError_preserves {X} (obs : Page → X) :
  (∀ g p, obs (set_document g p) = obs p) → preserves obs CL.showError.
Proof.
  intros Hobs. unfold CL.showError.
  apply preserves_bind; [apply preserves_get|]. intros p.
  do 2 (apply preserves_bind; [by apply preserves_on_element|intros _]).
  by apply preserves_on_element.
Qed.

Lemma updatePageMeta_preserves {X} (obs : Page → X) contentType language :
  (∀ g p, obs (set_document g p) = obs p) →
  preserves obs (CL.updatePageMeta contentType language).
Proof.
  intros Hobs. unfold CL.updatePageMeta.
  apply preserves_bind; [by apply preserves_modify|]. intros _.
  do 5 (apply preserves_bind; [by apply preserves_with_element_by_id|intros _]).
  by apply preserves_with_element_by_id.
Qed.

Section ContentLoaderFrame.

Variable network : nat -> string -> FetchResult.
Variable marked_parse : string -> option string.

Lemma attempt_preserves {X} (obs : Page → X) (url : string) :
  (∀ g p, obs (set_requests g p) = obs p) →
  preserves obs (CL.attempt network url).
Proof.
  intros Hobs p. rewrite attempt_eq. apply Hobs.
Qed.

Lemma fetchMarkdownContent_preserves {X} (obs : Page → X) contentType language :
  (∀ g p, obs (set_requests g p) = obs p) →
  preserves obs (CL.fetchMarkdownContent network contentType language).
Proof.
  intros Hobs. unfold CL.fetchMarkdownContent.
  apply preserves_bind; [by apply attempt_preserves|]. intros [t|].
  - apply preserves_ret.
  - case_bool_decide; [|apply preserves_ret].
    apply preserves_bind; [by apply attempt_preserves|].
    intros [t|]; apply preserves_ret.
Qed.

Lemma loadContent_contentLoader :
  preserves contentLoader (CL.loadContent network marked_parse).
Proof.
  unfold CL.loadContent.
  apply preserves_bind; [apply preserves_get|]. intros p.
  do 3 (apply preserves_bind; [by apply preserves_on_element|intros _]).
  apply preserves_try_catch; [|intros _; by apply showError_preserves].
  apply preserves_bind; [apply preserves_get|]. intros p'.
  apply preserves_bind; [by apply fetchMarkdownContent_preserves|].
  intros [content|]; [|apply preserves_throw].
  destruct (truthy content); [|apply preserves_throw].
  destruct (marked_parse content); [|apply preserves_throw].
  apply preserves_bind; [by apply preserves_on_element|intros _].
  apply preserves_bind; [by apply updatePageMeta_preserves|intros _].
  do 2 (apply preserves_bind; [by apply preserves_on_element|intros _]).
  by apply preserves_modify.
Qed.

End ContentLoaderFrame.

(** ** The error panel *)

Lemma showError_ok (p : Page) (nL nC nE : nat) :
  getElementById "content-loading" (document p) = Some nL →
  getElementById "markdown-content" (document p) = Some nC →
  getElementById "content-error" (document p) = Some nE →
  ∃ p' : Page,
    CL.showError p = (Return tt, p') ∧ view (document p') = Some ErrorShown.
Proof.
  intros HL HC HE.
  assert (∀ i n, getElementById i (document p) = Some n →
                 ∃ e, element_by_id i (document p) = Some e) as Hel.
  { intros i n Hn. apply element_by_id_is_Some. by exists n. }
  destruct (Hel _ _ HL) as [eL HeL], (Hel _ _ HC) as [eC HeC],
    (Hel _ _ HE) as [eE HeE].
  eexists. split.
  { unfold CL.showError. run. by rewrite HL, HC, HE. }
  cbn [document set_document]. unfold view, hidden.
  by_id_read. rewrite HeL, HeC, HeE. cbn [fmap option_fmap option_map].
  by rewrite !classList_contains_add, classList_contains_remove.
Qed.

(** C6: with no content parameter in the query (or an empty one) and a path
    that contains none of the four known names, [init] does nothing but show
    the error panel: no request is made, and when the three panels exist
    the page ends in the error state.  A non-empty content parameter is the
    content type whatever the path is. *)
Theorem C6_unknown_content_type_shows_error
    (network : nat -> string -> FetchResult)
    (marked_parse : string -> option string)
    (urlParams_content : option string) (pathname : string) (p : Page) :
  let init := CL.init network marked_parse urlParams_content pathname in
  ((urlParams_content = None ∨ urlParams_content = Some "") →
   (∀ k, k ∈ ["handbook"; "cli-mode"; "knowledgebase"; "credits"] →
         includes pathname k = false) →
   init p =
     (CL.showError ≫= fun _ => modify (set_window_contentLoader true))
       (set_contentLoader (CL.set_contentType None) p)
   ∧ requests (init p).2 = requests p
   ∧ contentType (contentLoader (init p).2) = None
   ∧ (is_Some (getElementById "content-loading" (document p)) →
      is_Some (getElementById "markdown-content" (document p)) →
      is_Some (getElementById "content-error" (document p)) →
      ∃ p' : Page,
        init p = (Return tt, p') ∧ view (document p') = Some ErrorShown))
  ∧ (∀ c : string,
       urlParams_content = Some c → c ≠ "" →
       contentType (contentLoader (init p).2) = Some c).
Proof.
  intros init. split.
  - intros Hquery Hpath.
    assert (or_else urlParams_content (CL.getContentTypeFromPath pathname) = None)
      as Hnone.
    { unfold CL.getContentTypeFromPath.
      assert (∀ k l, k ∈ (k :: l : list string)) as Hhd by (intros; left).
      assert (∀ k j l, k ∈ (l : list string) → k ∈ j :: l) as Htl by (intros; by right).
      rewrite !Hpath by eauto 6. by destruct Hquery as [-> | ->]. }
    assert (init p =
            (CL.showError ≫= fun _ => modify (set_window_contentLoader true))
              (set_contentLoader (CL.set_contentType None) p)) as Hinit.
    { unfold init, CL.init. cbn zeta. by rewrite Hnone. }
    split; [done|]. rewrite Hinit.
    split; [|split].
    + assert (preserves requests
                (CL.showError ≫= fun _ => modify (set_window_contentLoader true)))
        as Hkeep.
      { apply preserves_bind; [by apply showError_preserves|].
        intros _. by apply preserves_modify. }
      by rewrite (Hkeep _).
    + assert (preserves contentLoader
                (CL.showError ≫= fun _ => modify (set_window_contentLoader true)))
        as Hkeep.
      { apply preserves_bind; [by apply showError_preserves|].
        intros _. by apply preserves_modify. }
      by rewrite (Hkeep _).
    + intros [nL HL] [nC HC] [nE HE].
      destruct (showError_ok (set_contentLoader (CL.set_contentType None) p)
                  nL nC nE HL HC HE) as (p' & Hshow & Hview).
      exists (set_window_contentLoader true p').
      unfold mbind, M_bind, bind. by rewrite Hshow.
  - intros c -> Hc. apply truthy_true in Hc.
    unfold init, CL.init. cbn zeta.
    assert (or_else (Some c) (CL.getContentTypeFromPath pathname) = Some c) as ->
      by (unfold or_else; by rewrite Hc).
    cbn [from_option]. rewrite Hc.
    unfold mbind, M_bind, bind, modify.
    pose proof (loadContent_contentLoader network marked_parse
                  (set_contentLoader (CL.set_contentType (Some c)) p)) as Hkeep.
    destruct (CL.loadContent network marked_parse _) as [[[]|e|] p'];
      cbn in *; by rewrite Hkeep.
Qed.

(** ** Applying translations, element by element *)

Lemma set_elements_id (d : Document) : set_elements (fun l => l) d = d.
Proof. by destruct d. Qed.

Lemma update_element_ext (i : nat) (f g : Element → Element) (d : Document) :
  (∀ e, elements d !! i = Some e → f e = g e) →
  update_element i f d = update_element i g d.
Proof.
  intros Hfg. unfold update_element, set_elements. f_equal.
  by apply list_alter_ext.
Qed.

Lemma update_element_out (i : nat) (f : Element → Element) (d : Document) :
  elements d !! i = None → update_element i f d = d.
Proof.
  intros Hi. unfold update_element. rewrite <- (set_elements_id d) at 2.
  unfold set_elements. f_equal.
  apply list_eq. intros n. destruct (decide (i = n)) as [->|Hne].
  - by rewrite list_lookup_alter_eq, Hi.
  - by rewrite list_lookup_alter_ne.
Qed.

Lemma translate_element_eq (cur : Bundle) (d : Document) (i : nat) :
  TM.translate_element cur d i =
  update_element i (translated cur (elements d)) d.
Proof.
  unfold TM.translate_element.
  destruct (elements d !! i) as [e|] eqn:He; cbn [from_option];
    [|by rewrite update_element_out].
  destruct (getAttribute "data-key" e) as [key|] eqn:Hkey.
  - case_bool_decide as Htoggle.
    + unfold TM.updateToggleButton. rewrite He.
      fold (next_is_expanded (elements d) e).
      destruct (next_is_expanded (elements d) e) eqn:Hexp;
        apply update_element_ext; intros e' He'; simplify_eq;
        unfold translated; rewrite Hkey, bool_decide_eq_true_2, Hexp; done.
    + destruct (cur !! key) as [translation|] eqn:Ht.
      * destruct (truthy translation) eqn:Htr.
        -- apply update_element_ext; intros e' He'; simplify_eq.
           unfold translated.
           by rewrite Hkey, bool_decide_eq_false_2, Ht, Htr.
        -- rewrite <- (set_elements_id d) at 1. unfold update_element, set_elements.
           f_equal. symmetry. apply list_eq. intros n.
           destruct (decide (i = n)) as [->|Hne];
             [|by rewrite list_lookup_alter_ne].
           rewrite list_lookup_alter_eq, He. cbn. unfold translated.
           by rewrite Hkey, bool_decide_eq_false_2, Ht, Htr.
      * rewrite <- (set_elements_id d) at 1. unfold update_element, set_elements.
        f_equal. symmetry. apply list_eq. intros n.
        destruct (decide (i = n)) as [->|Hne];
          [|by rewrite list_lookup_alter_ne].
        rewrite list_lookup_alter_eq, He. cbn. unfold translated.
        by rewrite Hkey, bool_decide_eq_false_2, Ht.
  - rewrite <- (set_elements_id d) at 1. unfold update_element, set_elements.
    f_equal. symmetry. apply list_eq. intros n.
    destruct (decide (i = n)) as [->|Hne];
      [|by rewrite list_lookup_alter_ne].
    rewrite list_lookup_alter_eq, He. cbn. unfold translated. by rewrite Hkey.
Qed.

Lemma next_is_expanded_ext (l1 l2 : list Element) (e : Element) :
  classList <$> l1 = classList <$> l2 →
  next_is_expanded l1 e = next_is_expanded l2 e.
Proof.
  intros Hcl. unfold next_is_expanded.
  destruct (nextElementSibling e) as [j|]; [|done].
  assert ((classList <$> l1) !! j = (classList <$> l2) !! j) as Hj by by rewrite Hcl.
  rewrite !list_lookup_fmap in Hj.
  destruct (l1 !! j), (l2 !! j); cbn in Hj; try done.
  unfold classList_contains. by injection Hj as ->.
Qed.

Lemma translated_ext (cur : Bundle) (l1 l2 : list Element) (e : Element) :
  classList <$> l1 = classList <$> l2 →
  translated cur l1 e = translated cur l2 e.
Proof.
  intros Hcl. unfold translated. by rewrite (next_is_expanded_ext l1 l2 e Hcl).
Qed.

Lemma classList_apply_translation (t : string) (e : Element) :
  classList (TM.apply_translation t e) = classList e.
Proof. unfold TM.apply_translation. by repeat case_match. Qed.

Lemma classList_translated (cur : Bundle) (all : list Element) (e : Element) :
  classList (translated cur all e) = classList e.
Proof.
  unfold translated. repeat case_match; try done.
  apply classList_apply_translation.
Qed.

Lemma classes_alter (f : Element → Element) (j : nat) (l : list Element) :
  (∀ e, classList (f e) = classList e) →
  classList <$> alter f j l = classList <$> l.
Proof.
  intros Hf. apply list_eq. intros n. rewrite !list_lookup_fmap.
  destruct (decide (j = n)) as [->|Hne].
  - rewrite list_lookup_alter_eq. destruct (l !! n); cbn; [|done]. by rewrite Hf.
  - by rewrite list_lookup_alter_ne.
Qed.

(** The loop over the selected elements, as updates of one list. *)
Lemma translate_fold (cur : Bundle) (d0 : Document) (idxs : list nat) (d : Document) :
  classList <$> elements d = classList <$> elements d0 →
  foldl (TM.translate_element cur) d idxs =
  set_elements
    (fun l => foldl (fun l i => alter (translated cur (elements d0)) i l) l idxs) d.
Proof.
  revert d. induction idxs as [|i idxs IH]; intros d Hcl; cbn [foldl].
  - by rewrite set_elements_id.
  - rewrite translate_element_eq.
    rewrite (update_element_ext i _ (translated cur (elements d0)))
      by (intros; by apply translated_ext).
    rewrite IH; [by destruct d|].
    cbn. rewrite classes_alter; [done|]. apply classList_translated.
Qed.

Lemma foldl_alter_lookup {A} (g : A → A) (idxs : list nat) (l : list A) (n : nat) :
  NoDup idxs →
  foldl (fun l i => alter g i l) l idxs !! n =
  if bool_decide (n ∈ idxs) then g <$> l !! n else l !! n.
Proof.
  revert l. induction idxs as [|i idxs IH]; intros l Hnd; cbn [foldl].
  - by rewrite bool_decide_eq_false_2 by apply not_elem_of_nil.
  - apply NoDup_cons in Hnd as [Hi Hnd]. rewrite IH by done.
    destruct (decide (i = n)) as [->|Hne].
    + rewrite (bool_decide_eq_false_2 (n ∈ idxs)) by done.
      rewrite bool_decide_eq_true_2 by (by left).
      by rewrite list_lookup_alter_eq.
    + rewrite list_lookup_alter_ne by done.
      case_bool_decide as Hin.
      * by rewrite bool_decide_eq_true_2 by (by right).
      * rewrite bool_decide_eq_false_2; [done|].
        intros [?|?]%elem_of_cons; congruence.
Qed.

Lemma querySelectorAll_from_elem (k : nat) (l : list Element) (n : nat) :
  n ∈ querySelectorAll_from k l ↔
  ∃ e, (k ≤ n)%nat ∧ l !! (n - k)%nat = Some e ∧ hasAttribute "data-key" e = true.
Proof.
  revert k. induction l as [|e l IH]; intros k; cbn [querySelectorAll_from].
  - split; [by intros ?%elem_of_nil | by intros (e & _ & ? & _)].
  - assert (n ∈ querySelectorAll_from (S k) l ↔
            ∃ e', (k < n)%nat ∧ l !! (n - S k)%nat = Some e'
                  ∧ hasAttribute "data-key" e' = true) as Htail.
    { rewrite IH. by split; intros (e' & ? & ? & ?); exists e'. }
    assert (∀ e', (k < n)%nat → l !! (n - S k)%nat = Some e' ↔
                                (e :: l) !! (n - k)%nat = Some e') as Hshift.
    { intros e' Hlt. replace (n - k)%nat with (S (n - S k)) by lia. done. }
    destruct (hasAttribute "data-key" e) eqn:He.
    + rewrite elem_of_cons, Htail. split.
      * intros [-> | (e' & Hlt & Hl & Hk)].
        -- exists e. rewrite Nat.sub_diag. by split; [lia|].
        -- exists e'. split; [lia|]. by rewrite <- Hshift.
      * intros (e' & Hle & Hl & Hk).
        destruct (decide (n = k)) as [->|Hne]; [by left|].
        right. exists e'. split; [lia|]. rewrite Hshift by lia. done.
    + rewrite Htail. split.
      * intros (e' & Hlt & Hl & Hk).
        exists e'. split; [lia|]. by rewrite <- Hshift.
      * intros (e' & Hle & Hl & Hk).
        destruct (decide (n = k)) as [->|Hne].
        -- rewrite Nat.sub_diag in Hl. cbn in Hl. congruence.
        -- exists e'. split; [lia|]. rewrite Hshift by lia. done.
Qed.

Lemma querySelectorAll_from_NoDup (k : nat) (l : list Element) :
  NoDup (querySelectorAll_from k l).
Proof.
  revert k. induction l as [|e l IH]; intros k; cbn [querySelectorAll_from].
  - constructor.
  - destruct (hasAttribute "data-key" e); [|apply IH].
    apply NoDup_cons. split; [|apply IH].
    rewrite querySelectorAll_from_elem. intros (e' & Hle & _). lia.
Qed.

(** [updatePageTranslations] maps [translated] over the elements and leaves
    the rest of the document alone. *)
Lemma updatePageTranslations_eq (this : TranslationManager) (d : Document) :
  TM.updatePageTranslations this d =
  set_elements
    (fun l => translated (TM.currentTranslations this) (elements d) <$> l) d.
Proof.
  unfold TM.updatePageTranslations. cbn zeta.
  rewrite (translate_fold _ d) by done.
  unfold set_elements. f_equal.
  apply list_eq. intros n.
  rewrite foldl_alter_lookup by apply querySelectorAll_from_NoDup.
  rewrite list_lookup_fmap.
  case_bool_decide as Hin; [done|].
  destruct (elements d !! n) as [e|] eqn:He; [|done]. cbn.
  f_equal. unfold translated.
  destruct (getAttribute "data-key" e) as [key|] eqn:Hkey; [|done].
  destruct Hin. apply querySelectorAll_from_elem.
  exists e. rewrite Nat.sub_0_r. split; [lia|]. split; [done|].
  unfold hasAttribute. apply bool_decide_eq_true. by exists key.
Qed.

Lemma updatePageTranslations_lookup (this : TranslationManager) (d : Document)
    (i : nat) :
  elements (TM.updatePageTranslations this d) !! i =
  translated (TM.currentTranslations this) (elements d) <$> elements d !! i.
Proof. rewrite updatePageTranslations_eq. cbn. apply list_lookup_fmap. Qed.

(** ** Applying translations twice *)

Lemma getElementById_ids (i : string) (d1 d2 : Document) :
  el_id <$> elements d1 = el_id <$> elements d2 →
  getElementById i d1 = getElementById i d2.
Proof. intros Hids. unfold getElementById. by apply list_find_fst_ids. Qed.

Lemma el_id_button_style this lang e : el_id (button_style this lang e) = el_id e.
Proof. unfold button_style. by case_bool_decide. Qed.

Lemma restyled_ext (this : TranslationManager) (d1 d2 : Document)
    (langs : list string) (n : nat) (e : Element) :
  el_id <$> elements d1 = el_id <$> elements d2 →
  restyled this d1 langs n e = restyled this d2 langs n e.
Proof.
  intros Hids. unfold restyled. revert e.
  induction langs as [|lang langs IH]; intros e; cbn [foldl]; [done|].
  by rewrite IH, (getElementById_ids _ d1 d2 Hids).
Qed.

Lemma language_buttons_fold (this : TranslationManager) (d0 : Document)
    (langs : list string) (d : Document) :
  el_id <$> elements d = el_id <$> elements d0 →
  let d' :=
    foldl
      (fun d lang =>
         match getElementById ("lang-" +:+ lang) d with
         | Some button =>
             if bool_decide (currentLang this = lang)
             then update_element button
                    (fun e => set_style "color" "white"
                                (set_style "backgroundColor" "#e64845" e)) d
             else update_element button
                    (fun e => set_style "color" "#d1d5db"
                                (set_style "backgroundColor" "#374151" e)) d
         | None => d
         end)
      d langs in
  doc_title d' = doc_title d
  ∧ doc_lang d' = doc_lang d
  ∧ length (elements d') = length (elements d)
  ∧ ∀ n, elements d' !! n = restyled this d0 langs n <$> elements d !! n.
Proof.
  revert d. induction langs as [|lang langs IH]; intros d Hids; cbn [foldl].
  - repeat split. intros n. unfold restyled. cbn. by destruct (elements d !! n).
  - rewrite (getElementById_ids _ d d0 Hids).
    destruct (getElementById ("lang-" +:+ lang) d0) as [button|] eqn:Hbutton.
    + set (d1 := if bool_decide (currentLang this = lang) then _ else _).
      assert (d1 = update_element button (button_style this lang) d) as ->.
      { unfold d1, button_style. case_bool_decide; apply update_element_ext;
          intros; by rewrite ?bool_decide_eq_true_2, ?bool_decide_eq_false_2. }
      destruct (IH (update_element button (button_style this lang) d))
        as (Ht & Hl & Hlen & Hel).
      { cbn. rewrite ids_alter; [done|]. apply el_id_button_style. }
      split; [done|]. split; [done|].
      split; [by rewrite Hlen; cbn; rewrite length_alter|].
      intros n. rewrite Hel. cbn [elements update_element set_elements].
      destruct (decide (button = n)) as [->|Hne].
      * rewrite list_lookup_alter_eq.
        destruct (elements d !! n) as [e|]; [|done]. cbn [fmap option_fmap option_map].
        unfold restyled at 2. cbn [foldl].
        by rewrite bool_decide_eq_true_2.
      * rewrite list_lookup_alter_ne by done.
        destruct (elements d !! n) as [e|]; [|done]. cbn [fmap option_fmap option_map].
        unfold restyled at 2. cbn [foldl].
        rewrite Hbutton. by rewrite bool_decide_eq_false_2 by congruence.
    + destruct (IH d Hids) as (Ht & Hl & Hlen & Hel).
      split; [done|]. split; [done|]. split; [done|].
      intros n. rewrite Hel.
      destruct (elements d !! n) as [e|]; [|done]. cbn [fmap option_fmap option_map].
      unfold restyled at 2. cbn [foldl].
      rewrite Hbutton. by rewrite bool_decide_eq_false_2.
Qed.

Lemma updateLanguageButtons_eq (this : TranslationManager) (d : Document) :
  TM.updateLanguageButtons this d =
  set_elements (imap (restyled this d (supportedLanguages this))) d.
Proof.
  destruct (language_buttons_fold this d (supportedLanguages this) d eq_refl)
    as (Ht & Hl & Hlen & Hel).
  fold (TM.updateLanguageButtons this d) in *.
  destruct (TM.updateLanguageButtons this d) as [t l els] eqn:Hd.
  cbn in *. unfold set_elements. f_equal; [done..|].
  apply list_eq. intros n. by rewrite Hel, list_lookup_imap.
Qed.

Lemma set_style_absorb (k1 k2 v1 v2 w1 w2 : string) (e : Element) :
  set_style k1 v1 (set_style k2 v2 (set_style k1 w1 (set_style k2 w2 e))) =
  set_style k1 v1 (set_style k2 v2 e).
Proof.
  destruct e as [i a c b s nx]. unfold set_style. cbn. f_equal.
  apply map_eq. intros k. rewrite !lookup_insert. by repeat case_decide.
Qed.

Lemma button_style_absorb (this : TranslationManager) (a b : string) (e : Element) :
  button_style this a (button_style this b e) = button_style this a e.
Proof.
  unfold button_style. repeat case_bool_decide; apply set_style_absorb.
Qed.

Lemma restyled_cases (this : TranslationManager) (d0 : Document)
    (langs : list string) (n : nat) :
  (∀ e, restyled this d0 langs n e = e)
  ∨ (∃ lang, ∀ e, restyled this d0 langs n e = button_style this lang e).
Proof.
  induction langs as [|lang langs IH] using rev_ind; [by left|].
  unfold restyled in *. setoid_rewrite foldl_app. cbn [foldl].
  case_bool_decide; [|done].
  right. exists lang. intros e.
  destruct IH as [-> | [lang' ->]]; [done|]. apply button_style_absorb.
Qed.

Lemma restyled_idem (this : TranslationManager) (d0 : Document)
    (langs : list string) (n : nat) (e : Element) :
  restyled this d0 langs n (restyled this d0 langs n e) =
  restyled this d0 langs n e.
Proof.
  destruct (restyled_cases this d0 langs n) as [Hid | [lang Hlang]].
  - by rewrite !Hid.
  - rewrite !Hlang. apply button_style_absorb.
Qed.

Lemma translated_set_style (cur : Bundle) (all : list Element)
    (k v : string) (e : Element) :
  translated cur all (set_style k v e) = set_style k v (translated cur all e).
Proof.
  unfold translated, TM.apply_translation, next_is_expanded, hasAttribute,
    getAttribute.
  cbn. by repeat case_match.
Qed.

Lemma translated_button_style (cur : Bundle) (all : list Element)
    (this : TranslationManager) (lang : string) (e : Element) :
  translated cur all (button_style this lang e) =
  button_style this lang (translated cur all e).
Proof.
  unfold button_style. case_bool_decide; by rewrite !translated_set_style.
Qed.

Lemma translated_restyled (cur : Bundle) (all : list Element)
    (this : TranslationManager) (d0 : Document) (langs : list string)
    (n : nat) (e : Element) :
  translated cur all (restyled this d0 langs n e) =
  restyled this d0 langs n (translated cur all e).
Proof.
  unfold restyled. revert e.
  induction langs as [|lang langs IH]; intros e; cbn [foldl]; [done|].
  rewrite IH. by case_bool_decide; rewrite ?translated_button_style.
Qed.

Lemma apply_translation_idem (t : string) (e : Element) :
  TM.apply_translation t (TM.apply_translation t e) = TM.apply_translation t e.
Proof.
  destruct e as [i a c b s nx].
  assert (bool_decide (is_Some (<["title":=t]> a !! "title")) = true) as Hnew.
  { apply bool_decide_eq_true. rewrite lookup_insert_eq. by eexists. }
  unfold TM.apply_translation, hasAttribute, setAttribute, set_content. cbn.
  destruct (bool_decide (is_Some (a !! "title"))) eqn:Htitle;
    destruct (includes t "<a href") eqn:Hinc; cbn;
    rewrite ?Hnew, ?Htitle; cbn; by rewrite ?insert_insert_eq.
Qed.

Lemma data_key_apply_translation (t : string) (e : Element) :
  getAttribute "data-key" (TM.apply_translation t e) = getAttribute "data-key" e.
Proof.
  unfold TM.apply_translation, getAttribute, hasAttribute.
  case_bool_decide; destruct (includes t "<a href"); cbn; try done;
    by rewrite lookup_insert_ne.
Qed.

Lemma next_is_expanded_set_content (all : list Element) (c : Content) (e : Element) :
  next_is_expanded all (set_content c e) = next_is_expanded all e.
Proof. done. Qed.

Lemma data_key_set_content (c : Content) (e : Element) :
  getAttribute "data-key" (set_content c e) = getAttribute "data-key" e.
Proof. done. Qed.

Lemma translated_idem (cur : Bundle) (all : list Element) (e : Element) :
  translated cur all (translated cur all e) = translated cur all e.
Proof.
  unfold translated at 2.
  destruct (getAttribute "data-key" e) as [key|] eqn:Hkey;
    [|unfold translated; by rewrite Hkey].
  case_bool_decide as Htoggle.
  - destruct (next_is_expanded all e) eqn:Hexp; unfold translated;
      rewrite next_is_expanded_set_content, Hexp;
      rewrite data_key_set_content, Hkey, bool_decide_eq_true_2 by done; done.
  - destruct (cur !! key) as [t|] eqn:Ht;
      [|unfold translated; by rewrite Hkey, bool_decide_eq_false_2, Ht].
    destruct (truthy t) eqn:Htr;
      [|unfold translated; by rewrite Hkey, bool_decide_eq_false_2, Ht, Htr].
    unfold translated. rewrite data_key_apply_translation, Hkey.
    rewrite bool_decide_eq_false_2, Ht, Htr by done.
    apply apply_translation_idem.
Qed.

Lemma reapplied_eq (this : TranslationManager) (language : string) (d : Document) :
  reapplied this language d =
  {| doc_title := doc_title d;
     doc_lang := language;
     elements :=
       imap (fun n e =>
               restyled this d (supportedLanguages this) n
                 (translated (TM.currentTranslations this) (elements d) e))
            (elements d) |}.
Proof.
  unfold reapplied. rewrite updatePageTranslations_eq, updateLanguageButtons_eq.
  unfold set_elements, set_doc_lang. cbn. f_equal. apply list_eq. intros n.
  rewrite !list_lookup_imap, list_lookup_fmap.
  destruct (elements d !! n) as [e|]; [|done]. cbn. f_equal.
  apply restyled_ext. cbn. rewrite <- list_fmap_compose.
  apply list_fmap_ext. intros i x _. cbn.
  unfold translated, TM.apply_translation. by repeat case_match.
Qed.

Lemma reapplied_idem (this : TranslationManager) (language : string) (d : Document) :
  reapplied this language (reapplied this language d) = reapplied this language d.
Proof.
  rewrite (reapplied_eq this language (reapplied this language d)).
  rewrite !reapplied_eq. cbn. f_equal.
  apply list_eq. intros n. rewrite !list_lookup_imap.
  destruct (elements d !! n) as [e|]; [|done]. cbn. f_equal.
  set (all := imap _ (elements d)).
  assert (el_id <$> all = el_id <$> elements d) as Hids.
  { apply list_eq. intros i. unfold all.
    rewrite !list_lookup_fmap, list_lookup_imap.
    destruct (elements d !! i) as [x|]; [|done]. cbn. f_equal.
    destruct (restyled_cases this d (supportedLanguages this) i) as [-> | [lang ->]];
      rewrite ?el_id_button_style;
      unfold translated, TM.apply_translation; by repeat case_match. }
  assert (classList <$> all = classList <$> elements d) as Hcl.
  { apply list_eq. intros i. unfold all.
    rewrite !list_lookup_fmap, list_lookup_imap.
    destruct (elements d !! i) as [x|]; [|done]. cbn. f_equal.
    destruct (restyled_cases this d (supportedLanguages this) i) as [-> | [lang ->]];
      [apply classList_translated|].
    unfold button_style. case_bool_decide; cbn; apply classList_translated. }
  set (D := {| doc_title := doc_title d; doc_lang := language; elements := all |}).
  rewrite (restyled_ext this D d) by done.
  rewrite (translated_ext _ all (elements d)) by done.
  rewrite translated_restyled, restyled_idem.
  by rewrite translated_idem.
Qed.

Lemma set_currentLang_same (p : Page) :
  set_tm (set_currentLang (currentLang (translationManager p))) p = p.
Proof. by destruct p as [[] ? ? ? ? ? ? ?]. Qed.

(** The bundles differ. *)
Lemma sample_bundles_differ : Sample.en_bundle ≠ Sample.stale_bundle.
Proof.
  intros Heq.
  assert (Sample.en_bundle !! "greeting" = Sample.stale_bundle !! "greeting")
    as Hlookup by by rewrite Heq.
  vm_compute in Hlookup. discriminate.
Qed.

(** C1 fails for [loadTranslations] as stated.  Two calls in a row for en
    make two requests for translations/en.json.  And with a bundle for en in
    the cache, a call requests translations/en.json all the same and returns
    the bundle the site serves, not the cached one. *)
Lemma C1_counterexample :
  (TM.loadTranslations Sample.network 2 "en" Sample.fresh).1 =
    Return Sample.en_bundle
  ∧ translations
      (translationManager (TM.loadTranslations Sample.network 2 "en" Sample.fresh).2)
      !! "en" = Some Sample.en_bundle
  ∧ (TM.loadTranslations Sample.network 2 "en"
       (TM.loadTranslations Sample.network 2 "en" Sample.fresh).2).1 =
    Return Sample.en_bundle
  ∧ requests
      (TM.loadTranslations Sample.network 2 "en"
         (TM.loadTranslations Sample.network 2 "en" Sample.fresh).2).2 =
    ["translations/en.json"; "translations/en.json"]
  ∧ translations (translationManager Sample.stale) !! "en" = Some Sample.stale_bundle
  ∧ (TM.loadTranslations Sample.network 2 "en" Sample.stale).1 =
    Return Sample.en_bundle
  ∧ Sample.en_bundle ≠ Sample.stale_bundle
  ∧ requests Sample.stale = []
  ∧ requests (TM.loadTranslations Sample.network 2 "en" Sample.stale).2 =
    ["translations/en.json"].
Proof.
  split; [vm_compute; reflexivity|]. split; [vm_compute; reflexivity|].
  split; [vm_compute; reflexivity|]. split; [vm_compute; reflexivity|].
  split; [vm_compute; reflexivity|]. split; [vm_compute; reflexivity|].
  split; [apply sample_bundles_differ|].
  split; vm_compute; reflexivity.
Qed.

Lemma C1_witness :
  ∃ p' : Page,
    TM.setLanguage Sample.network false 2 "en" Sample.stale = (Return tt, p')
    ∧ requests p' = requests Sample.stale
    ∧ translations (translationManager p') =
      translations (translationManager Sample.stale).
Proof.
  refine (proj1 (C1_setLanguage_uses_cache_loadTranslations_fetches
                   Sample.network false 2 "en" Sample.stale
                   Sample.stale_bundle _)).
  vm_compute. reflexivity.
Defined.

Lemma C3_witness :
  ∃ (b : Bundle) (p' : Page),
    TM.loadTranslations Sample.network 2 "pt" Sample.fresh = (Return b, p').
Proof.
  refine (proj1 (C3_loadTranslations_never_raises
                   Sample.network 2 "pt" Sample.fresh _)).
  lia.
Defined.

Lemma C5_witness :
  CL.fetchMarkdownContent Sample.network "handbook" "pt" Sample.fresh =
  (Return (Some "# Handbook"),
   requested "content/en/handbook.md"
     (requested "content/pt/handbook.md" Sample.fresh)).
Proof.
  refine (proj2 (proj2 (C5_fetchMarkdownContent_two_levels
                          Sample.network "handbook" "pt" Sample.fresh)) _ _).
  - vm_compute. reflexivity.
  - vm_compute. discriminate.
Defined.

Lemma sample_path_unknown (k : string) :
  k ∈ ["handbook"; "cli-mode"; "knowledgebase"; "credits"] →
  includes "/index.html" k = false.
Proof.
  intros Hk. apply list_elem_of_In in Hk. cbn in Hk.
  destruct Hk as [<-|[<-|[<-|[<-|[]]]]]; reflexivity.
Defined.

Lemma C6_witness :
  ∃ p' : Page,
    CL.init Sample.network Sample.marked_parse None "/index.html" Sample.fresh =
    (Return tt, p')
    ∧ view (document p') = Some ErrorShown.
Proof.
  refine (proj2 (proj2 (proj2 (proj1
            (C6_unknown_content_type_shows_error
               Sample.network Sample.marked_parse None "/index.html" Sample.fresh)
            _ sample_path_unknown))) _ _ _).
  - left. reflexivity.
  - vm_compute. eexists. reflexivity.
  - vm_compute. eexists. reflexivity.
  - vm_compute. eexists. reflexivity.
Defined.

Lemma sample_meta_elements (i : string) :
  i ∈ ["page-title"; "page-description"; "og-description";
       "twitter-description"; "og-title"; "twitter-title"] →
  is_Some (getElementById i (document Sample.fresh)).
Proof.
  intros Hi. apply list_elem_of_In in Hi. cbn in Hi.
  destruct Hi as [<-|[<-|[<-|[<-|[<-|[<-|[]]]]]]];
    vm_compute; eexists; reflexivity.
Defined.

Lemma C10_witness :
  translations
    (translationManager (TM.loadTranslations Sample.network 2 "pt" Sample.fresh).2)
    !! "pt" =
  translations (translationManager Sample.fresh) !! "pt".
Proof.
  refine (proj1 (proj2 (proj2 (proj2 (C10_cache_entries_come_from_their_own_source
                          Sample.network Sample.navigator false 2 "pt" Sample.fresh
                          (TM.loadTranslations Sample.network 2 "pt" Sample.fresh).1
                          (TM.loadTranslations Sample.network 2 "pt" Sample.fresh).2
                          _ _)))) _).
  - lia.
  - vm_compute. reflexivity.
  - vm_compute. reflexivity.
Defined.

(** * More of the code *)

(** ** Language detection *)

Lemma lower_ascii_idem (c : ascii) : lower_ascii (lower_ascii c) = lower_ascii c.
Proof. by destruct c as [[] [] [] [] [] [] [] []]. Qed.

Lemma lower_ascii_hyphen (c : ascii) :
  Ascii.eqb (lower_ascii c) "-" = Ascii.eqb c "-".
Proof. by destruct c as [[] [] [] [] [] [] [] []]. Qed.

Lemma toLowerCase_idem (s : string) : toLowerCase (toLowerCase s) = toLowerCase s.
Proof. induction s as [|c s IH]; cbn; [done|]. by rewrite lower_ascii_idem, IH. Qed.

Lemma split_head_toLowerCase (s : string) :
  split_head "-" (toLowerCase s) = toLowerCase (split_head "-" s).
Proof.
  induction s as [|c s IH]; cbn; [done|].
  rewrite lower_ascii_hyphen. destruct (Ascii.eqb c "-"); cbn; [done|].
  by rewrite IH.
Qed.

Lemma split_head_idem (s : string) :
  split_head "-" (split_head "-" s) = split_head "-" s.
Proof.
  induction s as [|c s IH]; cbn; [done|].
  destruct (Ascii.eqb c "-") eqn:Hc; cbn; [done|]. by rewrite Hc, IH.
Qed.

Lemma primary_subtag_idem (x : string) :
  primary_subtag (primary_subtag x) = primary_subtag x.
Proof.
  unfold primary_subtag.
  by rewrite split_head_toLowerCase, split_head_idem, toLowerCase_idem.
Qed.

Lemma detect_loop_result (this : TranslationManager) (l : list string) :
  (TM.detect_loop this l = fallbackLang this)
  ∨ (TM.detect_loop this l ∈ supportedLanguages this
     ∧ ∃ b, b ∈ l ∧ TM.detect_loop this l = primary_subtag b).
Proof.
  induction l as [|x l IH]; cbn; [by left|].
  destruct (array_includes _ _) eqn:Hx.
  - right. apply array_includes_true in Hx. split; [done|].
    exists x. split; [by left | done].
  - destruct IH as [?|(? & b & ? & ?)]; [by left|].
    right. split; [done|]. exists b. split; [by right | done].
Qed.

Lemma detect_loop_subtags (this : TranslationManager) (l : list string) :
  TM.detect_loop this (primary_subtag <$> l) = TM.detect_loop this l.
Proof.
  induction l as [|x l IH]; cbn; [done|].
  fold (primary_subtag (primary_subtag x)) (primary_subtag x).
  by rewrite primary_subtag_idem, IH.
Qed.

Lemma browserLanguages_truthy (navigator : Navigator) (b : string) :
  b ∈ TM.browserLanguages navigator → b ≠ "".
Proof.
  unfold TM.browserLanguages, filter_Boolean.
  intros [Ht _]%list_elem_of_filter. by apply truthy_true.
Qed.

(** X1: whatever is saved and whatever the browser reports, the language
    [detectBrowserLanguage], [getLanguageInfo] and [init] come up with is a
    supported language or the fallback language; with the fallback language
    among the supported ones, [init] always makes a supported language
    current. *)
Theorem X1_resolved_language_is_supported_or_fallback
    (network : nat -> string -> FetchResult) (navigator : Navigator)
    (fuel : nat) (p : Page) :
  (2 ≤ fuel)%nat →
  let this := translationManager p in
  let resolved (r : string) :=
    r ∈ supportedLanguages this ∨ r = fallbackLang this in
  resolved (TM.detectBrowserLanguage navigator this)
  ∧ resolved (info_detected (getLanguageInfo navigator this))
  ∧ (∀ savedLang, resolved (TM.initialLanguage navigator this savedLang))
  ∧ resolved (currentLang (translationManager (TM.init network navigator fuel p).2))
  ∧ (fallbackLang this ∈ supportedLanguages this →
     currentLang (translationManager (TM.init network navigator fuel p).2)
       ∈ supportedLanguages this).
Proof.
  intros Hfuel this resolved.
  assert (resolved (TM.detectBrowserLanguage navigator this)) as Hdetect.
  { unfold resolved, TM.detectBrowserLanguage.
    destruct (detect_loop_result this (TM.browserLanguages navigator))
      as [-> | [? _]]; [by right | by left]. }
  assert (∀ savedLang, resolved (TM.initialLanguage navigator this savedLang))
    as Hinitial.
  { intros [s|]; [|done]. unfold TM.initialLanguage.
    destruct (truthy s); [|done].
    destruct (array_includes _ s) eqn:Hs; [|done].
    left. by apply array_includes_true. }
  destruct (init_currentLang network navigator fuel p Hfuel) as (p' & Hinit & Hcur).
  rewrite Hinit. cbn [snd]. rewrite Hcur.
  split; [done|]. split; [done|]. split; [done|]. split; [done|].
  intros Hfb.
  destruct (Hinitial (localStorage p !! "preferredLanguage")) as [?|Heq]; [done|].
  unfold this in *. by rewrite Heq.
Qed.

(** X2: [detectBrowserLanguage] looks at a browser language only through
    its lowercased primary subtag: two browsers whose language lists have the
    same primary subtags get the same answer.  The answer is the fallback
    language, or the primary subtag of one of the (non-empty) reported
    languages, and then it is supported. *)
Theorem X2_detection_ignores_region_and_case
    (navigator : Navigator) (this : TranslationManager) :
  (∀ navigator2 : Navigator,
     primary_subtag <$> TM.browserLanguages navigator =
       primary_subtag <$> TM.browserLanguages navigator2 →
     TM.detectBrowserLanguage navigator this =
       TM.detectBrowserLanguage navigator2 this)
  ∧ (TM.detectBrowserLanguage navigator this = fallbackLang this
     ∨ ∃ b, b ∈ TM.browserLanguages navigator
            ∧ b ≠ ""
            ∧ TM.detectBrowserLanguage navigator this = primary_subtag b
            ∧ primary_subtag b ∈ supportedLanguages this).
Proof.
  split.
  - intros navigator2 Hsame. unfold TM.detectBrowserLanguage.
    by rewrite <- (detect_loop_subtags this (TM.browserLanguages navigator)),
      Hsame, detect_loop_subtags.
  - unfold TM.detectBrowserLanguage.
    destruct (detect_loop_result this (TM.browserLanguages navigator))
      as [? | (Hin & b & Hb & Heq)]; [by left|].
    right. exists b. split; [done|]. split; [by eapply browserLanguages_truthy|].
    split; [done|]. by rewrite <- Heq.
Qed.

(** ** Adding a language *)

(** X3: [addSupportedLanguage] makes the code supported, changes nothing
    else of the manager, keeps the languages that were there in their order,
    never lists a code twice, and adds nothing the second time.  A browser
    whose first language has the added code as its primary subtag is then
    detected as that language. *)
Theorem X3_addSupportedLanguage
    (languageCode : string) (this : TranslationManager) :
  let this' := TM.addSupportedLanguage languageCode this in
  languageCode ∈ supportedLanguages this'
  ∧ (∃ added, supportedLanguages this' = (supportedLanguages this ++ added)%list
              ∧ (added = [] ∨ added = [languageCode]))
  ∧ (NoDup (supportedLanguages this) → NoDup (supportedLanguages this'))
  ∧ currentLang this' = currentLang this
  ∧ fallbackLang this' = fallbackLang this
  ∧ translations this' = translations this
  ∧ TM.addSupportedLanguage languageCode this' = this'
  ∧ (∀ (navigator : Navigator) (b : string) (rest : list string),
       TM.browserLanguages navigator = b :: rest →
       primary_subtag b = languageCode →
       TM.detectBrowserLanguage navigator this' = languageCode).
Proof.
  intros this'. unfold this', TM.addSupportedLanguage.
  destruct (array_includes (supportedLanguages this) languageCode) eqn:Hin.
  - pose proof Hin as Hin'%array_includes_true.
    split; [done|]. split; [exists []; by rewrite app_nil_r; auto|].
    split; [done|]. do 3 (split; [done|]).
    split; [by rewrite Hin|].
    intros navigator b rest Hl Hb. unfold TM.detectBrowserLanguage. rewrite Hl.
    cbn [TM.detect_loop]. fold (primary_subtag b).
    by rewrite Hb, Hin.
  - pose proof Hin as Hin'%array_includes_false. cbn.
    assert (array_includes (supportedLanguages this ++ [languageCode]) languageCode
            = true) as Hnew.
    { apply array_includes_true, elem_of_app. right. by left. }
    split; [by apply array_includes_true|].
    split; [exists [languageCode]; auto|].
    split.
    { intros Hnd. apply NoDup_app. split; [done|].
      split; [|apply NoDup_singleton].
      intros x Hx ->%list_elem_of_singleton. done. }
    do 3 (split; [done|]).
    split; [by rewrite Hnew|].
    intros navigator b rest Hl Hb. unfold TM.detectBrowserLanguage. rewrite Hl.
    cbn [TM.detect_loop]. fold (primary_subtag b).
    rewrite Hb. cbn. by rewrite Hnew.
Qed.

(** ** Looking up one key *)

(** ** Translating the page *)

Lemma attributes_apply_translation (t : string) (e : Element) (k : string) :
  k ≠ "title" →
  attributes (TM.apply_translation t e) !! k = attributes e !! k.
Proof.
  intros Hk. unfold TM.apply_translation, hasAttribute.
  case_bool_decide; destruct (includes t "<a href"); cbn; try done;
    by rewrite lookup_insert_ne.
Qed.

Lemma hasAttribute_title_apply_translation (t : string) (e : Element) :
  hasAttribute "title" (TM.apply_translation t e) = hasAttribute "title" e.
Proof.
  unfold TM.apply_translation, hasAttribute.
  destruct (bool_decide (is_Some (attributes e !! "title"))) eqn:Htitle;
    destruct (includes t "<a href"); cbn; try done;
    apply bool_decide_eq_true; rewrite lookup_insert_eq; by eexists.
Qed.

Lemma translated_frame (cur : Bundle) (all : list Element) (e : Element) :
  el_id (translated cur all e) = el_id e
  ∧ classList (translated cur all e) = classList e
  ∧ style (translated cur all e) = style e
  ∧ nextElementSibling (translated cur all e) = nextElementSibling e
  ∧ hasAttribute "title" (translated cur all e) = hasAttribute "title" e
  ∧ ∀ k, k ≠ "title" →
         attributes (translated cur all e) !! k = attributes e !! k.
Proof.
  unfold translated.
  destruct (getAttribute "data-key" e) as [key|]; [|done].
  case_bool_decide; [by destruct (next_is_expanded all e)|].
  destruct (cur !! key) as [t|]; [|done].
  destruct (truthy t); [|done].
  split; [unfold TM.apply_translation; by repeat case_match|].
  split; [apply classList_apply_translation|].
  split; [unfold TM.apply_translation; by repeat case_match|].
  split; [unfold TM.apply_translation; by repeat case_match|].
  split; [apply hasAttribute_title_apply_translation|].
  intros k Hk. by apply attributes_apply_translation.
Qed.

(** X5: applying the translations a second time changes nothing. *)
Theorem X5_updatePageTranslations_idempotent
    (this : TranslationManager) (d : Document) :
  TM.updatePageTranslations this (TM.updatePageTranslations this d) =
  TM.updatePageTranslations this d.
Proof.
  rewrite (updatePageTranslations_eq this (TM.updatePageTranslations this d)).
  rewrite !updatePageTranslations_eq. unfold set_elements. cbn. f_equal.
  rewrite <- list_fmap_compose. apply list_fmap_ext. intros i e _. cbn.
  rewrite (translated_ext _
             (translated (TM.currentTranslations this) (elements d) <$> elements d)
             (elements d)).
  - apply translated_idem.
  - rewrite <- list_fmap_compose. apply list_fmap_ext. intros j x _. cbn.
    apply classList_translated.
Qed.


(** ** The language buttons *)

Lemma lang_button_id_inj (a b : string) : "lang-" +:+ a = "lang-" +:+ b → a = b.
Proof. rewrite !append_cons. intros H. by simplify_eq. Qed.

Lemma restyled_one_language (this : TranslationManager) (d : Document)
    (lang : string) (langs : list string) (n : nat) (e : Element) :
  getElementById ("lang-" +:+ lang) d = Some n →
  restyled this d langs n e =
  if bool_decide (lang ∈ langs) then button_style this lang e else e.
Proof.
  intros Hlang. revert e. induction langs as [|x langs IH]; intros e.
  - by rewrite bool_decide_eq_false_2 by apply not_elem_of_nil.
  - change (restyled this d (x :: langs) n e) with
      (restyled this d langs n
         (if bool_decide (getElementById ("lang-" +:+ x) d = Some n)
          then button_style this x e else e)).
    destruct (decide (getElementById ("lang-" +:+ x) d = Some n)) as [Hx|Hx].
    + assert (x = lang) as ->.
      { apply lang_button_id_inj. exact (getElementById_inj _ _ _ _ Hx Hlang). }
      rewrite (bool_decide_eq_true_2 _ Hx), IH.
      rewrite (bool_decide_eq_true_2 (lang ∈ lang :: langs)) by by left.
      case_bool_decide; [apply button_style_absorb | done].
    + assert (x ≠ lang) as Hne by (intros ->; congruence).
      rewrite (bool_decide_eq_false_2 _ Hx), IH.
      case_bool_decide as Hin.
      * by rewrite bool_decide_eq_true_2 by by right.
      * rewrite bool_decide_eq_false_2; [done|].
        intros [?|?]%elem_of_cons; congruence.
Qed.

Lemma restyled_no_language (this : TranslationManager) (d : Document)
    (langs : list string) (n : nat) (e : Element) :
  (∀ lang, lang ∈ langs → getElementById ("lang-" +:+ lang) d ≠ Some n) →
  restyled this d langs n e = e.
Proof.
  revert e. induction langs as [|x langs IH]; intros e Hno; [done|].
  change (restyled this d (x :: langs) n e) with
    (restyled this d langs n
       (if bool_decide (getElementById ("lang-" +:+ x) d = Some n)
        then button_style this x e else e)).
  rewrite bool_decide_eq_false_2 by (apply Hno; by left).
  apply IH. intros lang Hin. apply Hno. by right.
Qed.

(** X8: [updateLanguageButtons] gives the button of the current language
    the active colours and the button of every other supported language the
    inactive ones, so exactly the current language's button is white on red;
    an element that is not the button of a supported language is left as it
    was, and nothing but the two colours of a button changes. *)
Theorem X8_only_the_current_language_button_is_active
    (this : TranslationManager) (d : Document) :
  let d' := TM.updateLanguageButtons this d in
  doc_title d' = doc_title d
  ∧ doc_lang d' = doc_lang d
  ∧ (∀ (lang : string) (n : nat) (button : Element),
       lang ∈ supportedLanguages this →
       getElementById ("lang-" +:+ lang) d = Some n →
       elements d !! n = Some button →
       elements d' !! n =
       Some (if bool_decide (currentLang this = lang)
             then set_style "color" "white"
                    (set_style "backgroundColor" "#e64845" button)
             else set_style "color" "#d1d5db"
                    (set_style "backgroundColor" "#374151" button)))
  ∧ (∀ (lang : string) (n : nat) (button' : Element),
       lang ∈ supportedLanguages this →
       getElementById ("lang-" +:+ lang) d = Some n →
       elements d' !! n = Some button' →
       style button' !! "color" = Some "white" ↔ currentLang this = lang)
  ∧ (∀ (n : nat) (e : Element),
       elements d !! n = Some e →
       (∀ lang, lang ∈ supportedLanguages this →
                getElementById ("lang-" +:+ lang) d ≠ Some n) →
       elements d' !! n = Some e).
Proof.
  intros d'. unfold d'. rewrite updateLanguageButtons_eq. cbn.
  assert (∀ (lang : string) (n : nat) (button : Element),
            lang ∈ supportedLanguages this →
            getElementById ("lang-" +:+ lang) d = Some n →
            elements d !! n = Some button →
            imap (restyled this d (supportedLanguages this)) (elements d) !! n =
            Some (button_style this lang button)) as Hbutton.
  { intros lang n button Hin Hn He.
    rewrite list_lookup_imap, He. cbn.
    by rewrite (restyled_one_language this d lang _ n button Hn),
      bool_decide_eq_true_2. }
  split; [done|]. split; [done|]. split; [|split].
  - intros lang n button Hin Hn He. by rewrite (Hbutton lang n button).
  - intros lang n button' Hin Hn He'.
    destruct (getElementById_lookup _ _ _ Hn) as [button He].
    rewrite (Hbutton lang n button Hin Hn He) in He'. injection He' as <-.
    unfold button_style. case_bool_decide as Hcur; cbn.
    + by rewrite lookup_insert_eq.
    + rewrite lookup_insert_eq. split; [discriminate | done].
  - intros n e He Hno. rewrite list_lookup_imap, He. cbn.
    by rewrite restyled_no_language.
Qed.

(** ** The click handlers *)

Lemma setupLanguageSwitchers_fold (this : TranslationManager) (langs : list string)
    (p : Page) :
  let p' :=
    foldl
      (fun p lang =>
         match getElementById ("lang-" +:+ lang) (document p) with
         | Some _ => set_listeners (fun l => (l ++ [("lang-" +:+ lang, lang)])%list) p
         | None => p
         end)
      p langs in
  listeners p' =
    (listeners p ++
     ((fun lang => ("lang-" +:+ lang, lang)) <$>
        filter (fun lang => is_Some (getElementById ("lang-" +:+ lang) (document p)))
          langs))%list
  ∧ translationManager p' = translationManager p
  ∧ contentLoader p' = contentLoader p
  ∧ document p' = document p
  ∧ localStorage p' = localStorage p
  ∧ requests p' = requests p
  ∧ notifications p' = notifications p
  ∧ window_contentLoader p' = window_contentLoader p.
Proof.
  revert p. induction langs as [|lang langs IH]; intros p; cbn [foldl].
  - cbn. by rewrite app_nil_r.
  - destruct (getElementById ("lang-" +:+ lang) (document p)) as [n|] eqn:Hn.
    + destruct (IH (set_listeners
                      (fun l => (l ++ [("lang-" +:+ lang, lang)])%list) p))
        as (Hl & ? & ? & ? & ? & ? & ? & ?).
      split; [|done].
      rewrite Hl. cbn [listeners set_listeners document].
      rewrite filter_cons_True by (rewrite Hn; by eexists).
      by rewrite <- app_assoc.
    + destruct (IH p) as (Hl & ? & ? & ? & ? & ? & ? & ?).
      split; [|done].
      rewrite Hl. rewrite filter_cons_False; [done|].
      rewrite Hn. by intros [].
Qed.

(** X9: [setupLanguageSwitchers] changes nothing of the page but the click
    handlers: it adds one handler, switching to that language, for every
    supported language whose button exists, in the order of the supported
    languages, and none for a language without a button.  Nothing keeps it
    from adding them again: run a second time it registers every handler a
    second time. *)
Theorem X9_setupLanguageSwitchers
    (this : TranslationManager) (p : Page) :
  let p' := TM.setupLanguageSwitchers this p in
  let added :=
    (fun lang => ("lang-" +:+ lang, lang)) <$>
      filter (fun lang => is_Some (getElementById ("lang-" +:+ lang) (document p)))
        (supportedLanguages this) in
  listeners p' = (listeners p ++ added)%list
  ∧ listeners (TM.setupLanguageSwitchers this p') =
    (listeners p ++ added ++ added)%list
  ∧ translationManager p' = translationManager p
  ∧ contentLoader p' = contentLoader p
  ∧ document p' = document p
  ∧ localStorage p' = localStorage p
  ∧ requests p' = requests p
  ∧ notifications p' = notifications p
  ∧ window_contentLoader p' = window_contentLoader p.
Proof.
  intros p' added.
  destruct (setupLanguageSwitchers_fold this (supportedLanguages this) p)
    as (Hl & ? & ? & Hd & ? & ? & ? & ?).
  fold (TM.setupLanguageSwitchers this p) in *. fold p' in Hl, Hd |- *.
  split; [done|]. split; [|done].
  destruct (setupLanguageSwitchers_fold this (supportedLanguages this) p')
    as (Hl' & _).
  fold (TM.setupLanguageSwitchers this p') in Hl'.
  rewrite Hl', Hl, Hd. by rewrite <- app_assoc.
Qed.

(** ** Start-up *)

Lemma updatePageTranslations_doc (this : TranslationManager) (d : Document) :
  doc_title (TM.updatePageTranslations this d) = doc_title d
  ∧ doc_lang (TM.updatePageTranslations this d) = doc_lang d.
Proof. by rewrite updatePageTranslations_eq. Qed.

Lemma updateLanguageButtons_doc (this : TranslationManager) (d : Document) :
  doc_title (TM.updateLanguageButtons this d) = doc_title d
  ∧ doc_lang (TM.updateLanguageButtons this d) = doc_lang d.
Proof. by rewrite updateLanguageButtons_eq. Qed.

Lemma setupLanguageSwitchers_frame (this : TranslationManager) (p : Page) :
  translationManager (TM.setupLanguageSwitchers this p) = translationManager p
  ∧ contentLoader (TM.setupLanguageSwitchers this p) = contentLoader p
  ∧ document (TM.setupLanguageSwitchers this p) = document p
  ∧ localStorage (TM.setupLanguageSwitchers this p) = localStorage p
  ∧ requests (TM.setupLanguageSwitchers this p) = requests p
  ∧ notifications (TM.setupLanguageSwitchers this p) = notifications p
  ∧ window_contentLoader (TM.setupLanguageSwitchers this p) = window_contentLoader p.
Proof.
  exact (proj2 (setupLanguageSwitchers_fold this (supportedLanguages this) p)).
Qed.

(** What one load does to the page, field by field. *)
Lemma loadTranslations_facts (network : nat -> string -> FetchResult)
    (fuel : nat) (language : string) (p : Page) :
  (2 ≤ fuel)%nat →
  ∃ (b : Bundle) (p' : Page),
    TM.loadTranslations network fuel language p = (Return b, p')
    ∧ requests p' =
      (requests p ++
       translations_url language ::
       match bundle_served network (length (requests p)) language with
       | Some _ => []
       | None =>
           if bool_decide (language ≠ fallbackLang (translationManager p))
           then [translations_url (fallbackLang (translationManager p))]
           else []
       end)%list
    ∧ localStorage p' = localStorage p
    ∧ notifications p' = notifications p
    ∧ contentLoader p' = contentLoader p
    ∧ document p' = document p
    ∧ listeners p' = listeners p
    ∧ window_contentLoader p' = window_contentLoader p
    ∧ supportedLanguages (translationManager p') = supportedLanguages (translationManager p)
    ∧ fallbackLang (translationManager p') = fallbackLang (translationManager p)
    ∧ currentLang (translationManager p') = currentLang (translationManager p).
Proof.
  intros Hfuel. rewrite (loadTranslations_eq network fuel language p Hfuel).
  cbn zeta.
  destruct (bundle_served network (length (requests p)) language) as [b|].
  { by do 2 eexists. }
  case_bool_decide; [|by do 2 eexists].
  destruct (bundle_served network _ (fallbackLang _)) as [b|];
    do 2 eexists; (split; [done|]); cbn; by rewrite <- app_assoc.
Qed.

(** ** Switching, and coming back *)

Lemma switch_to_facts (toolsLoader : bool) (language : string) (q : Page) :
  let p' := switch_to toolsLoader language q in
  translationManager p' = set_currentLang language (translationManager q)
  ∧ doc_lang (document p') = language
  ∧ localStorage p' = <["preferredLanguage" := language]> (localStorage q)
  ∧ requests p' = requests q
  ∧ contentLoader p' = contentLoader q.
Proof.
  unfold switch_to. cbn zeta.
  assert (∀ this d, doc_lang (TM.updateLanguageButtons this
                                (TM.updatePageTranslations this d)) = doc_lang d)
    as Hlang.
  { intros this d. by rewrite (proj2 (updateLanguageButtons_doc _ _)),
      (proj2 (updatePageTranslations_doc _ _)). }
  destruct toolsLoader;
    cbn [translationManager document localStorage requests contentLoader
         set_tm set_document set_notifications set_localStorage];
    by rewrite Hlang.
Qed.


(** ** Rules for computations *)

Section Triple.

Context {A : Type}.
Implicit Types (P E : Page → Prop) (Q : A → Page → Prop).

Lemma triple_ret P Q E (a : A) :
  (∀ p, P p → Q a p) → triple P (mret a) Q E.
Proof. intros HQ p HP. by apply HQ. Qed.

Lemma triple_throw P Q E (e : Error) :
  (∀ p, P p → E p) → triple P (throw e) Q E.
Proof. intros HE p HP. by apply HE. Qed.

Lemma triple_bind {B} P (R : B → Page → Prop) Q E (m : M B) (k : B → M A) :
  triple P m R E → (∀ b, triple (R b) (k b) Q E) → triple P (m ≫= k) Q E.
Proof.
  intros Hm Hk p HP. unfold mbind, M_bind, bind.
  specialize (Hm p HP). destruct (m p) as [[b|e|] p']; [|done..].
  by apply Hk.
Qed.

Lemma triple_try_catch P Q E E' (m : M A) (h : Error → M A) :
  triple P m Q E' → (∀ e, triple E' (h e) Q E) → triple P (try_catch m h) Q E.
Proof.
  intros Hm Hh p HP. unfold try_catch.
  specialize (Hm p HP). destruct (m p) as [[a|e|] p']; [done| |done].
  by apply Hh.
Qed.

Lemma triple_weaken P P' Q Q' E E' (m : M A) :
  triple P' m Q' E' →
  (∀ p, P p → P' p) → (∀ a p, Q' a p → Q a p) → (∀ p, E' p → E p) →
  triple P m Q E.
Proof.
  intros Hm HP HQ HE p Hp. specialize (Hm p (HP p Hp)).
  destruct (m p) as [[a|e|] p']; [by apply HQ | by apply HE | done].
Qed.

End Triple.

Lemma triple_get (P E : Page → Prop) :
  triple P get (fun a p => a = p ∧ P p) E.
Proof. by intros p HP. Qed.

Lemma triple_modify (P E : Page → Prop) (Q : unit → Page → Prop) (f : Page → Page) :
  (∀ p, P p → Q tt (f p)) → triple P (modify f) Q E.
Proof. intros HQ p HP. by apply HQ. Qed.

Lemma triple_on_element (P E : Page → Prop) (Q : unit → Page → Prop)
    (el : option nat) (f : Element → Element) :
  (∀ i p, el = Some i → P p → Q tt (set_document (update_element i f) p)) →
  (el = None → ∀ p, P p → E p) →
  triple P (on_element el f) Q E.
Proof.
  intros HQ HE. destruct el as [i|]; cbn.
  - apply triple_modify. intros p HP. by apply HQ.
  - apply triple_throw. by apply HE.
Qed.

Lemma triple_with_element_by_id (P E : Page → Prop) (Q : unit → Page → Prop)
    (i : string) (f : Element → Element) :
  (∀ n p, getElementById i (document p) = Some n → P p →
          Q tt (set_document (update_element n f) p)) →
  (∀ p, getElementById i (document p) = None → P p → E p) →
  triple P (with_element_by_id i f) Q E.
Proof.
  intros HQ HE p HP. unfold with_element_by_id. run.
  destruct (getElementById i (document p)) as [n|] eqn:Hn; cbn.
  - by apply HQ.
  - by apply HE.
Qed.

(** ** The panels *)

Lemma ids_update (i : nat) (f : Element → Element) (d : Document) :
  (∀ e, el_id (f e) = el_id e) → ids (update_element i f d) = ids d.
Proof. intros Hf. unfold ids. cbn. by apply ids_alter. Qed.

Lemma getElementById_same_ids (i : string) (d1 d2 : Document) :
  ids d1 = ids d2 → getElementById i d1 = getElementById i d2.
Proof. apply getElementById_ids. Qed.

Lemma has_hidden_update_classes (i n : nat) (f : Element → Element) (d : Document) :
  (∀ e, classList (f e) = classList e) →
  has_hidden n (update_element i f d) = has_hidden n d.
Proof.
  intros Hf. unfold has_hidden, classList_contains. cbn.
  destruct (decide (i = n)) as [->|Hne].
  - rewrite list_lookup_alter_eq. destruct (elements d !! n); cbn; [|done].
    by rewrite Hf.
  - by rewrite list_lookup_alter_ne.
Qed.

Lemma has_hidden_update_ne (i n : nat) (f : Element → Element) (d : Document) :
  i ≠ n → has_hidden n (update_element i f d) = has_hidden n d.
Proof. intros Hne. unfold has_hidden. cbn. by rewrite list_lookup_alter_ne. Qed.

Lemma has_hidden_add (n : nat) (d : Document) :
  is_Some (elements d !! n) →
  has_hidden n (update_element n (classList_add "hidden") d) = Some true.
Proof.
  intros [e He]. unfold has_hidden. cbn.
  rewrite list_lookup_alter_eq, He. cbn. by rewrite classList_contains_add.
Qed.

Lemma has_hidden_remove (n : nat) (d : Document) :
  is_Some (elements d !! n) →
  has_hidden n (update_element n (classList_remove "hidden") d) = Some false.
Proof.
  intros [e He]. unfold has_hidden. cbn.
  rewrite list_lookup_alter_eq, He. cbn. by rewrite classList_contains_remove.
Qed.

Lemma has_hidden_is_Some (n : nat) (d : Document) :
  is_Some (has_hidden n d) ↔ is_Some (elements d !! n).
Proof. unfold has_hidden. by rewrite fmap_is_Some. Qed.

Lemma hidden_has_hidden (i : string) (n : nat) (d : Document) :
  getElementById i d = Some n → hidden i d = has_hidden n d.
Proof. intros Hn. unfold hidden, has_hidden, element_by_id. by rewrite Hn. Qed.

Lemma view_has_hidden (d : Document) (nL nC nE : nat) :
  getElementById "content-loading" d = Some nL →
  getElementById "markdown-content" d = Some nC →
  getElementById "content-error" d = Some nE →
  view d =
  match has_hidden nL d, has_hidden nC d, has_hidden nE d with
  | Some false, Some true, Some true => Some Loading
  | Some true, Some false, Some true => Some ContentShown
  | Some true, Some true, Some false => Some ErrorShown
  | _, _, _ => None
  end.
Proof.
  intros HL HC HE. unfold view.
  by rewrite (hidden_has_hidden _ _ _ HL), (hidden_has_hidden _ _ _ HC),
    (hidden_has_hidden _ _ _ HE).
Qed.

(** ** Loading the content *)

Section LoadContent.

Variable network : nat -> string -> FetchResult.
Variable marked_parse : string -> option string.

Lemma loadContent_unfold :
  CL.loadContent network marked_parse =
  (p ← get;
   let loadingEl := getElementById "content-loading" (document p) in
   let contentEl := getElementById "markdown-content" (document p) in
   let errorEl := getElementById "content-error" (document p) in
   on_element loadingEl (classList_remove "hidden");;
   on_element contentEl (classList_add "hidden");;
   on_element errorEl (classList_add "hidden");;
   try_catch (loadContent_try network marked_parse loadingEl contentEl)
     (fun error => CL.showError)).
Proof. reflexivity. Qed.

(** What a fetch of the document does to the page. *)
Lemma fetchMarkdownContent_facts (contentType language : string) (p : Page) :
  ∃ (r : option string) (p' : Page) (rest : list string),
    CL.fetchMarkdownContent network contentType language p = (Return r, p')
    ∧ requests p' =
      (requests p ++
       ("content/" +:+ language +:+ "/" +:+ contentType +:+ ".md") :: rest)%list
    ∧ (rest = [] ∨ rest = ["content/en/" +:+ contentType +:+ ".md"])
    ∧ (r = None →
       document_served network (length (requests p))
         ("content/" +:+ language +:+ "/" +:+ contentType +:+ ".md") = None)
    ∧ (∀ t, document_served network (length (requests p))
              ("content/" +:+ language +:+ "/" +:+ contentType +:+ ".md") = Some t →
            r = Some t ∧ rest = [])
    ∧ document p' = document p
    ∧ translationManager p' = translationManager p
    ∧ contentLoader p' = contentLoader p
    ∧ localStorage p' = localStorage p
    ∧ notifications p' = notifications p
    ∧ listeners p' = listeners p
    ∧ window_contentLoader p' = window_contentLoader p.
Proof.
  unfold CL.fetchMarkdownContent.
  unfold mbind at 1, M_bind at 1, bind at 1. rewrite attempt_eq.
  destruct (document_served network (length (requests p)) _) as [t|] eqn:Hs.
  { eexists (Some t), _, []. split; [done|]. split; [done|]. split; [by left|].
    split; [done|]. split; [|done]. by intros ? [= <-]. }
  case_bool_decide.
  - unfold mbind, M_bind, bind. rewrite attempt_eq.
    destruct (document_served network _ ("content/en/" +:+ _ +:+ _)) as [t|];
      eexists _, _, [_]; (split; [done|]); cbn; rewrite <- app_assoc;
      (split; [done|]); (split; [by right|]); done.
  - eexists None, _, []. split; [done|]. split; [done|]. split; [by left|]. done.
Qed.

Lemma fetchMarkdownContent_triple (PD : Document → Prop) (E : Page → Prop)
    (contentType language : string) :
  triple (fun q => PD (document q))
    (CL.fetchMarkdownContent network contentType language)
    (fun _ q => PD (document q)) E.
Proof.
  intros p HP.
  destruct (fetchMarkdownContent_facts contentType language p)
    as (r & p' & rest & -> & _ & _ & _ & _ & -> & _). done.
Qed.

End LoadContent.

Lemma updatePageMeta_triple (PD : Document → Prop) (contentType language : string) :
  (∀ s d, PD d → PD (set_doc_title s d)) →
  (∀ n f d, (∀ e, el_id (f e) = el_id e) → (∀ e, classList (f e) = classList e) →
            PD d → PD (update_element n f d)) →
  triple (fun q => PD (document q)) (CL.updatePageMeta contentType language)
    (fun _ q => PD (document q)) (fun q => PD (document q)).
Proof.
  intros Htitle Hwrite. unfold CL.updatePageMeta. cbn zeta.
  apply (triple_bind _ (fun _ q => PD (document q))).
  { apply triple_modify. intros p HP. by apply Htitle. }
  intros _.
  do 5 (apply (triple_bind _ (fun _ q => PD (document q)));
        [apply triple_with_element_by_id;
           [intros n p _ HP; by apply Hwrite | by intros p _ HP]
        |intros _]).
  apply triple_with_element_by_id; [intros n p _ HP; by apply Hwrite | by intros p _ HP].
Qed.

Section Panels.

Variable network : nat -> string -> FetchResult.
Variable marked_parse : string -> option string.

(** A document in which the three panels are at [nL], [nC] and [nE]. *)
Variable d0 : Document.
Variables nL nC nE : nat.
Hypothesis HL : getElementById "content-loading" d0 = Some nL.
Hypothesis HC : getElementById "markdown-content" d0 = Some nC.
Hypothesis HE : getElementById "content-error" d0 = Some nE.

Lemma panels_distinct : nL ≠ nC ∧ nL ≠ nE ∧ nC ≠ nE.
Proof.
  repeat split; intros ->.
  - by pose proof (getElementById_inj _ _ _ _ HL HC).
  - by pose proof (getElementById_inj _ _ _ _ HL HE).
  - by pose proof (getElementById_inj _ _ _ _ HC HE).
Qed.

Lemma panel_lookup (i : string) (n : nat) (d : Document) :
  getElementById i d0 = Some n → ids d = ids d0 → is_Some (elements d !! n).
Proof.
  intros Hn Hids. apply (getElementById_lookup i).
  by rewrite (getElementById_same_ids i d d0).
Qed.

Lemma loadContent_try_triple :
  triple
    (fun q => ids (document q) = ids d0 ∧ has_hidden nE (document q) = Some true)
    (loadContent_try network marked_parse (Some nL) (Some nC))
    (fun _ q =>
       ids (document q) = ids d0
       ∧ has_hidden nL (document q) = Some true
       ∧ has_hidden nC (document q) = Some false
       ∧ has_hidden nE (document q) = Some true)
    (fun q => ids (document q) = ids d0).
Proof.
  destruct panels_distinct as (HLC & HLE & HCE).
  set (PD := fun d => ids d = ids d0 ∧ has_hidden nE d = Some true).
  assert (∀ n f d, (∀ e, el_id (f e) = el_id e) →
                   (∀ e, classList (f e) = classList e) →
                   PD d → PD (update_element n f d)) as Hwrite.
  { intros n f d Hid Hcl [Hids Hh]. split.
    - by rewrite ids_update.
    - by rewrite has_hidden_update_classes. }
  unfold loadContent_try.
  apply (triple_bind _ (fun _ q => PD (document q))).
  { by intros q Hq. }
  intros p0. cbn zeta.
  apply (triple_bind _ (fun _ q => PD (document q))).
  { apply (fetchMarkdownContent_triple network PD). }
  unfold loadContent_render.
  intros [content|]; [|apply triple_throw; by intros p [? _]].
  destruct (truthy content); [|apply triple_throw; by intros p [? _]].
  destruct (marked_parse content) as [htmlContent|];
    [|apply triple_throw; by intros p [? _]].
  apply (triple_bind _ (fun _ q => PD (document q))).
  { apply triple_on_element; [|done]. intros i p _ HP. by apply Hwrite. }
  intros _.
  apply (triple_bind _ (fun _ q => PD (document q))).
  { eapply triple_weaken; [apply (updatePageMeta_triple PD)| | |].
    - by intros s d.
    - exact Hwrite.
    - done.
    - done.
    - by intros p [? _]. }
  intros _.
  apply (triple_bind _ (fun _ q => PD (document q)
                                   ∧ has_hidden nL (document q) = Some true)).
  { apply triple_on_element; [|done]. intros i p [= <-] [Hids Hh]. cbn [document set_document].
    split; [split|].
    - by rewrite ids_update.
    - by rewrite has_hidden_update_ne.
    - apply has_hidden_add. by eapply panel_lookup. }
  intros _.
  apply (triple_bind _ (fun _ q =>
                          ids (document q) = ids d0
                          ∧ has_hidden nL (document q) = Some true
                          ∧ has_hidden nC (document q) = Some false
                          ∧ has_hidden nE (document q) = Some true)).
  { apply triple_on_element; [|done]. intros i p [= <-] [[Hids Hh] HhL]. cbn [document set_document].
    split; [by rewrite ids_update|].
    split; [by rewrite has_hidden_update_ne|].
    split; [apply has_hidden_remove; by eapply panel_lookup|].
    by rewrite has_hidden_update_ne. }
  intros _. by apply triple_modify.
Qed.

Lemma showError_triple :
  triple (fun q => ids (document q) = ids d0) CL.showError
    (fun _ q =>
       ids (document q) = ids d0
       ∧ has_hidden nL (document q) = Some true
       ∧ has_hidden nC (document q) = Some true
       ∧ has_hidden nE (document q) = Some false)
    (fun _ => False).
Proof.
  destruct panels_distinct as (HLC & HLE & HCE).
  intros p Hids. unfold CL.showError. run.
  rewrite !(getElementById_same_ids _ (document p) d0 Hids), HL, HC, HE.
  cbn [document set_document].
  split; [by rewrite !ids_update|].
  split; [|split].
  - rewrite !has_hidden_update_ne by done.
    apply has_hidden_add. by eapply panel_lookup.
  - rewrite has_hidden_update_ne by done.
    apply has_hidden_add. eapply panel_lookup; [exact HC|]. by rewrite ids_update.
  - apply has_hidden_remove. eapply panel_lookup; [exact HE|].
    by rewrite !ids_update.
Qed.

(** With the panels there, [loadContent] returns, and the page shows the
    content or the error. *)
Lemma loadContent_ends (p : Page) :
  ids (document p) = ids d0 →
  ∃ p' : Page,
    CL.loadContent network marked_parse p = (Return tt, p')
    ∧ ids (document p') = ids d0
    ∧ (view (document p') = Some ContentShown
       ∨ view (document p') = Some ErrorShown).
Proof.
  intros Hids. destruct panels_distinct as (HLC & HLE & HCE).
  assert (triple (fun q => ids (document q) = ids d0)
            (on_element (Some nL) (classList_remove "hidden");;
             on_element (Some nC) (classList_add "hidden");;
             on_element (Some nE) (classList_add "hidden");;
             try_catch (loadContent_try network marked_parse (Some nL) (Some nC))
               (fun _ => CL.showError))
            (fun _ q =>
               ids (document q) = ids d0
               ∧ (view (document q) = Some ContentShown
                  ∨ view (document q) = Some ErrorShown))
            (fun _ => False)) as Hbody.
  { apply (triple_bind _ (fun _ q => ids (document q) = ids d0)).
    { apply triple_on_element; [|done]. intros i q _ Hq.
      cbn [document set_document]. by rewrite ids_update. }
    intros _.
    apply (triple_bind _ (fun _ q => ids (document q) = ids d0)).
    { apply triple_on_element; [|done]. intros i q _ Hq.
      cbn [document set_document]. by rewrite ids_update. }
    intros _.
    apply (triple_bind _ (fun _ q => ids (document q) = ids d0
                                     ∧ has_hidden nE (document q) = Some true)).
    { apply triple_on_element; [|done]. intros i q [= <-] Hq.
      cbn [document set_document].
      split; [by rewrite ids_update|].
      apply has_hidden_add. by eapply panel_lookup. }
    intros _.
    apply (triple_try_catch _ _ _ (fun q => ids (document q) = ids d0)).
    - eapply triple_weaken; [apply loadContent_try_triple|done| |done].
      intros _ q (Hq & HhL & HhC & HhE). split; [done|]. left.
      rewrite (view_has_hidden _ nL nC nE);
        rewrite ?(getElementById_same_ids _ (document q) d0 Hq); try done.
      by rewrite HhL, HhC, HhE.
    - intros _. eapply triple_weaken; [apply showError_triple|done| |done].
      intros _ q (Hq & HhL & HhC & HhE). split; [done|]. right.
      rewrite (view_has_hidden _ nL nC nE);
        rewrite ?(getElementById_same_ids _ (document q) d0 Hq); try done.
      by rewrite HhL, HhC, HhE. }
  specialize (Hbody p Hids).
  rewrite loadContent_unfold. unfold mbind at 1, M_bind at 1, bind at 1, get at 1.
  cbn zeta.
  rewrite !(getElementById_same_ids _ (document p) d0 Hids), HL, HC, HE.
  match goal with |- ∃ p', ?m p = _ ∧ _ => destruct (m p) as [[[]|e|] p'] end;
    [|done..].
  exists p'. by destruct Hbody.
Qed.

End Panels.

Lemma get_bind {A} (k : Page → M A) (p : Page) : (get ≫= k) p = k p p.
Proof. reflexivity. Qed.

Section LoadContentFrame.

Variable network : nat -> string -> FetchResult.
Variable marked_parse : string -> option string.

Context {X : Type} (obs : Page → X).
Hypothesis obs_document : ∀ g p, obs (set_document g p) = obs p.
Hypothesis obs_notifications : ∀ g p, obs (set_notifications g p) = obs p.

Lemma loadContent_render_preserves (loadingEl contentEl : option nat)
    (contentType currentLang : string) (content : option string) :
  preserves obs
    (loadContent_render marked_parse loadingEl contentEl contentType currentLang
       content).
Proof.
  unfold loadContent_render.
  destruct content as [content|]; [|apply preserves_throw].
  destruct (truthy content); [|apply preserves_throw].
  destruct (marked_parse content); [|apply preserves_throw].
  apply preserves_bind; [by apply preserves_on_element|intros _].
  apply preserves_bind; [by apply updatePageMeta_preserves|intros _].
  do 2 (apply preserves_bind; [by apply preserves_on_element|intros _]).
  by apply preserves_modify.
Qed.

Hypothesis obs_requests : ∀ g p, obs (set_requests g p) = obs p.

Lemma loadContent_preserves :
  preserves obs (CL.loadContent network marked_parse).
Proof.
  rewrite loadContent_unfold.
  apply preserves_bind; [apply preserves_get|]. intros p.
  do 3 (apply preserves_bind; [by apply preserves_on_element|intros _]).
  apply preserves_try_catch; [|intros _; by apply showError_preserves].
  apply preserves_bind; [apply preserves_get|]. intros p'.
  apply preserves_bind; [by apply fetchMarkdownContent_preserves|].
  intros content. apply loadContent_render_preserves.
Qed.

End LoadContentFrame.

Section LoadContentRequests.

Variable network : nat -> string -> FetchResult.
Variable marked_parse : string -> option string.

(** The requests of [loadContent] are those of its fetch. *)
Lemma loadContent_requests (p : Page) :
  panels_exist (document p) →
  let currentLang := currentLang (translationManager p) in
  let contentType := default "null" (contentType (contentLoader p)) in
  ∃ rest : list string,
    requests (CL.loadContent network marked_parse p).2 =
      (requests p ++
       ("content/" +:+ currentLang +:+ "/" +:+ contentType +:+ ".md") :: rest)%list
    ∧ (rest = [] ∨ rest = ["content/en/" +:+ contentType +:+ ".md"]).
Proof.
  intros ([nL HL] & [nC HC] & [nE HE]) currentLang contentType.
  rewrite loadContent_unfold, get_bind. cbn zeta. rewrite HL, HC, HE.
  unfold mbind, M_bind, bind, on_element, modify. cbn [fst snd].
  unfold try_catch, loadContent_try. rewrite get_bind. cbn zeta.
  cbn [translationManager contentLoader set_document].
  fold currentLang contentType.
  unfold mbind, M_bind, bind.
  match goal with |- context [CL.fetchMarkdownContent network contentType currentLang ?q] =>
    destruct (fetchMarkdownContent_facts network contentType currentLang q)
      as (r & p1 & rest & -> & Hreq & Hrest & _);
    cbn [requests set_document] in Hreq
  end.
  exists rest. split; [|done].
  pose proof (loadContent_render_preserves marked_parse requests
                ltac:(done) ltac:(done) (Some nL) (Some nC)
                contentType currentLang r p1) as Hrender.
  destruct (loadContent_render _ _ _ _ _ _ p1) as [[[]|e|] p2]; cbn [snd] in *.
  - by rewrite Hrender.
  - rewrite (showError_preserves requests ltac:(done) p2). by rewrite Hrender.
  - by rewrite Hrender.
Qed.

End LoadContentRequests.

(** ** Stepping through a computation *)

Lemma bind_return {A B} (m : M A) (k : A → M B) (p p' : Page) (a : A) :
  m p = (Return a, p') → (m ≫= k) p = k a p'.
Proof. intros Hm. unfold mbind, M_bind, bind. by rewrite Hm. Qed.

Lemma bind_throw {A B} (m : M A) (k : A → M B) (p p' : Page) (e : Error) :
  m p = (Throw e, p') → (m ≫= k) p = (Throw e, p').
Proof. intros Hm. unfold mbind, M_bind, bind. by rewrite Hm. Qed.

Lemma on_element_bind {A} (n : nat) (f : Element → Element) (k : unit → M A)
    (p : Page) :
  (on_element (Some n) f ≫= k) p = k tt (set_document (update_element n f) p).
Proof. reflexivity. Qed.

Lemma try_catch_return {A} (m : M A) (h : Error → M A) (p p' : Page) (a : A) :
  m p = (Return a, p') → try_catch m h p = (Return a, p').
Proof. intros Hm. unfold try_catch. by rewrite Hm. Qed.


Lemma fetchMarkdownContent_first (network : nat -> string -> FetchResult)
    (contentType language t : string) (p : Page) :
  document_served network (length (requests p))
    ("content/" +:+ language +:+ "/" +:+ contentType +:+ ".md") = Some t →
  CL.fetchMarkdownContent network contentType language p =
  (Return (Some t),
   requested ("content/" +:+ language +:+ "/" +:+ contentType +:+ ".md") p).
Proof.
  intros Hs. unfold CL.fetchMarkdownContent.
  unfold mbind at 1, M_bind at 1, bind at 1. by rewrite attempt_eq, Hs.
Qed.

Ltac by_id_base :=
  cbn [document set_document requested set_requests set_notifications];
  repeat first [ rewrite getElementById_update by done
               | rewrite getElementById_set_doc_title ];
  eassumption.

Ltac by_id_look :=
  repeat first
    [ erewrite element_by_id_update_id; [|done|by_id_base];
      first [ rewrite bool_decide_eq_true_2 by done
            | rewrite bool_decide_eq_false_2 by done ]
    | rewrite element_by_id_set_doc_title ].

Lemma updatePageMeta_ok (contentType language : string) (q : Page)
    (m1 m2 m3 m4 m5 m6 : nat) :
  getElementById "page-title" (document q) = Some m1 →
  getElementById "page-description" (document q) = Some m2 →
  getElementById "og-description" (document q) = Some m3 →
  getElementById "twitter-description" (document q) = Some m4 →
  getElementById "og-title" (document q) = Some m5 →
  getElementById "twitter-title" (document q) = Some m6 →
  let title := CL.chosen_title contentType language in
  let description := CL.chosen_description contentType language in
  CL.updatePageMeta contentType language q =
  (Return tt,
   set_document
     (fun d =>
        update_element m6 (setAttribute "content" title)
          (update_element m5 (setAttribute "content" title)
             (update_element m4 (setAttribute "content" description)
                (update_element m3 (setAttribute "content" description)
                   (update_element m2 (setAttribute "content" description)
                      (update_element m1 (set_content (Text title))
                         (set_doc_title title d))))))) q).
Proof.
  intros H1 H2 H3 H4 H5 H6 title description.
  unfold CL.updatePageMeta. fold title description. cbn zeta.
  unfold mbind at 1, M_bind at 1, bind at 1, modify at 1.
  do 5 (erewrite with_element_by_id_bind; [|by_id_base]).
  erewrite with_element_by_id_ok; [done|by_id_base].
Qed.

(** X14: when the panels and the six metadata elements exist, the document
    is served in the current language with a non-empty text and the
    renderer accepts it, [loadContent] makes that one request, puts the
    rendered markup into #markdown-content, sets the title, shows the content
    panel and scrolls to the top. *)
Theorem X14_loadContent_shows_the_rendered_document
    (network : nat -> string -> FetchResult)
    (marked_parse : string -> option string) (p : Page)
    (ctype t htmlContent : string) :
  let currentLang := currentLang (translationManager p) in
  let url := "content/" +:+ currentLang +:+ "/" +:+ ctype +:+ ".md" in
  panels_exist (document p) →
  (∀ i, i ∈ ["page-title"; "page-description"; "og-description";
             "twitter-description"; "og-title"; "twitter-title"] →
        is_Some (getElementById i (document p))) →
  contentType (contentLoader p) = Some ctype →
  document_served network (length (requests p)) url = Some t →
  t ≠ "" →
  marked_parse t = Some htmlContent →
  ∃ p' : Page,
    CL.loadContent network marked_parse p = (Return tt, p')
    ∧ view (document p') = Some ContentShown
    ∧ content <$> element_by_id "markdown-content" (document p') =
      Some (Markup htmlContent)
    ∧ doc_title (document p') = CL.chosen_title ctype currentLang
    ∧ content <$> element_by_id "page-title" (document p') =
      Some (Text (CL.chosen_title ctype currentLang))
    ∧ requests p' = (requests p ++ [url])%list
    ∧ notifications p' = (notifications p ++ [ScrollTo 0 0])%list.
Proof.
  intros currentLang url ([nL HL] & [nC HC] & [nE HE]) Hmeta Hct Hserved Ht Hparse.
  destruct (Hmeta "page-title") as [m1 H1]; [set_solver|].
  destruct (Hmeta "page-description") as [m2 H2]; [set_solver|].
  destruct (Hmeta "og-description") as [m3 H3]; [set_solver|].
  destruct (Hmeta "twitter-description") as [m4 H4]; [set_solver|].
  destruct (Hmeta "og-title") as [m5 H5]; [set_solver|].
  destruct (Hmeta "twitter-title") as [m6 H6]; [set_solver|].
  assert (∀ i n, getElementById i (document p) = Some n →
                 ∃ e, element_by_id i (document p) = Some e) as Hel.
  { intros i n Hn. apply element_by_id_is_Some. by exists n. }
  destruct (Hel _ _ HL) as [eL HeL], (Hel _ _ HC) as [eC HeC],
    (Hel _ _ HE) as [eE HeE], (Hel _ _ H1) as [e1 He1].
  apply truthy_true in Ht.
  eexists. split.
  { rewrite loadContent_unfold, get_bind. cbn zeta. rewrite HL, HC, HE.
    rewrite !on_element_bind.
    apply try_catch_return.
    unfold loadContent_try. rewrite get_bind. cbn zeta.
    cbn [translationManager contentLoader set_document].
    rewrite Hct. cbn [default from_option id]. fold currentLang.
    erewrite bind_return; [|by apply fetchMarkdownContent_first].
    unfold loadContent_render. rewrite Ht, Hparse.
    rewrite on_element_bind.
    erewrite bind_return; [|apply updatePageMeta_ok; by_id_base].
    rewrite !on_element_bind. reflexivity. }
  cbn [document set_document requested set_requests set_notifications
       requests notifications].
  split.
  { unfold view, hidden.
    by_id_look.
    rewrite HeL, HeC, HeE.
    cbn [fmap option_fmap option_map].
    by rewrite !classList_contains_add, classList_contains_remove. }
  split; [by_id_look; by rewrite HeC|].
  split; [done|].
  split; [by_id_look; by rewrite He1|].
  done.
Qed.

(** ** Without the panels *)

Lemma on_element_none_bind {A} (f : Element → Element) (k : unit → M A) (p : Page) :
  (on_element None f ≫= k) p = (Throw TypeError, p).
Proof. reflexivity. Qed.

Lemma set_document_id (p : Page) : set_document (fun d => d) p = p.
Proof. by destruct p. Qed.

Lemma loadContent_missing_panel (network : nat -> string -> FetchResult)
    (marked_parse : string -> option string) (p : Page) :
  ¬ panels_exist (document p) →
  ∃ g, CL.loadContent network marked_parse p = (Throw TypeError, set_document g p).
Proof.
  intros Hmissing. rewrite loadContent_unfold, get_bind. cbn zeta.
  destruct (getElementById "content-loading" (document p)) as [nL|] eqn:HL;
    [|exists (fun d => d); by rewrite on_element_none_bind, set_document_id].
  rewrite on_element_bind.
  destruct (getElementById "markdown-content" (document p)) as [nC|] eqn:HC;
    [|eexists; by rewrite on_element_none_bind].
  rewrite on_element_bind.
  destruct (getElementById "content-error" (document p)) as [nE|] eqn:HE;
    [|exists (fun d => update_element nC (classList_add "hidden")
                         (update_element nL (classList_remove "hidden") d));
      by rewrite on_element_none_bind].
  destruct Hmissing. unfold panels_exist. rewrite HL, HC, HE. by repeat split.
Qed.

Lemma showError_missing_panel (p : Page) :
  ¬ panels_exist (document p) →
  ∃ g, CL.showError p = (Throw TypeError, set_document g p).
Proof.
  intros Hmissing. unfold CL.showError. rewrite get_bind. cbn zeta.
  destruct (getElementById "content-loading" (document p)) as [nL|] eqn:HL;
    [|exists (fun d => d); by rewrite on_element_none_bind, set_document_id].
  rewrite on_element_bind.
  destruct (getElementById "markdown-content" (document p)) as [nC|] eqn:HC;
    [|eexists; by rewrite on_element_none_bind].
  rewrite on_element_bind.
  destruct (getElementById "content-error" (document p)) as [nE|] eqn:HE;
    [|by exists (fun d => update_element nC (classList_add "hidden")
                            (update_element nL (classList_add "hidden") d))].
  destruct Hmissing. unfold panels_exist. rewrite HL, HC, HE. by repeat split.
Qed.

(** X15: when one of the three panels is missing from the document,
    [loadContent] and [showError] throw a TypeError, and so does [init],
    whatever the query and the path are; no request is made and
    [window.contentLoader] is not set. *)
Theorem X15_missing_panel_throws
    (network : nat -> string -> FetchResult)
    (marked_parse : string -> option string)
    (urlParams_content : option string) (pathname : string) (p : Page) :
  ¬ panels_exist (document p) →
  (∃ p' : Page,
     CL.loadContent network marked_parse p = (Throw TypeError, p')
     ∧ requests p' = requests p)
  ∧ (∃ p' : Page, CL.showError p = (Throw TypeError, p'))
  ∧ (∃ p' : Page,
       CL.init network marked_parse urlParams_content pathname p =
       (Throw TypeError, p')
       ∧ requests p' = requests p
       ∧ window_contentLoader p' = window_contentLoader p).
Proof.
  intros Hmissing. split; [|split].
  - destruct (loadContent_missing_panel network marked_parse p Hmissing) as [g ->].
    by eexists.
  - destruct (showError_missing_panel p Hmissing) as [g ->]. by eexists.
  - unfold CL.init. cbn zeta.
    set (ct := or_else urlParams_content (CL.getContentTypeFromPath pathname)).
    set (p1 := set_contentLoader (CL.set_contentType ct) p).
    assert (¬ panels_exist (document p1)) as Hmissing1 by done.
    change ((modify (set_contentLoader (CL.set_contentType ct)) ≫= ?k) p)
      with (k tt p1).
    cbn beta.
    destruct (from_option truthy false ct).
    + destruct (loadContent_missing_panel network marked_parse p1 Hmissing1)
        as [g Hrun].
      eexists. split; [by apply bind_throw|]. done.
    + destruct (showError_missing_panel p1 Hmissing1) as [g Hrun].
      eexists. split; [by apply bind_throw|]. done.
Qed.

(** ** Showing the error *)

Lemma showError_eq (p : Page) (nL nC nE : nat) :
  getElementById "content-loading" (document p) = Some nL →
  getElementById "markdown-content" (document p) = Some nC →
  getElementById "content-error" (document p) = Some nE →
  CL.showError p =
  (Return tt,
   set_document
     (fun d =>
        update_element nE (classList_remove "hidden")
          (update_element nC (classList_add "hidden")
             (update_element nL (classList_add "hidden") d))) p).
Proof. intros HL HC HE. unfold CL.showError. run. by rewrite HL, HC, HE. Qed.

Lemma classList_add_idem (c : string) (e : Element) :
  classList_add c (classList_add c e) = classList_add c e.
Proof.
  pose proof (classList_contains_add c e) as Hin.
  unfold classList_contains in Hin. apply bool_decide_eq_true in Hin.
  unfold classList_add at 1. unfold set_classList.
  by rewrite (bool_decide_eq_true_2 _ Hin).
Qed.

Lemma classList_remove_idem (c : string) (e : Element) :
  classList_remove c (classList_remove c e) = classList_remove c e.
Proof.
  unfold classList_remove, set_classList. cbn. f_equal.
  induction (classList e) as [|x l IH]; [done|].
  rewrite filter_cons. case_decide; [|done].
  rewrite filter_cons_True by done. by rewrite IH.
Qed.

Lemma without_classes_update (n : nat) (f : Element → Element) (d : Document) :
  (∀ e, without_classes (f e) = without_classes e) →
  without_classes <$> elements (update_element n f d) =
  without_classes <$> elements d.
Proof.
  intros Hf. apply list_eq. intros i. cbn. rewrite !list_lookup_fmap.
  destruct (decide (n = i)) as [->|Hne].
  - rewrite list_lookup_alter_eq. destruct (elements d !! i); cbn; [|done].
    by rewrite Hf.
  - by rewrite list_lookup_alter_ne.
Qed.

Lemma without_classes_add c e : without_classes (classList_add c e) = without_classes e.
Proof. done. Qed.

Lemma without_classes_remove c e :
  without_classes (classList_remove c e) = without_classes e.
Proof. done. Qed.

Lemma error_classes_idem (d : Document) (nL nC nE : nat) :
  nL ≠ nC → nL ≠ nE → nC ≠ nE →
  let G d :=
    update_element nE (classList_remove "hidden")
      (update_element nC (classList_add "hidden")
         (update_element nL (classList_add "hidden") d)) in
  G (G d) = G d.
Proof.
  intros HLC HLE HCE G. unfold G.
  destruct d as [ti la els]. unfold update_element, set_elements. cbn. f_equal.
  apply list_eq. intros n.
  destruct (decide (n = nL)) as [->|?]; [|destruct (decide (n = nC)) as [->|?];
    [|destruct (decide (n = nE)) as [->|?]]];
    repeat first [ rewrite list_lookup_alter_eq
                 | rewrite list_lookup_alter_ne by done ];
    try done; destruct (els !! _); cbn; try done;
    by rewrite ?classList_add_idem, ?classList_remove_idem.
Qed.

(** X19: when the three panels exist, [showError] returns with the
    loading and content panels hidden and the error panel shown, whatever was
    shown before; it changes nothing but class lists; and a second call
    changes nothing at all. *)
Theorem X19_showError
    (p : Page) :
  panels_exist (document p) →
  ∃ p' : Page,
    CL.showError p = (Return tt, p')
    ∧ view (document p') = Some ErrorShown
    ∧ CL.showError p' = (Return tt, p')
    ∧ without_classes <$> elements (document p') =
      without_classes <$> elements (document p)
    ∧ doc_title (document p') = doc_title (document p)
    ∧ requests p' = requests p
    ∧ notifications p' = notifications p
    ∧ contentLoader p' = contentLoader p.
Proof.
  intros ([nL HL] & [nC HC] & [nE HE]).
  destruct (panels_distinct (document p) nL nC nE HL HC HE) as (HLC & HLE & HCE).
  destruct (showError_ok p nL nC nE HL HC HE) as (p' & Hrun & Hview).
  exists p'. split; [done|]. split; [done|].
  rewrite (showError_eq p nL nC nE HL HC HE) in Hrun. injection Hrun as <-.
  split.
  { rewrite (showError_eq _ nL nC nE); [|by_id_base..].
    f_equal. destruct p as [t cl d ls rq nt li w]. unfold set_document. cbn.
    f_equal. by apply error_classes_idem. }
  cbn [document set_document].
  split; [|done].
  by rewrite !without_classes_update.
Qed.

(** ** Nothing to render *)




(** ** Which document *)

Lemma getContentTypeFromPath_known (pathname c : string) :
  CL.getContentTypeFromPath pathname = Some c →
  c ∈ known_content_types ∧ includes pathname c = true.
Proof.
  unfold CL.getContentTypeFromPath, known_content_types.
  destruct (includes pathname "handbook") eqn:H1;
    [intros [= <-]; split; [set_solver | done]|].
  destruct (includes pathname "cli-mode") eqn:H2;
    [intros [= <-]; split; [set_solver | done]|].
  destruct (includes pathname "knowledgebase") eqn:H3;
    [intros [= <-]; split; [set_solver | done]|].
  destruct (includes pathname "credits") eqn:H4;
    [intros [= <-]; split; [set_solver | done]|].
  done.
Qed.

Lemma known_content_type_truthy (c : string) :
  c ∈ known_content_types → truthy c = true.
Proof.
  unfold known_content_types. intros Hc.
  apply list_elem_of_In in Hc. cbn in Hc.
  by destruct Hc as [<-|[<-|[<-|[<-|[]]]]].
Qed.

Lemma resolved_content_type_truthy (urlParams_content : option string)
    (pathname c : string) :
  or_else urlParams_content (CL.getContentTypeFromPath pathname) = Some c →
  truthy c = true.
Proof.
  unfold or_else.
  assert (CL.getContentTypeFromPath pathname = Some c → truthy c = true) as Hpath.
  { intros [Hc _]%getContentTypeFromPath_known. by apply known_content_type_truthy. }
  destruct urlParams_content as [s|]; [|done].
  destruct (truthy s) eqn:Hs; [by intros [= <-] | done].
Qed.

(** X17: whatever content type [init] resolves, from a non-empty query
    parameter (known or not) or else from the path, it is stored and loaded:
    with the panels there [init] returns, has requested the document of that
    name in the current language first (and at most the English one after
    it), shows the content or the error, and has set [window.contentLoader]. *)
Theorem X17_init_loads_the_resolved_content_type
    (network : nat -> string -> FetchResult)
    (marked_parse : string -> option string)
    (urlParams_content : option string) (pathname : string) (p : Page)
    (c : string) :
  or_else urlParams_content (CL.getContentTypeFromPath pathname) = Some c →
  panels_exist (document p) →
  ∃ p' : Page,
    CL.init network marked_parse urlParams_content pathname p = (Return tt, p')
    ∧ c ≠ ""
    ∧ contentType (contentLoader p') = Some c
    ∧ window_contentLoader p' = true
    ∧ (view (document p') = Some ContentShown
       ∨ view (document p') = Some ErrorShown)
    ∧ ∃ rest : list string,
        requests p' =
          (requests p ++
           ("content/" +:+ currentLang (translationManager p) +:+ "/" +:+ c +:+ ".md")
             :: rest)%list
        ∧ (rest = [] ∨ rest = ["content/en/" +:+ c +:+ ".md"]).
Proof.
  intros Hresolved Hpanels.
  pose proof (resolved_content_type_truthy _ _ _ Hresolved) as Hc.
  pose proof Hpanels as ([nL HL] & [nC HC] & [nE HE]).
  set (p1 := set_contentLoader (CL.set_contentType (Some c)) p).
  destruct (loadContent_ends network marked_parse (document p) nL nC nE
              HL HC HE p1 eq_refl) as (p2 & Hrun & Hids & Hview).
  pose proof (loadContent_requests network marked_parse p1 Hpanels) as Hreq.
  pose proof (loadContent_preserves network marked_parse contentLoader
                ltac:(done) ltac:(done) ltac:(done) p1) as Hcl.
  rewrite Hrun in Hreq, Hcl. cbn [snd] in Hreq, Hcl. cbn zeta in Hreq.
  exists (set_window_contentLoader true p2).
  split.
  { unfold CL.init. cbn zeta. rewrite Hresolved. cbn [from_option]. rewrite Hc.
    change ((modify (set_contentLoader (CL.set_contentType (Some c))) ≫= ?k) p)
      with (k tt p1).
    cbn beta. erewrite bind_return; [|exact Hrun]. done. }
  split; [by apply truthy_true|].
  cbn [contentLoader document requests window_contentLoader set_window_contentLoader].
  split; [by rewrite Hcl|]. split; [done|]. split; [done|].
  exact Hreq.
Qed.

(** ** The metadata tables *)

Lemma tables_cover_known_types :
  map_Forall (fun k row => k ∈ known_content_types
                           ∧ is_Some (row !! "en")
                           ∧ is_Some (row !! "ga")
                           ∧ map_Forall (fun _ t => t ≠ "LinuxToys") row)
    CL.titles
  ∧ map_Forall (fun k row => k ∈ known_content_types
                             ∧ is_Some (row !! "en")
                             ∧ row !! "ga" = None
                             ∧ map_Forall (fun _ t => t ≠ "LinuxToys documentation") row)
      CL.descriptions
  ∧ Forall (fun k => is_Some (CL.titles !! k) ∧ is_Some (CL.descriptions !! k))
      known_content_types.
Proof.
  split; [|split]; apply (bool_decide_unpack _); vm_compute; exact I.
Qed.

Lemma chosen_in_row (table : gmap string (gmap string string))
    (row : gmap string string) (ctype language generic t : string) :
  map_Forall (fun _ row => map_Forall (fun _ t => truthy t = true) row) table →
  table !! ctype = Some row →
  row !! "en" = Some t →
  or_default
    (or_else (CL.entry table ctype language) (CL.entry table ctype "en"))
    generic = default t (row !! language).
Proof.
  intros Htable Hrow Hen. rewrite chosen_from_table; [|done].
  unfold CL.entry. rewrite Hrow, Hen. by destruct (row !! language).
Qed.

Lemma chosen_no_row (table : gmap string (gmap string string))
    (ctype language generic : string) :
  table !! ctype = None →
  or_default
    (or_else (CL.entry table ctype language) (CL.entry table ctype "en"))
    generic = generic.
Proof. intros Hrow. unfold CL.entry. by rewrite Hrow. Qed.

(** ** The properties at the sample pages *)

Lemma X1_witness :
  currentLang
    (translationManager (TM.init Sample.network Sample.navigator 2 Sample.fresh).2)
  ∈ supportedLanguages (translationManager Sample.fresh).
Proof.
  refine (proj2 (proj2 (proj2 (proj2
            (X1_resolved_language_is_supported_or_fallback
               Sample.network Sample.navigator 2 Sample.fresh _)))) _).
  - lia.
  - cbn. left.
Defined.



Lemma X14_witness :
  ∃ p' : Page,
    CL.loadContent Sample.network Sample.marked_parse Visit.handbook = (Return tt, p')
    ∧ view (document p') = Some ContentShown
    ∧ content <$> element_by_id "markdown-content" (document p') =
      Some (Markup "<article># Handbook</article>")
    ∧ doc_title (document p') = "Developer Handbook - LinuxToys".
Proof.
  destruct (X14_loadContent_shows_the_rendered_document
              Sample.network Sample.marked_parse Visit.handbook
              "handbook" "# Handbook" "<article># Handbook</article>")
    as (p' & Hrun & Hview & Hcontent & Htitle & _).
  - repeat split; vm_compute; eexists; reflexivity.
  - intros i Hi. apply list_elem_of_In in Hi. cbn in Hi.
    destruct Hi as [<-|[<-|[<-|[<-|[<-|[<-|[]]]]]]];
      vm_compute; eexists; reflexivity.
  - reflexivity.
  - vm_compute. reflexivity.
  - discriminate.
  - reflexivity.
  - exists p'. split; [exact Hrun|]. split; [exact Hview|].
    split; [exact Hcontent|]. rewrite Htitle. vm_compute. reflexivity.
Defined.

Lemma X15_witness :
  ∃ p' : Page,
    CL.init Sample.network Sample.marked_parse (Some "handbook")
      "/page-template.html" Visit.bare = (Throw TypeError, p')
    ∧ requests p' = requests Visit.bare.
Proof.
  destruct (X15_missing_panel_throws
              Sample.network Sample.marked_parse (Some "handbook")
              "/page-template.html" Visit.bare)
    as (_ & _ & p' & Hrun & Hreq & _).
  - intros ([n Hn] & _). vm_compute in Hn. discriminate Hn.
  - exists p'. split; [exact Hrun | exact Hreq].
Defined.


Lemma X17_witness :
  ∃ p' : Page,
    CL.init Sample.network Sample.marked_parse (Some "handbook")
      "/page-template.html" Sample.fresh = (Return tt, p')
    ∧ contentType (contentLoader p') = Some "handbook"
    ∧ window_contentLoader p' = true.
Proof.
  destruct (X17_init_loads_the_resolved_content_type
              Sample.network Sample.marked_parse (Some "handbook")
              "/page-template.html" Sample.fresh "handbook")
    as (p' & Hrun & _ & Htype & Hwindow & _).
  - reflexivity.
  - repeat split; vm_compute; eexists; reflexivity.
  - exists p'. split; [exact Hrun|]. split; [exact Htype | exact Hwindow].
Defined.

Lemma X19_witness :
  ∃ p' : Page,
    CL.showError Sample.fresh = (Return tt, p')
    ∧ view (document p') = Some ErrorShown
    ∧ CL.showError p' = (Return tt, p').
Proof.
  destruct (X19_showError Sample.fresh) as (p' & Hrun & Hview & Hagain & _).
  - repeat split; vm_compute; eexists; reflexivity.
  - exists p'. split; [exact Hrun|]. split; [exact Hview | exact Hagain].
Defined.

Lemma X2_witness :
  TM.detectBrowserLanguage Sample.navigator TM.constructor =
  TM.detectBrowserLanguage
    {| nav_language := Some "FR";
       nav_languages := Some ["fr-CA"; "PT-pt"; "EN"];
       nav_userLanguage := None;
       nav_browserLanguage := None;
       nav_systemLanguage := None |}
    TM.constructor.
Proof.
  refine (proj1 (X2_detection_ignores_region_and_case
                   Sample.navigator TM.constructor) _ _).
  vm_compute. reflexivity.
Defined.

Lemma X3_witness :
  TM.detectBrowserLanguage
    {| nav_language := Some "es-MX";
       nav_languages := None;
       nav_userLanguage := None;
       nav_browserLanguage := None;
       nav_systemLanguage := None |}
    (TM.addSupportedLanguage "es" TM.constructor) = "es".
Proof.
  destruct (X3_addSupportedLanguage "es" TM.constructor)
    as (_ & _ & _ & _ & _ & _ & _ & Hdetect).
  apply (Hdetect _ "es-MX" []); vm_compute; reflexivity.
Defined.

Lemma X8_witness :
  ∃ button' : Element,
    elements (TM.updateLanguageButtons (translationManager Sample.portuguese)
                Sample.doc) !! 3%nat = Some button'
    ∧ style button' !! "color" = Some "white".
Proof.
  destruct (X8_only_the_current_language_button_is_active
              (translationManager Sample.portuguese) Sample.doc)
    as (_ & _ & Hstyle & Hactive & _).
  eexists. split.
  - apply (Hstyle "pt" 3%nat (Sample.tag (Some "lang-pt") [] [] "PT")).
    + cbn. right. left.
    + vm_compute. reflexivity.
    + reflexivity.
  - vm_compute. reflexivity.
Defined.

(** * The lookups as the engine makes them *)

(** ** Plain keys *)

Lemma property_plain {A} (o : gmap string A) (key : string) :
  plain key →
  property o key = match o !! key with Some a => Found a | None => Missing end.
Proof.
  intros Hkey. unfold property. destruct (o !! key); [done|].
  by rewrite bool_decide_eq_false_2.
Qed.

Lemma property_found {A} (o : gmap string A) (key : string) (a : A) :
  o !! key = Some a → property o key = Found a.
Proof. intros H. unfold property. by rewrite H. Qed.

Lemma property_inherited {A} (o : gmap string A) (key : string) :
  o !! key = None → key ∈ Object_prototype → property o key = Inherited.
Proof. intros H Hin. unfold property. by rewrite H, bool_decide_eq_true_2. Qed.

Lemma plain_toggle_keys :
  plain "toggle-button" ∧ plain "toggle-button-less" ∧ plain "en".
Proof.
  unfold plain. repeat split; apply (bool_decide_unpack _); vm_compute; exact I.
Qed.

Lemma lookup_own (engine : Engine) (b : Bundle) (key : string) :
  plain key →
  lookup engine (Own b) key =
  Some match b !! key with Some s => Str s | None => Undefined end.
Proof.
  intros Hkey. unfold lookup. rewrite property_plain by done.
  by destruct (b !! key).
Qed.

Lemma lookup_own_found (engine : Engine) (b : Bundle) (key s : string) :
  b !! key = Some s → lookup engine (Own b) key = Some (Str s).
Proof. intros H. unfold lookup. by rewrite (property_found _ _ _ H). Qed.

Lemma lookup_own_inherited (engine : Engine) (b : Bundle) (key : string) :
  b !! key = None → key ∈ Object_prototype →
  lookup engine (Own b) key = Some (Other true (member_text engine key)).
Proof. intros H Hin. unfold lookup. by rewrite property_inherited. Qed.

Lemma currentTranslations_plain (this : TranslationManager) :
  plain (currentLang this) → plain (fallbackLang this) →
  TMjs.currentTranslations this = Own (TM.currentTranslations this).
Proof.
  intros Hcur Hfb. unfold TMjs.currentTranslations, TM.currentTranslations.
  rewrite !property_plain by done.
  destruct (translations this !! currentLang this); [done|].
  by destruct (translations this !! fallbackLang this).
Qed.

Lemma to_text_or_default (o : option string) (d : string) :
  to_text (value_or match o with Some s => Str s | None => Undefined end (Str d)) =
  or_default o d.
Proof. destruct o as [s|]; [|done]. unfold value_or. cbn. by destruct (truthy s). Qed.

(** ** One element *)

Lemma updateToggleButton_own (engine : Engine) (i : nat) (cur : Bundle)
    (d : Document) :
  TMjs.updateToggleButton engine i (Own cur) d =
  (Return tt, TM.updateToggleButton i cur d).
Proof.
  destruct plain_toggle_keys as (_ & Hless & _).
  destruct plain_toggle_keys as (Htoggle & _).
  unfold TMjs.updateToggleButton, TM.updateToggleButton. cbn zeta.
  rewrite !lookup_own by done. rewrite !to_text_or_default.
  by repeat case_match.
Qed.

Lemma translate_element_own (engine : Engine) (cur : Bundle) (d : Document)
    (i : nat) :
  (∀ e, elements d !! i = Some e → ¬ stops cur e) →
  TMjs.translate_element engine (Own cur) d i =
  (Return tt, TM.translate_element cur d i).
Proof.
  intros Hgo. unfold TMjs.translate_element, TM.translate_element.
  destruct (elements d !! i) as [e|] eqn:He; cbn [from_option]; [|done].
  destruct (getAttribute "data-key" e) as [key|] eqn:Hkey; [|done].
  case_bool_decide as Htoggle; [apply updateToggleButton_own|].
  destruct (cur !! key) as [t|] eqn:Ht.
  - rewrite (lookup_own_found _ _ _ _ Ht). cbn [value_truthy].
    by destruct (truthy t).
  - destruct (decide (key ∈ Object_prototype)) as [Hin|Hout].
    + destruct (Hgo e eq_refl). by exists key.
    + rewrite lookup_own by done. by rewrite Ht.
Qed.

Lemma translate_element_stops (engine : Engine) (cur : Bundle) (d : Document)
    (i : nat) (e : Element) (key : string) :
  elements d !! i = Some e →
  getAttribute "data-key" e = Some key →
  key ≠ "toggle-button" → key ∈ Object_prototype → cur !! key = None →
  TMjs.translate_element engine (Own cur) d i =
  (Throw TypeError,
   update_element i (TMjs.write_title (member_text engine key)) d).
Proof.
  intros He Hkey Htoggle Hin Hnone. unfold TMjs.translate_element.
  rewrite He. cbn [from_option]. rewrite Hkey.
  rewrite bool_decide_eq_false_2 by done.
  by rewrite lookup_own_inherited.
Qed.

Lemma data_key_translated (cur : Bundle) (all : list Element) (e : Element) :
  getAttribute "data-key" (translated cur all e) = getAttribute "data-key" e.
Proof.
  unfold getAttribute.
  apply (proj2 (proj2 (proj2 (proj2 (proj2 (translated_frame cur all e)))))).
  done.
Qed.

Lemma stops_translated (cur : Bundle) (all : list Element) (e : Element) :
  stops cur (translated cur all e) ↔ stops cur e.
Proof. unfold stops. by rewrite data_key_translated. Qed.

(** ** The loop *)

Lemma forEach_own (engine : Engine) (cur : Bundle) (idxs : list nat)
    (d : Document) :
  (∀ i e, i ∈ idxs → elements d !! i = Some e → ¬ stops cur e) →
  forEach (TMjs.translate_element engine (Own cur)) idxs d =
  (Return tt, foldl (TM.translate_element cur) d idxs).
Proof.
  revert d. induction idxs as [|i idxs IH]; intros d Hgo; cbn [forEach foldl];
    [done|].
  rewrite translate_element_own by (intros e He; apply (Hgo i e); [by left | done]).
  apply IH. intros j e Hj He.
  rewrite translate_element_eq in He. cbn in He.
  destruct (decide (i = j)) as [->|Hne].
  - rewrite list_lookup_alter_eq in He.
    destruct (elements d !! j) as [e0|] eqn:He0; [|done].
    cbn in He. injection He as <-. rewrite stops_translated.
    apply (Hgo j e0); [by left | done].
  - rewrite list_lookup_alter_ne in He by done.
    apply (Hgo j e); [by right | done].
Qed.

Lemma plain_document_stops (cur : Bundle) (d : Document) (i : nat) (e : Element) :
  plain_document d → elements d !! i = Some e → ¬ stops cur e.
Proof.
  intros Hd He (key & Hkey & _ & Hin & _).
  apply (Hd e key); [by eapply list_elem_of_lookup_2 | done | done].
Qed.

(** On a page whose languages and keys are plain, [updatePageTranslations]
    returns, and what it makes of the document is read off the own
    properties alone. *)
Lemma updatePageTranslations_plain (engine : Engine) (this : TranslationManager)
    (d : Document) :
  plain (currentLang this) → plain (fallbackLang this) → plain_document d →
  TMjs.updatePageTranslations engine this d =
  (Return tt, TM.updatePageTranslations this d).
Proof.
  intros Hcur Hfb Hd. unfold TMjs.updatePageTranslations, TM.updatePageTranslations.
  cbn zeta. rewrite currentTranslations_plain by done.
  apply forEach_own. intros i e _ He. by eapply plain_document_stops.
Qed.

(** ** What the loop never does *)

Lemma kept_refl (e : Element) : kept e e.
Proof. by repeat split. Qed.

Lemma kept_trans (e1 e2 e3 : Element) : kept e1 e2 → kept e2 e3 → kept e1 e3.
Proof.
  intros (H1 & H2 & H3 & H4 & H5) (G1 & G2 & G3 & G4 & G5).
  repeat split; try congruence. intros k Hk. by rewrite G5, H5.
Qed.

Lemma kept_set_content (c : Content) (e : Element) : kept e (set_content c e).
Proof. by repeat split. Qed.

Lemma kept_write_title (text : string) (e : Element) :
  kept e (TMjs.write_title text e).
Proof.
  unfold TMjs.write_title.
  destruct (hasAttribute "title" e) eqn:Htitle; [|apply kept_refl].
  repeat split; cbn.
  - rewrite Htitle. unfold hasAttribute. apply bool_decide_eq_true. cbn.
    rewrite lookup_insert_eq. by eexists.
  - intros k Hk. by rewrite lookup_insert_ne.
Qed.

Lemma kept_apply_translation (t : string) (e : Element) :
  kept e (TM.apply_translation t e).
Proof.
  repeat split.
  - unfold TM.apply_translation. by repeat case_match.
  - apply classList_apply_translation.
  - unfold TM.apply_translation. by repeat case_match.
  - apply hasAttribute_title_apply_translation.
  - intros k Hk. by apply attributes_apply_translation.
Qed.

Lemma kept_document_refl (d : Document) : kept_document d d.
Proof.
  split; [done|]. intros n. destruct (elements d !! n); [apply kept_refl | done].
Qed.

Lemma kept_document_trans (d1 d2 d3 : Document) :
  kept_document d1 d2 → kept_document d2 d3 → kept_document d1 d3.
Proof.
  intros [L1 H1] [L2 H2]. split; [congruence|]. intros n.
  specialize (H1 n). specialize (H2 n).
  destruct (elements d1 !! n), (elements d2 !! n), (elements d3 !! n); try done.
  by eapply kept_trans.
Qed.

Lemma kept_document_update (i : nat) (f : Element → Element) (d : Document) :
  (∀ e, kept e (f e)) → kept_document d (update_element i f d).
Proof.
  intros Hf. split; [done|]. intros n. cbn.
  destruct (decide (i = n)) as [->|Hne].
  - rewrite list_lookup_alter_eq. destruct (elements d !! n); cbn; [apply Hf | done].
  - rewrite list_lookup_alter_ne by done.
    destruct (elements d !! n); [apply kept_refl | done].
Qed.

(** A step of the loop returns or throws a TypeError, and keeps of every
    element what a translation keeps. *)
Lemma translate_element_step (engine : Engine) (r : Receiver) (d : Document)
    (i : nat) :
  ((TMjs.translate_element engine r d i).1 = Return tt
   ∨ (TMjs.translate_element engine r d i).1 = Throw TypeError)
  ∧ kept_document d (TMjs.translate_element engine r d i).2.
Proof.
  unfold TMjs.translate_element.
  destruct (from_option (getAttribute "data-key") None (elements d !! i)) as [key|];
    [|split; [by left | apply kept_document_refl]].
  case_bool_decide.
  - unfold TMjs.updateToggleButton. cbn zeta.
    repeat case_match; cbn [fst snd];
      (split; [by (left + right)|]);
      first [ apply kept_document_refl
            | apply kept_document_update; intros; apply kept_set_content ].
  - destruct (lookup engine r key) as [v|];
      [|split; [by right | apply kept_document_refl]].
    destruct (value_truthy v); [|split; [by left | apply kept_document_refl]].
    destruct v; cbn [fst snd]; (split; [by (left + right)|]);
      apply kept_document_update; intros;
      first [ apply kept_apply_translation | apply kept_write_title ].
Qed.

Lemma forEach_step (engine : Engine) (r : Receiver) (idxs : list nat)
    (d : Document) :
  ((forEach (TMjs.translate_element engine r) idxs d).1 = Return tt
   ∨ (forEach (TMjs.translate_element engine r) idxs d).1 = Throw TypeError)
  ∧ kept_document d (forEach (TMjs.translate_element engine r) idxs d).2.
Proof.
  revert d. induction idxs as [|i idxs IH]; intros d; cbn [forEach].
  - split; [by left | apply kept_document_refl].
  - destruct (translate_element_step engine r d i) as [Hout Hkept].
    destruct (TMjs.translate_element engine r d i) as [[[]|e|] d'] eqn:Hstep;
      cbn [fst snd] in *.
    + destruct (IH d') as [Hout' Hkept']. split; [done|].
      by eapply kept_document_trans.
    + done.
    + by destruct Hout.
Qed.

Lemma updatePageTranslations_step (engine : Engine) (this : TranslationManager)
    (d : Document) :
  ((TMjs.updatePageTranslations engine this d).1 = Return tt
   ∨ (TMjs.updatePageTranslations engine this d).1 = Throw TypeError)
  ∧ kept_document d (TMjs.updatePageTranslations engine this d).2.
Proof. apply forEach_step. Qed.

(** ** Where the loop stops *)

Lemma querySelectorAll_from_app (k : nat) (l1 l2 : list Element) :
  querySelectorAll_from k (l1 ++ l2) =
  (querySelectorAll_from k l1 ++ querySelectorAll_from (k + length l1) l2)%list.
Proof.
  revert k. induction l1 as [|e l1 IH]; intros k; cbn [querySelectorAll_from app length].
  - by rewrite Nat.add_0_r.
  - rewrite IH. replace (S k + length l1)%nat with (k + S (length l1))%nat by lia.
    by destruct (hasAttribute "data-key" e).
Qed.

Lemma querySelectorAll_split (d : Document) (j : nat) (e : Element) :
  elements d !! j = Some e →
  hasAttribute "data-key" e = true →
  querySelectorAll_data_key d =
  (querySelectorAll_from 0 (take j (elements d))
     ++ j :: querySelectorAll_from (S j) (drop (S j) (elements d)))%list.
Proof.
  intros He Hkey. unfold querySelectorAll_data_key.
  rewrite <- (take_drop_middle (elements d) j e He) at 1.
  rewrite querySelectorAll_from_app. cbn [querySelectorAll_from]. rewrite Hkey.
  rewrite length_take_le by (apply Nat.lt_le_incl; by eapply lookup_lt_Some).
  done.
Qed.

Lemma forEach_app (f : Document → nat → Outcome unit * Document)
    (l1 l2 : list nat) (d : Document) :
  forEach f (l1 ++ l2) d =
  match forEach f l1 d with
  | (Return _, d') => forEach f l2 d'
  | r => r
  end.
Proof.
  revert d. induction l1 as [|i l1 IH]; intros d; cbn [forEach app]; [done|].
  destruct (f d i) as [[[]|e|] d']; [apply IH | done | done].
Qed.

Lemma kept_data_key (e e' : Element) :
  kept e e' → getAttribute "data-key" e' = getAttribute "data-key" e.
Proof. intros (_ & _ & _ & _ & H). by apply H. Qed.

(** The loop up to the first element that stops it: the elements before it
    are translated, the element itself gets at most a title, and the
    elements after it are not reached. *)
Lemma updatePageTranslations_stops (engine : Engine) (this : TranslationManager)
    (d : Document) (j : nat) (e : Element) (key : string) :
  plain (currentLang this) → plain (fallbackLang this) →
  elements d !! j = Some e →
  getAttribute "data-key" e = Some key →
  key ≠ "toggle-button" → key ∈ Object_prototype →
  TM.currentTranslations this !! key = None →
  (∀ i e', (i < j)%nat → elements d !! i = Some e' →
           ¬ stops (TM.currentTranslations this) e') →
  ∃ d' : Document,
    TMjs.updatePageTranslations engine this d = (Throw TypeError, d')
    ∧ elements d' !! j = Some (TMjs.write_title (member_text engine key) e)
    ∧ (∀ n, (n < j)%nat →
         elements d' !! n =
         translated (TM.currentTranslations this) (elements d) <$> elements d !! n)
    ∧ (∀ n, (j < n)%nat → elements d' !! n = elements d !! n).
Proof.
  intros Hcur Hfb He Hkey Htoggle Hin Hnone Hbefore.
  set (cur := TM.currentTranslations this) in *.
  assert (hasAttribute "data-key" e = true) as Hhas.
  { unfold hasAttribute. apply bool_decide_eq_true. unfold getAttribute in Hkey.
    by eexists. }
  set (l1 := querySelectorAll_from 0 (take j (elements d))).
  assert (∀ i, i ∈ l1 → (i < j)%nat) as Hl1.
  { intros i [e' (_ & Hi & _)]%querySelectorAll_from_elem.
    rewrite Nat.sub_0_r in Hi. apply lookup_lt_Some in Hi.
    rewrite length_take in Hi. lia. }
  assert (forEach (TMjs.translate_element engine (Own cur)) l1 d =
          (Return tt, foldl (TM.translate_element cur) d l1)) as Hpre.
  { apply forEach_own. intros i e' Hi He'. apply (Hbefore i e'); [by apply Hl1 | done]. }
  assert (NoDup l1) as Hnd by apply querySelectorAll_from_NoDup.
  assert (∀ n, elements (foldl (TM.translate_element cur) d l1) !! n =
               if bool_decide (n ∈ l1)
               then translated cur (elements d) <$> elements d !! n
               else elements d !! n) as Hlook.
  { intros n. rewrite (translate_fold cur d) by done. cbn.
    by rewrite foldl_alter_lookup. }
  unfold TMjs.updatePageTranslations. cbn zeta.
  rewrite currentTranslations_plain by done. fold cur.
  rewrite (querySelectorAll_split d j e He Hhas). fold l1.
  rewrite forEach_app, Hpre. cbn [forEach].
  assert (elements (foldl (TM.translate_element cur) d l1) !! j = Some e) as Hj.
  { rewrite Hlook, bool_decide_eq_false_2; [done|]. intros ?%Hl1. lia. }
  rewrite (translate_element_stops engine cur _ j e key Hj Hkey Htoggle Hin Hnone).
  eexists. split; [done|]. cbn.
  split; [by rewrite list_lookup_alter_eq, Hj|].
  split.
  - intros n Hn. rewrite list_lookup_alter_ne by lia. rewrite Hlook.
    case_bool_decide as Hmem; [done|].
    destruct (elements d !! n) as [e'|] eqn:He'; [|done]. cbn. f_equal.
    unfold translated.
    destruct (getAttribute "data-key" e') as [k|] eqn:Hk; [|done].
    destruct Hmem. apply querySelectorAll_from_elem. exists e'.
    split; [lia|]. rewrite Nat.sub_0_r.
    split; [by rewrite lookup_take_lt | ].
    unfold hasAttribute. apply bool_decide_eq_true. unfold getAttribute in Hk.
    by eexists.
  - intros n Hn. rewrite list_lookup_alter_ne by lia. rewrite Hlook.
    rewrite bool_decide_eq_false_2; [done|]. intros ?%Hl1. lia.
Qed.

(** ** Switching the language *)

Lemma plain_document_keys (d d' : Document) :
  getAttribute "data-key" <$> elements d' = getAttribute "data-key" <$> elements d →
  plain_document d → plain_document d'.
Proof.
  intros Hkeys Hd e' key [n Hn]%list_elem_of_lookup_1 Hkey.
  assert ((getAttribute "data-key" <$> elements d) !! n = Some (Some key)) as Hk.
  { by rewrite <- Hkeys, list_lookup_fmap, Hn; cbn; rewrite Hkey. }
  rewrite list_lookup_fmap in Hk.
  destruct (elements d !! n) as [e|] eqn:He; [|done]. cbn in Hk.
  apply (Hd e key); [by eapply list_elem_of_lookup_2 | congruence].
Qed.

Lemma data_keys_updatePageTranslations (this : TranslationManager) (d : Document) :
  getAttribute "data-key" <$> elements (TM.updatePageTranslations this d) =
  getAttribute "data-key" <$> elements d.
Proof.
  rewrite updatePageTranslations_eq. cbn [elements set_elements].
  rewrite <- list_fmap_compose. apply list_fmap_ext. intros i e _.
  apply data_key_translated.
Qed.

Lemma data_key_restyled (this : TranslationManager) (d : Document)
    (langs : list string) (n : nat) (e : Element) :
  getAttribute "data-key" (restyled this d langs n e) = getAttribute "data-key" e.
Proof.
  destruct (restyled_cases this d langs n) as [H|[lang H]]; rewrite H; [done|].
  unfold button_style. by case_bool_decide.
Qed.

Lemma data_keys_updateLanguageButtons (this : TranslationManager) (d : Document) :
  getAttribute "data-key" <$> elements (TM.updateLanguageButtons this d) =
  getAttribute "data-key" <$> elements d.
Proof.
  rewrite updateLanguageButtons_eq. cbn [elements set_elements].
  rewrite fmap_imap, <- (imap_const (getAttribute "data-key")).
  apply imap_ext. intros i e _. apply data_key_restyled.
Qed.

Lemma plain_document_reapplied (this : TranslationManager) (language : string)
    (d : Document) :
  plain_document d → plain_document (reapplied this language d).
Proof.
  apply plain_document_keys. unfold reapplied.
  by rewrite data_keys_updateLanguageButtons, data_keys_updatePageTranslations.
Qed.

Lemma not_loaded_plain (this : TranslationManager) (language : string) :
  plain language →
  TMjs.not_loaded this language =
  bool_decide (translations this !! language = None).
Proof.
  intros Hl. unfold TMjs.not_loaded. rewrite property_plain by done.
  by destruct (translations this !! language).
Qed.

Lemma not_loaded_inherited (this : TranslationManager) (language : string) :
  language ∈ Object_prototype → TMjs.not_loaded this language = false.
Proof.
  intros Hl. unfold TMjs.not_loaded, property.
  destruct (translations this !! language); [done|].
  by rewrite bool_decide_eq_true_2.
Qed.

(** The translations and button styles applied to the page [q], as both
    [setLanguage] and [init] do. *)
Lemma on_document_plain (engine : Engine) (q : Page) :
  plain (currentLang (translationManager q)) →
  plain (fallbackLang (translationManager q)) →
  plain_document (document q) →
  on_document (TMjs.updatePageTranslations engine (translationManager q)) q =
  (Return tt, set_document (TM.updatePageTranslations (translationManager q)) q).
Proof.
  intros Hcur Hfb Hd. unfold on_document.
  by rewrite updatePageTranslations_plain.
Qed.

Section SetLanguagePlain.

Variable engine : Engine.
Variable network : nat -> string -> FetchResult.
Variable toolsLoader : bool.

(** On a page whose languages and keys are plain, [setLanguage] is what the
    own properties alone make it. *)
Lemma setLanguage_plain (fuel : nat) (language : string) (p : Page) :
  (2 ≤ fuel)%nat →
  plain language → plain (fallbackLang (translationManager p)) →
  plain_document (document p) →
  TMjs.setLanguage engine network toolsLoader fuel language p =
  TM.setLanguage network toolsLoader fuel language p.
Proof.
  intros Hfuel Hl Hfb Hd.
  assert (∀ q : Page,
            fallbackLang (translationManager q) = fallbackLang (translationManager p) →
            document q = document p →
            on_document
              (TMjs.updatePageTranslations engine
                 (translationManager
                    (set_document (set_doc_lang language)
                       (set_tm (set_currentLang language) q))))
              (set_document (set_doc_lang language)
                 (set_tm (set_currentLang language) q)) =
            (Return tt,
             set_document
               (TM.updatePageTranslations
                  (translationManager
                     (set_document (set_doc_lang language)
                        (set_tm (set_currentLang language) q))))
               (set_document (set_doc_lang language)
                  (set_tm (set_currentLang language) q)))) as Hstep.
  { intros q Hq Hdq. apply on_document_plain; cbn; [done | by rewrite Hq |].
    rewrite Hdq. by apply (plain_document_keys (document p)). }
  unfold TMjs.setLanguage, TM.setLanguage. run.
  rewrite not_loaded_plain by done.
  case_bool_decide as Hnone.
  - destruct (loadTranslations_returns network fuel language p Hfuel)
      as (b & p' & Hload).
    pose proof (loadTranslations_frame network fuel language p Hfuel)
      as (_ & Hf & _ & _ & Hdoc & _).
    rewrite Hload in *. cbn [snd] in *.
    change (get ?q) with (Return q, q). cbn beta iota.
    by rewrite (Hstep p' Hf Hdoc).
  - change (get ?q) with (Return q, q). cbn beta iota.
    by rewrite (Hstep p eq_refl eq_refl).
Qed.

End SetLanguagePlain.

Lemma on_document_any (engine : Engine) (q : Page) :
  ∃ (r : Outcome unit) (d' : Document),
    on_document (TMjs.updatePageTranslations engine (translationManager q)) q =
    (r, set_document (fun _ => d') q)
    ∧ (r = Return tt ∨ r = Throw TypeError)
    ∧ kept_document (document q) d'.
Proof.
  destruct (updatePageTranslations_step engine (translationManager q) (document q))
    as [Hout Hkept].
  unfold on_document.
  destruct (TMjs.updatePageTranslations engine (translationManager q) (document q))
    as [r d']. cbn [fst snd] in *. by exists r, d'.
Qed.

Lemma kept_document_lang (d d' : Document) :
  kept_document d d' → doc_lang d' = doc_lang d.
Proof. by intros [? _]. Qed.

(** ** Start-up *)

Section InitAny.

Variable engine : Engine.
Variable network : nat -> string -> FetchResult.
Variable navigator : Navigator.

(** [init] on any page: it may throw when the translations are applied, but
    by then the language is settled and the requests are made. *)
Lemma init_any (fuel : nat) (p : Page) :
  (2 ≤ fuel)%nat →
  let this := translationManager p in
  let fb := fallbackLang this in
  let initial :=
    TM.initialLanguage navigator this (localStorage p !! "preferredLanguage") in
  let n := length (requests p) in
  ∃ (r : Outcome unit) (p' : Page),
    TMjs.init engine network navigator fuel p = (r, p')
    ∧ (r = Return tt ∨ r = Throw TypeError)
    ∧ currentLang (translationManager p') = initial
    ∧ fallbackLang (translationManager p') = fb
    ∧ supportedLanguages (translationManager p') = supportedLanguages this
    ∧ requests p' =
      (requests p ++
       translations_url fb ::
       (if bool_decide (initial = fb) then []
        else translations_url initial ::
             match bundle_served network (S n) initial with
             | Some _ => []
             | None => [translations_url fb]
             end))%list
    ∧ localStorage p' = localStorage p
    ∧ notifications p' = notifications p
    ∧ contentLoader p' = contentLoader p
    ∧ doc_lang (document p') = doc_lang (document p)
    ∧ (plain initial → plain fb → plain_document (document p) → r = Return tt).
Proof.
  intros Hfuel this fb initial n.
  unfold TMjs.init. run. fold this fb.
  destruct (loadTranslations_facts network fuel fb p Hfuel)
    as (b1 & p1 & -> & Hr1 & Hl1 & Hn1 & Hc1 & Hd1 & _ & _ & Hs1 & Hf1 & _).
  fold this fb n in Hr1, Hs1, Hf1.
  rewrite (bool_decide_eq_false_2 (fb ≠ fb)) in Hr1 by (by intros []).
  assert (requests p1 = (requests p ++ [translations_url fb])%list) as Hreq1
    by (rewrite Hr1; by destruct (bundle_served network n fb)).
  rewrite Hl1, Hf1.
  rewrite (initialLanguage_ext navigator (translationManager p1) this _ Hs1 Hf1).
  fold initial.
  assert (∀ q : Page,
            fallbackLang (translationManager q) = fb →
            supportedLanguages (translationManager q) = supportedLanguages this →
            document q = document p →
            ∃ (r : Outcome unit) (p' : Page),
              (let (o, p'0) :=
                 on_document
                   (TMjs.updatePageTranslations engine
                      (translationManager (set_tm (set_currentLang initial) q)))
                   (set_tm (set_currentLang initial) q) in
               match o with
               | Return _ =>
                   (Return tt,
                    TM.setupLanguageSwitchers
                      (translationManager
                         (set_document
                            (TM.updateLanguageButtons (translationManager p'0)) p'0))
                      (set_document
                         (TM.updateLanguageButtons (translationManager p'0)) p'0))
               | Throw e => (Throw e, p'0)
               | OutOfFuel => (OutOfFuel, p'0)
               end) = (r, p')
              ∧ (r = Return tt ∨ r = Throw TypeError)
              ∧ currentLang (translationManager p') = initial
              ∧ fallbackLang (translationManager p') = fb
              ∧ supportedLanguages (translationManager p') = supportedLanguages this
              ∧ requests p' = requests q
              ∧ localStorage p' = localStorage q
              ∧ notifications p' = notifications q
              ∧ contentLoader p' = contentLoader q
              ∧ doc_lang (document p') = doc_lang (document p)
              ∧ (plain initial → plain fb → plain_document (document p) →
                 r = Return tt)) as Htail.
  { intros q Hfq Hsq Hdq.
    destruct (on_document_any engine (set_tm (set_currentLang initial) q))
      as (r & d' & Hrun & Hout & Hkept).
    pose proof (kept_document_lang _ _ Hkept) as Hlang. cbn in Hlang.
    assert (plain initial → plain fb → plain_document (document p) → r = Return tt)
      as Hplain.
    { intros Hi Hf Hd.
      rewrite on_document_plain in Hrun; cbn; [congruence | done | by rewrite Hfq |].
      by rewrite Hdq. }
    rewrite Hrun. destruct Hout as [-> | ->].
    - eexists _, _. split; [done|].
      destruct (setupLanguageSwitchers_frame
                  (translationManager
                     (set_document
                        (TM.updateLanguageButtons
                           (translationManager
                              (set_document (fun _ => d')
                                 (set_tm (set_currentLang initial) q))))
                        (set_document (fun _ => d')
                           (set_tm (set_currentLang initial) q))))
                  (set_document
                     (TM.updateLanguageButtons
                        (translationManager
                           (set_document (fun _ => d')
                              (set_tm (set_currentLang initial) q))))
                     (set_document (fun _ => d')
                        (set_tm (set_currentLang initial) q))))
        as (HT & HC & HD & HL & HR & HN & _).
      rewrite HT, HC, HD, HL, HR, HN.
      cbn [translationManager document requests localStorage notifications
           contentLoader set_document set_tm currentLang fallbackLang
           supportedLanguages set_currentLang].
      rewrite (proj2 (updateLanguageButtons_doc _ _)).
      repeat split; try first [done | congruence | by left].
    - exists (Throw TypeError),
        (set_document (fun _ => d') (set_tm (set_currentLang initial) q)).
      split; [reflexivity|]. cbn.
      repeat split; try first [done | congruence | by right]. }
  case_bool_decide as Hne.
  - rewrite (bool_decide_eq_false_2 (initial = fb)) by done.
    destruct (loadTranslations_facts network fuel initial p1 Hfuel)
      as (b2 & p2 & -> & Hr2 & Hl2 & Hn2 & Hc2 & Hd2 & _ & _ & Hs2 & Hf2 & _).
    rewrite Hf1, Hreq1, length_app in Hr2. cbn [length] in Hr2.
    replace (length (requests p) + 1)%nat with (S n) in Hr2 by (unfold n; lia).
    rewrite (bool_decide_eq_true_2 (initial ≠ fb)) in Hr2 by done.
    change (get ?q) with (Return q, q). cbn beta iota.
    destruct (Htail p2) as (r & p' & Hrun & Hout & Hcur & Hfb & Hsup & Hreq & Hls
                              & Hnt & Hcl & Hlang & Hplain);
      [congruence | congruence | congruence |].
    exists r, p'. split; [exact Hrun|].
    rewrite Hreq, Hls, Hnt, Hcl, Hr2, Hl2, Hn2, Hc2, Hl1, Hn1, Hc1.
    repeat split; try done.
    rewrite <- app_assoc. cbn.
    by destruct (bundle_served network (S n) initial).
  - assert (initial = fb) as Heq by (by destruct (decide (initial = fb))).
    rewrite (bool_decide_eq_true_2 (initial = fb)) by done.
    change (get ?q) with (Return q, q). cbn beta iota.
    destruct (Htail p1) as (r & p' & Hrun & Hout & Hcur & Hfb & Hsup & Hreq & Hls
                              & Hnt & Hcl & Hlang & Hplain);
      [congruence | congruence | congruence |].
    exists r, p'. split; [exact Hrun|].
    rewrite Hreq, Hls, Hnt, Hcl, Hreq1, Hl1, Hn1, Hc1.
    by repeat split.
Qed.

End InitAny.

Section SetLanguageAny.

Variable engine : Engine.
Variable network : nat -> string -> FetchResult.
Variable toolsLoader : bool.

(** A language that names a member of Object.prototype passes for loaded:
    nothing is requested for it, cached or not, and it becomes current. *)
Lemma setLanguage_inherited (fuel : nat) (language : string) (p : Page) :
  language ∈ Object_prototype →
  let r := TMjs.setLanguage engine network toolsLoader fuel language p in
  (r.1 = Return tt ∨ r.1 = Throw TypeError)
  ∧ requests r.2 = requests p
  ∧ translations (translationManager r.2) = translations (translationManager p)
  ∧ currentLang (translationManager r.2) = language.
Proof.
  intros Hl. unfold TMjs.setLanguage. run.
  rewrite not_loaded_inherited by done.
  change (get ?q) with (Return q, q). cbn beta iota.
  destruct (on_document_any engine
              (set_document (set_doc_lang language)
                 (set_tm (set_currentLang language) p)))
    as (r & d' & Hrun & [-> | ->] & _); rewrite Hrun; cbn beta iota.
  - destruct toolsLoader; cbn; by repeat split; try by left.
  - cbn. by repeat split; try by right.
Qed.

End SetLanguageAny.

(** ** The metadata tables *)

Lemma entry_plain (engine : Engine) (table : gmap string (gmap string string))
    (contentType language : string) :
  plain contentType → plain language →
  CLjs.entry engine table contentType language =
  Some match CL.entry table contentType language with
       | Some s => Str s
       | None => Undefined
       end.
Proof.
  intros Hc Hl. unfold CLjs.entry, CL.entry. rewrite property_plain by done.
  destruct (table !! contentType) as [row|]; [|done].
  rewrite property_plain by done. by destruct (row !! language).
Qed.

Lemma chosen_plain (engine : Engine) (table : gmap string (gmap string string))
    (contentType language generic : string) :
  plain contentType → plain language →
  CLjs.chosen engine table contentType language generic =
  Some (Str (or_default
               (or_else (CL.entry table contentType language)
                        (CL.entry table contentType "en"))
               generic)).
Proof.
  intros Hc Hl. destruct plain_toggle_keys as (_ & _ & Hen).
  unfold CLjs.chosen. rewrite !entry_plain by done.
  destruct (CL.entry table contentType language) as [s|]; cbn.
  - destruct (truthy s) eqn:Hs; cbn; [by rewrite Hs|].
    destruct (CL.entry table contentType "en") as [t|]; cbn; [|done].
    unfold value_or. cbn. by destruct (truthy t).
  - destruct (CL.entry table contentType "en") as [t|]; cbn; [|done].
    unfold value_or. cbn. by destruct (truthy t).
Qed.

(** The writes of [updatePageMeta], for any title and description. *)
Lemma meta_writes (title description : string) (q : Page)
    (m1 m2 m3 m4 m5 m6 : nat) :
  getElementById "page-title" (document q) = Some m1 →
  getElementById "page-description" (document q) = Some m2 →
  getElementById "og-description" (document q) = Some m3 →
  getElementById "twitter-description" (document q) = Some m4 →
  getElementById "og-title" (document q) = Some m5 →
  getElementById "twitter-title" (document q) = Some m6 →
  (modify (set_document (set_doc_title title));;
   with_element_by_id "page-title" (set_content (Text title));;
   with_element_by_id "page-description" (setAttribute "content" description);;
   with_element_by_id "og-description" (setAttribute "content" description);;
   with_element_by_id "twitter-description" (setAttribute "content" description);;
   with_element_by_id "og-title" (setAttribute "content" title);;
   with_element_by_id "twitter-title" (setAttribute "content" title)) q =
  (Return tt,
   set_document
     (fun d =>
        update_element m6 (setAttribute "content" title)
          (update_element m5 (setAttribute "content" title)
             (update_element m4 (setAttribute "content" description)
                (update_element m3 (setAttribute "content" description)
                   (update_element m2 (setAttribute "content" description)
                      (update_element m1 (set_content (Text title))
                         (set_doc_title title d))))))) q).
Proof.
  intros H1 H2 H3 H4 H5 H6.
  unfold mbind at 1, M_bind at 1, bind at 1, modify at 1.
  do 5 (erewrite with_element_by_id_bind; [|by_id_base]).
  erewrite with_element_by_id_ok; [done|by_id_base].
Qed.

Lemma updatePageMeta_chosen (engine : Engine) (contentType language : string)
    (title description : Value) :
  CLjs.chosen_title engine contentType language = Some title →
  CLjs.chosen_description engine contentType language = Some description →
  CLjs.updatePageMeta engine contentType language =
  (modify (set_document (set_doc_title (to_text title)));;
   with_element_by_id "page-title" (set_content (Text (to_text title)));;
   with_element_by_id "page-description"
     (setAttribute "content" (to_text description));;
   with_element_by_id "og-description"
     (setAttribute "content" (to_text description));;
   with_element_by_id "twitter-description"
     (setAttribute "content" (to_text description));;
   with_element_by_id "og-title" (setAttribute "content" (to_text title));;
   with_element_by_id "twitter-title" (setAttribute "content" (to_text title))).
Proof. intros Ht Hd. unfold CLjs.updatePageMeta. by rewrite Ht, Hd. Qed.

(** What the page holds after those writes. *)
Lemma meta_written (title description : string) (q : Page)
    (m1 m2 m3 m4 m5 m6 : nat) :
  getElementById "page-title" (document q) = Some m1 →
  getElementById "page-description" (document q) = Some m2 →
  getElementById "og-description" (document q) = Some m3 →
  getElementById "twitter-description" (document q) = Some m4 →
  getElementById "og-title" (document q) = Some m5 →
  getElementById "twitter-title" (document q) = Some m6 →
  let d' :=
    update_element m6 (setAttribute "content" title)
      (update_element m5 (setAttribute "content" title)
         (update_element m4 (setAttribute "content" description)
            (update_element m3 (setAttribute "content" description)
               (update_element m2 (setAttribute "content" description)
                  (update_element m1 (set_content (Text title))
                     (set_doc_title title (document q))))))) in
  doc_title d' = title
  ∧ content <$> element_by_id "page-title" d' = Some (Text title)
  ∧ (∀ i, i ∈ ["og-title"; "twitter-title"] →
     from_option (getAttribute "content") None (element_by_id i d') = Some title)
  ∧ (∀ i, i ∈ ["page-description"; "og-description"; "twitter-description"] →
     from_option (getAttribute "content") None (element_by_id i d') =
     Some description).
Proof.
  intros H1 H2 H3 H4 H5 H6 d'. unfold d'.
  assert (∀ i n, getElementById i (document q) = Some n →
                 ∃ e, element_by_id i (document q) = Some e) as Hel.
  { intros i n Hn. apply element_by_id_is_Some. by exists n. }
  destruct (Hel _ _ H1) as [e1 He1], (Hel _ _ H2) as [e2 He2],
    (Hel _ _ H3) as [e3 He3], (Hel _ _ H4) as [e4 He4],
    (Hel _ _ H5) as [e5 He5], (Hel _ _ H6) as [e6 He6].
  split; [done|].
  split; [|split].
  - by_id_look. by rewrite He1.
  - intros i Hi.
    apply list_elem_of_In in Hi. cbn in Hi. destruct Hi as [<-|[<-|[]]].
    + by_id_look. rewrite He5. cbn. apply lookup_insert_eq.
    + by_id_look. rewrite He6. cbn. apply lookup_insert_eq.
  - intros i Hi.
    apply list_elem_of_In in Hi. cbn in Hi. destruct Hi as [<-|[<-|[<-|[]]]].
    + by_id_look. rewrite He2. cbn. apply lookup_insert_eq.
    + by_id_look. rewrite He3. cbn. apply lookup_insert_eq.
    + by_id_look. rewrite He4. cbn. apply lookup_insert_eq.
Qed.

(** * The claims about lookups *)

(** C2, as the code has it, on a page whose languages and translation keys
    name no member of Object.prototype: one bundle is chosen for the whole
    page, the bundle of the current language when it is in the cache, else
    the bundle of the fallback language when that is in the cache, else the
    empty one.  [updatePageTranslations] returns, and an element tagged with
    a key other than toggle-button gets the value the chosen bundle has for
    the key, when it has a non-empty one, and is left as it was otherwise.
    So when the bundle of the current language is there and lacks the key,
    the element is left unchanged whatever the fallback bundle holds. *)
Theorem C2_key_is_looked_up_in_one_bundle
    (engine : Engine) (this : TranslationManager) (d : Document) (i : nat)
    (element : Element) (key : string) :
  plain (currentLang this) → plain (fallbackLang this) → plain_document d →
  elements d !! i = Some element →
  getAttribute "data-key" element = Some key →
  key ≠ "toggle-button" →
  let chosen : Bundle :=
    match translations this !! currentLang this with
    | Some b => b
    | None =>
        match translations this !! fallbackLang this with
        | Some b => b
        | None => ∅
        end
    end in
  ∃ d' : Document,
    TMjs.updatePageTranslations engine this d = (Return tt, d')
    ∧ elements d' !! i =
      Some match chosen !! key with
           | Some translation =>
               if truthy translation
               then TM.apply_translation translation element
               else element
           | None => element
           end
    ∧ (∀ b : Bundle,
         translations this !! currentLang this = Some b →
         b !! key = None →
         elements d' !! i = Some element).
Proof.
  intros Hcur Hfb Hd He Hkey Hne chosen.
  exists (TM.updatePageTranslations this d).
  split; [by apply updatePageTranslations_plain|].
  assert (elements (TM.updatePageTranslations this d) !! i =
          Some match chosen !! key with
               | Some translation =>
                   if truthy translation
                   then TM.apply_translation translation element
                   else element
               | None => element
               end) as Hres.
  { rewrite updatePageTranslations_lookup, He. cbn. unfold translated.
    by rewrite Hkey, bool_decide_eq_false_2. }
  split; [done|].
  intros b Hb Hnone. rewrite Hres. unfold chosen. by rewrite Hb, Hnone.
Qed.

(** C8, as the code has it: a translation written to an element tagged
    with a key other than toggle-button becomes the element's markup, all of
    it, when it contains the text <a href, and its plain text when it does
    not.  The toggle button only ever gets plain text.  This is so for the
    step of the loop at that element, whatever the rest of the page is, and
    for the whole loop on a page whose languages and translation keys name
    no member of Object.prototype. *)
Theorem C8_markup_only_with_anchor
    (engine : Engine) (d : Document) (i : nat) (element : Element)
    (key : string) :
  elements d !! i = Some element →
  getAttribute "data-key" element = Some key →
  let anchor (translation : string) : Prop :=
    ∃ pre post, translation = pre +:+ "<a href" +:+ post in
  (key ≠ "toggle-button" →
   ∀ (bundle : Bundle) (translation : string),
     bundle !! key = Some translation →
     translation ≠ "" →
     ∃ (d' : Document) (element' : Element),
       TMjs.translate_element engine (Own bundle) d i = (Return tt, d')
       ∧ elements d' !! i = Some element'
       ∧ (anchor translation → content element' = Markup translation)
       ∧ (¬ anchor translation → content element' = Text translation))
  ∧ (key = "toggle-button" →
     ∀ (translations : Receiver) (d' : Document),
       TMjs.translate_element engine translations d i = (Return tt, d') →
       ∃ s, content <$> elements d' !! i = Some (Text s))
  ∧ (∀ this : TranslationManager,
       plain (currentLang this) → plain (fallbackLang this) → plain_document d →
       let chosen : Bundle :=
         match translations this !! currentLang this with
         | Some b => b
         | None =>
             match translations this !! fallbackLang this with
             | Some b => b
             | None => ∅
             end
         end in
       ∃ (d' : Document) (element' : Element),
         TMjs.updatePageTranslations engine this d = (Return tt, d')
         ∧ elements d' !! i = Some element'
         ∧ (key ≠ "toggle-button" →
            ∀ translation : string,
              chosen !! key = Some translation →
              translation ≠ "" →
              (anchor translation → content element' = Markup translation)
              ∧ (¬ anchor translation → content element' = Text translation))
         ∧ (key = "toggle-button" → ∃ s, content element' = Text s)).
Proof.
  intros He Hkey anchor.
  assert (∀ translation (e : Element),
            (anchor translation →
             content (TM.apply_translation translation e) = Markup translation)
            ∧ (¬ anchor translation →
               content (TM.apply_translation translation e) = Text translation))
    as Hwrite.
  { intros translation e. unfold TM.apply_translation.
    destruct (includes translation "<a href") eqn:Hinc.
    - split; [done|]. intros Hno. destruct Hno. by apply includes_spec.
    - split; [|done]. intros Hyes%includes_spec. congruence. }
  split; [|split].
  - intros Hne bundle translation Ht Hnonempty%truthy_true.
    exists (update_element i (TM.apply_translation translation) d),
      (TM.apply_translation translation element).
    split.
    { unfold TMjs.translate_element. rewrite He. cbn [from_option].
      rewrite Hkey, bool_decide_eq_false_2 by done.
      rewrite (lookup_own_found _ _ _ _ Ht). cbn [value_truthy].
      by rewrite Hnonempty. }
    split; [cbn; by rewrite list_lookup_alter_eq, He|].
    apply Hwrite.
  - intros -> translations d'. unfold TMjs.translate_element.
    rewrite He. cbn [from_option]. rewrite Hkey, bool_decide_eq_true_2 by done.
    unfold TMjs.updateToggleButton. cbn zeta. rewrite He.
    destruct (match match nextElementSibling element with
                    | Some j => elements d !! j
                    | None => None
                    end with
              | Some list => classList_contains "expanded" list
              | None => false
              end);
      destruct (lookup engine translations _); intros [= <-]; cbn;
      rewrite list_lookup_alter_eq, He; by eexists.
  - intros this Hcur Hfb Hd chosen.
    exists (TM.updatePageTranslations this d). eexists.
    split; [by apply updatePageTranslations_plain|].
    split; [by rewrite updatePageTranslations_lookup, He|].
    unfold translated. rewrite Hkey. split.
    + intros Hne translation Ht Hnonempty.
      rewrite bool_decide_eq_false_2 by done.
      change (TM.currentTranslations this) with chosen. rewrite Ht.
      apply truthy_true in Hnonempty. rewrite Hnonempty. apply Hwrite.
    + intros ->. rewrite bool_decide_eq_true_2 by done.
      destruct (next_is_expanded _ _); by eexists.
Qed.

(** What [setLanguage] does on a page where the language is already the
    current one. *)
Lemma switch_to_current (toolsLoader : bool) (language : string) (q : Page) :
  currentLang (translationManager q) = language →
  switch_to toolsLoader language q =
  set_localStorage <["preferredLanguage" := language]>
    (set_notifications
       (fun l => (l ++ ((if toolsLoader then [OnLanguageChange language] else [])
                          ++ [LanguageChanged language]))%list)
       (set_document (reapplied (translationManager q) language) q)).
Proof.
  intros Hq. unfold switch_to, reapplied. cbn zeta.
  rewrite <- Hq, set_currentLang_same.
  destruct q as [t cl doc ls rq nt li w].
  destruct toolsLoader; cbn; unfold set_localStorage, set_notifications; cbn;
    by rewrite <- ?app_assoc.
Qed.

(** C7, as the code has it, on a page whose languages and translation keys
    name no member of Object.prototype: [setLanguage] with the current
    language returns without error, leaves the language current, applies the
    translations and the button styles again and stores the same preference.
    It also notifies again, the tools loader hook, when there is one, and a
    languageChanged event; and when the bundle of the language is not in the
    cache it requests it again, and the fallback bundle after it when that
    load fails.  When the bundle is in the cache, nothing is requested, the
    manager is left as it was, and doing it once more changes nothing but
    the list of notifications sent. *)
Theorem C7_setLanguage_again_notifies_again
    (engine : Engine) (network : nat -> string -> FetchResult)
    (toolsLoader : bool) (fuel : nat) (language : string) (p : Page) :
  (2 ≤ fuel)%nat →
  currentLang (translationManager p) = language →
  plain language → plain (fallbackLang (translationManager p)) →
  plain_document (document p) →
  let this := translationManager p in
  let n := length (requests p) in
  let notes :=
    ((if toolsLoader then [OnLanguageChange language] else [])
       ++ [LanguageChanged language])%list in
  ∃ p' : Page,
    TMjs.setLanguage engine network toolsLoader fuel language p = (Return tt, p')
    ∧ currentLang (translationManager p') = language
    ∧ (∃ d' : Document,
         TMjs.updatePageTranslations engine (translationManager p')
           (set_doc_lang language (document p)) = (Return tt, d')
         ∧ document p' = TM.updateLanguageButtons (translationManager p') d')
    ∧ localStorage p' = <["preferredLanguage" := language]> (localStorage p)
    ∧ notifications p' = (notifications p ++ notes)%list
    ∧ (translations this !! language = None →
       requests p' =
       (requests p ++
        translations_url language ::
        match bundle_served network n language with
        | Some _ => []
        | None =>
            if bool_decide (language ≠ fallbackLang this)
            then [translations_url (fallbackLang this)]
            else []
        end)%list)
    ∧ (is_Some (translations this !! language) →
       requests p' = requests p
       ∧ translationManager p' = this
       ∧ TMjs.setLanguage engine network toolsLoader fuel language p' =
         (Return tt, set_notifications (fun l => (l ++ notes)%list) p')).
Proof.
  intros Hfuel Hcur Hl Hfb Hd this n notes.
  rewrite setLanguage_plain by done.
  assert (∀ q : Page,
            currentLang (translationManager q) = language →
            fallbackLang (translationManager q) = fallbackLang this →
            document q = document p →
            ∃ d' : Document,
              TMjs.updatePageTranslations engine (translationManager q)
                (set_doc_lang language (document p)) = (Return tt, d')
              ∧ reapplied (translationManager q) language (document q) =
                TM.updateLanguageButtons (translationManager q) d') as Hdoc.
  { intros q Hq Hfq Hdq. eexists. split.
    - apply updatePageTranslations_plain; [by rewrite Hq | by rewrite Hfq |].
      by apply (plain_document_keys (document p)).
    - unfold reapplied. by rewrite Hdq. }
  destruct (translations this !! language) as [b|] eqn:Hcached.
  - rewrite setLanguage_cached by (by eexists).
    rewrite (switch_to_current toolsLoader language p Hcur).
    eexists. split; [done|].
    cbn [translationManager document localStorage notifications requests
         set_localStorage set_notifications set_document].
    split; [done|]. split; [by apply Hdoc|]. split; [done|]. split; [done|].
    split; [done|]. intros _. split; [done|]. split; [done|].
    rewrite setLanguage_plain; [|done|done|done|].
    2:{ cbn. by apply plain_document_reapplied. }
    rewrite setLanguage_cached by (cbn; by eexists).
    rewrite switch_to_current by done. f_equal.
    destruct p as [t cl doc ls rq nt li w].
    unfold set_localStorage, set_notifications, set_document. cbn. f_equal.
    + apply reapplied_idem.
    + apply insert_insert_eq.
  - rewrite setLanguage_not_cached by done.
    destruct (loadTranslations_facts network fuel language p Hfuel)
      as (b & q & Hload & Hr & Hls & Hn & _ & Hdq & _ & _ & _ & Hfq & Hcq).
    rewrite Hload. cbn [snd].
    assert (currentLang (translationManager q) = language) as Hq by congruence.
    rewrite (switch_to_current toolsLoader language q Hq).
    eexists. split; [done|].
    cbn [translationManager document localStorage notifications requests
         set_localStorage set_notifications set_document].
    split; [done|]. split; [by apply Hdoc|].
    split; [by rewrite Hls|]. split; [by rewrite Hn|].
    split; [by intros _|]. by intros [? ?].
Qed.

Lemma sample_plain_languages : plain "en" ∧ plain "pt".
Proof.
  unfold plain. split; apply (bool_decide_unpack _); vm_compute; exact I.
Qed.

Lemma sample_plain_document : plain_document Sample.doc.
Proof.
  intros e key He Hkey. apply list_elem_of_In in He. cbn in He.
  unfold plain.
  repeat (destruct He as [<-|He];
          [vm_compute in Hkey; try discriminate Hkey; injection Hkey as <-;
           apply (bool_decide_unpack _); vm_compute; exact I|]).
  destruct He.
Qed.

(** C2 fails as stated.  The page is in Portuguese, the Portuguese bundle
    is in the cache and has no greeting, the English bundle has one, and the
    greeting element is left as it was.  And on the English page whose first
    element is tagged constructor, a key the bundle does not have, the loop
    throws a TypeError at that element and never reaches the greeting, for
    which the bundle has a value. *)
Lemma C2_counterexample :
  (currentLang (translationManager Sample.portuguese) = "pt"
   ∧ fallbackLang (translationManager Sample.portuguese) = "en"
   ∧ translations (translationManager Sample.portuguese) !! "pt" = Some Sample.pt_bundle
   ∧ Sample.pt_bundle !! "greeting" = None
   ∧ translations (translationManager Sample.portuguese) !! "en" = Some Sample.en_bundle
   ∧ Sample.en_bundle !! "greeting" = Some "Hello"
   ∧ elements Sample.doc !! 0%nat = Some Sample.greeting_el
   ∧ getAttribute "data-key" Sample.greeting_el = Some "greeting"
   ∧ (TMjs.updatePageTranslations Edge.engine
        (translationManager Sample.portuguese) Sample.doc).1 = Return tt
   ∧ elements (TMjs.updatePageTranslations Edge.engine
                 (translationManager Sample.portuguese) Sample.doc).2 !! 0%nat =
     Some Sample.greeting_el)
  ∧ (currentLang (translationManager Sample.stale) = "en"
     ∧ translations (translationManager Sample.stale) !! "en" = Some Sample.stale_bundle
     ∧ Sample.stale_bundle !! "greeting" = Some "Hi"
     ∧ Sample.stale_bundle !! "constructor" = None
     ∧ elements Edge.doc !! 0%nat = Some Edge.about_el
     ∧ getAttribute "data-key" Edge.about_el = Some "constructor"
     ∧ elements Edge.doc !! 1%nat = Some Sample.greeting_el
     ∧ (TMjs.updatePageTranslations Edge.engine
          (translationManager Sample.stale) Edge.doc).1 = Throw TypeError
     ∧ elements (TMjs.updatePageTranslations Edge.engine
                   (translationManager Sample.stale) Edge.doc).2 !! 1%nat =
       Some Sample.greeting_el).
Proof. repeat split; by vm_compute. Qed.

Lemma C2_witness :
  ∃ d' : Document,
    TMjs.updatePageTranslations Edge.engine
      (translationManager Sample.portuguese) Sample.doc = (Return tt, d')
    ∧ elements d' !! 1%nat =
      Some (TM.apply_translation "Leia os <a href='docs.html'>documentos</a>"
              Sample.docs_el).
Proof.
  destruct (C2_key_is_looked_up_in_one_bundle Edge.engine
              (translationManager Sample.portuguese) Sample.doc 1
              Sample.docs_el "docs")
    as (d' & Hrun & Hres & _).
  - apply sample_plain_languages.
  - apply sample_plain_languages.
  - apply sample_plain_document.
  - reflexivity.
  - vm_compute. reflexivity.
  - vm_compute. discriminate.
  - exists d'. split; [exact Hrun | exact Hres].
Defined.

(** C8 fails as stated: the English value for docs holds an image next to
    the link, and all of it becomes the markup of the element. *)
Lemma C8_counterexample :
  currentLang Edge.mixed = "en"
  ∧ (translations Edge.mixed !! "en") ≫= (.!! "docs") =
    Some "<img src=x onerror=alert(1)> <a href='docs.html'>docs</a>"
  ∧ elements Sample.doc !! 1%nat = Some Sample.docs_el
  ∧ getAttribute "data-key" Sample.docs_el = Some "docs"
  ∧ (TMjs.updatePageTranslations Edge.engine Edge.mixed Sample.doc).1 = Return tt
  ∧ content <$> elements (TMjs.updatePageTranslations Edge.engine Edge.mixed
                            Sample.doc).2 !! 1%nat =
    Some (Markup "<img src=x onerror=alert(1)> <a href='docs.html'>docs</a>").
Proof. repeat split; by vm_compute. Qed.

Lemma C8_witness :
  ∃ (d' : Document) (element' : Element),
    TMjs.updatePageTranslations Edge.engine
      (translationManager Sample.portuguese) Sample.doc = (Return tt, d')
    ∧ elements d' !! 1%nat = Some element'
    ∧ content element' = Markup "Leia os <a href='docs.html'>documentos</a>".
Proof.
  destruct (C8_markup_only_with_anchor Edge.engine Sample.doc 1
              Sample.docs_el "docs")
    as (_ & _ & Hloop).
  - reflexivity.
  - vm_compute. reflexivity.
  - destruct (Hloop (translationManager Sample.portuguese))
      as (d' & element' & Hrun & Hlookup & Hordinary & _).
    + apply sample_plain_languages.
    + apply sample_plain_languages.
    + apply sample_plain_document.
    + exists d', element'. split; [exact Hrun|]. split; [exact Hlookup|].
      apply (Hordinary ltac:(vm_compute; discriminate)
               "Leia os <a href='docs.html'>documentos</a>"
               ltac:(vm_compute; reflexivity) ltac:(vm_compute; discriminate)).
      exists "Leia os ", "='docs.html'>documentos</a>". reflexivity.
Defined.

(** C7 fails as stated.  English is current and its bundle is in the cache,
    and setting English again still calls the tools loader hook and
    dispatches a languageChanged event.  Portuguese is current and its
    bundle could not be loaded, and setting Portuguese again requests it and
    the English bundle again.  And on the English page whose first element
    is tagged constructor, setting English again throws a TypeError. *)
Lemma C7_counterexample :
  (currentLang (translationManager Sample.stale) = "en"
   ∧ translations (translationManager Sample.stale) !! "en" = Some Sample.stale_bundle
   ∧ notifications Sample.stale = []
   ∧ (TMjs.setLanguage Edge.engine Sample.network true 2 "en" Sample.stale).1 = Return tt
   ∧ notifications (TMjs.setLanguage Edge.engine Sample.network true 2 "en"
                      Sample.stale).2 =
     [OnLanguageChange "en"; LanguageChanged "en"])
  ∧ (currentLang (translationManager Edge.unloaded) = "pt"
     ∧ translations (translationManager Edge.unloaded) !! "pt" = None
     ∧ requests Edge.unloaded = []
     ∧ (TMjs.setLanguage Edge.engine Sample.network false 2 "pt" Edge.unloaded).1 =
       Return tt
     ∧ requests (TMjs.setLanguage Edge.engine Sample.network false 2 "pt"
                   Edge.unloaded).2 =
       ["translations/pt.json"; "translations/en.json"])
  ∧ (currentLang (translationManager Edge.page) = "en"
     ∧ elements (document Edge.page) !! 0%nat = Some Edge.about_el
     ∧ getAttribute "data-key" Edge.about_el = Some "constructor"
     ∧ (TMjs.setLanguage Edge.engine Sample.network false 2 "en" Edge.page).1 =
       Throw TypeError).
Proof. repeat split; vm_compute; reflexivity. Qed.

Lemma C7_witness :
  ∃ p' : Page,
    TMjs.setLanguage Edge.engine Sample.network true 2 "en" Sample.stale =
    (Return tt, p')
    ∧ currentLang (translationManager p') = "en"
    ∧ notifications p' = [OnLanguageChange "en"; LanguageChanged "en"].
Proof.
  destruct (C7_setLanguage_again_notifies_again Edge.engine
              Sample.network true 2 "en" Sample.stale)
    as (p' & Hrun & Hcur & _ & _ & Hnotes & _).
  - lia.
  - reflexivity.
  - apply sample_plain_languages.
  - apply sample_plain_languages.
  - apply sample_plain_document.
  - exists p'. split; [exact Hrun|]. split; [exact Hcur | exact Hnotes].
Defined.

(** ** The browser's languages *)

Lemma omap_id_Some {A} (l : list A) : omap id (Some <$> l) = l.
Proof. induction l as [|x l IH]; cbn; [done|]. by rewrite IH. Qed.

Lemma omap_id_singleton {A} (o : option A) : omap id [o] = option_list o.
Proof. by destruct o. Qed.

(** The list the loop of [detectBrowserLanguage] runs over, from the
    settings of the browser. *)
Lemma browserLanguages_reported (navigator : Navigator) :
  TM.browserLanguages navigator =
  filter (fun s => s ≠ "")
    (option_list (nav_language navigator)
     ++ default [] (nav_languages navigator)
     ++ option_list (nav_userLanguage navigator)
     ++ option_list (nav_browserLanguage navigator)
     ++ option_list (nav_systemLanguage navigator))%list.
Proof.
  unfold TM.browserLanguages, filter_Boolean.
  rewrite !omap_app, omap_id_Some, omap_id_singleton.
  change [nav_userLanguage navigator; nav_browserLanguage navigator;
          nav_systemLanguage navigator]
    with ([nav_userLanguage navigator] ++ [nav_browserLanguage navigator]
            ++ [nav_systemLanguage navigator])%list.
  rewrite !omap_app, !omap_id_singleton.
  apply list_filter_iff. intros s. split.
  - intros Ht ->. done.
  - apply truthy_true.
Qed.

(** C4: the language [init] makes current is the saved preference when
    there is one (a non-empty string) and it is supported; otherwise the
    lowercased primary subtag of the first language the browser reports
    (language, then languages, then userLanguage, browserLanguage and
    systemLanguage) whose subtag is supported; otherwise the fallback
    language.  With supported languages en and pt: a browser with languages
    fr-FR, pt-BR, en-US and nothing saved gives pt; a saved pt gives pt
    whatever the browser reports, en included; and a browser language PT-BR
    gives pt. *)
Theorem C4_initial_language_priority
    (engine : Engine) (network : nat -> string -> FetchResult)
    (navigator : Navigator) (fuel : nat) (p : Page) :
  (2 ≤ fuel)%nat →
  let this := translationManager p in
  let savedLang := localStorage p !! "preferredLanguage" in
  let supported := supportedLanguages this in
  let saved_wins :=
    ∃ s, savedLang = Some s ∧ s ≠ "" ∧ s ∈ supported in
  let reported : list string :=
    filter (fun s => s ≠ "")
      (option_list (nav_language navigator)
       ++ default [] (nav_languages navigator)
       ++ option_list (nav_userLanguage navigator)
       ++ option_list (nav_browserLanguage navigator)
       ++ option_list (nav_systemLanguage navigator))%list in
  let run := TMjs.init engine network navigator fuel p in
  let resolved := currentLang (translationManager run.2) in
  (run.1 = Return tt ∨ run.1 = Throw TypeError)
  ∧ (∀ s, savedLang = Some s → s ≠ "" → s ∈ supported → resolved = s)
  ∧ (¬ saved_wins →
     ∀ pre b post,
       reported = (pre ++ b :: post)%list →
       (∀ x, x ∈ pre → primary_subtag x ∉ supported) →
       primary_subtag b ∈ supported →
       resolved = primary_subtag b)
  ∧ (¬ saved_wins →
     (∀ x, x ∈ reported → primary_subtag x ∉ supported) →
     resolved = fallbackLang this)
  ∧ (supported = ["en"; "pt"] → savedLang = None →
     nav_language navigator = Some "fr-FR" →
     nav_languages navigator = Some ["fr-FR"; "pt-BR"; "en-US"] →
     resolved = "pt")
  ∧ (supported = ["en"; "pt"] → savedLang = Some "pt" → resolved = "pt")
  ∧ (supported = ["en"; "pt"] → savedLang = None →
     nav_language navigator = Some "PT-BR" →
     resolved = "pt")
  ∧ primary_subtag "pt-BR" = "pt"
  ∧ primary_subtag "EN" = "en"
  ∧ primary_subtag "zh-Hant-TW" = "zh".
Proof.
  intros Hfuel this savedLang supported saved_wins reported run resolved.
  destruct (init_any engine network navigator fuel p Hfuel)
    as (r & p' & Hrun & Hout & Hcur & _).
  assert (resolved = TM.initialLanguage navigator this savedLang) as ->.
  { unfold resolved, run. by rewrite Hrun. }
  assert (run.1 = Return tt ∨ run.1 = Throw TypeError) as Hr.
  { unfold run. by rewrite Hrun. }
  assert (¬ saved_wins →
          ∀ pre b post,
            reported = (pre ++ b :: post)%list →
            (∀ x, x ∈ pre → primary_subtag x ∉ supported) →
            primary_subtag b ∈ supported →
            TM.initialLanguage navigator this savedLang = primary_subtag b)
    as Hfirst.
  { intros Hno pre b post Hl Hpre Hb. rewrite initialLanguage_detect by done.
    unfold TM.detectBrowserLanguage. rewrite browserLanguages_reported.
    fold reported. rewrite Hl. by apply detect_loop_first_match. }
  split; [done|].
  split; [intros s Hsaved Hs Hin; rewrite Hsaved; by apply initialLanguage_saved|].
  split; [done|].
  split.
  { intros Hno Hl. rewrite initialLanguage_detect by done.
    unfold TM.detectBrowserLanguage. rewrite browserLanguages_reported.
    by apply detect_loop_no_match. }
  split.
  { intros Hs Hsaved Hlang Hlangs.
    apply (Hfirst ltac:(by intros (s & Hsome & _); congruence)
             ["fr-FR"; "fr-FR"] "pt-BR"
             ("en-US" ::
                filter (fun s => s ≠ "")
                  (option_list (nav_userLanguage navigator)
                   ++ option_list (nav_browserLanguage navigator)
                   ++ option_list (nav_systemLanguage navigator)))%list).
    - unfold reported. rewrite Hlang, Hlangs.
      rewrite (filter_app _ (option_list _)), (filter_app _ (default _ _)).
      reflexivity.
    - intros x Hx. rewrite Hs.
      apply list_elem_of_In in Hx. cbn in Hx.
      destruct Hx as [<-|[<-|[]]]; apply (bool_decide_unpack _); vm_compute; exact I.
    - rewrite Hs. apply (bool_decide_unpack _). vm_compute. exact I. }
  split.
  { intros Hs Hsaved. rewrite Hsaved. apply initialLanguage_saved; [done|].
    fold supported. rewrite Hs. right. left. }
  split.
  { intros Hs Hsaved Hlang.
    apply (Hfirst ltac:(by intros (s & Hsome & _); congruence)
             [] "PT-BR"
             (filter (fun s => s ≠ "")
                (default [] (nav_languages navigator)
                 ++ option_list (nav_userLanguage navigator)
                 ++ option_list (nav_browserLanguage navigator)
                 ++ option_list (nav_systemLanguage navigator)))%list).
    - unfold reported. rewrite Hlang.
      rewrite (filter_app _ (option_list _)). reflexivity.
    - intros x Hx. by apply elem_of_nil in Hx.
    - rewrite Hs. apply (bool_decide_unpack _). vm_compute. exact I. }
  repeat split; vm_compute; reflexivity.
Qed.

Lemma C4_witness :
  currentLang
    (translationManager
       (TMjs.init Edge.engine Sample.network Sample.navigator 2 Sample.fresh).2) =
  "pt".
Proof.
  refine (proj1 (proj2 (proj2 (proj2 (proj2
            (C4_initial_language_priority Edge.engine Sample.network
               Sample.navigator 2 Sample.fresh _))))) _ _ _ _).
  - lia.
  - reflexivity.
  - reflexivity.
  - reflexivity.
  - reflexivity.
Defined.

(** ** The metadata for plain names, and for a name that is not *)

Lemma entry_lookup (table : gmap string (gmap string string))
    (contentType language : string) :
  CL.entry table contentType language = table !! contentType ≫= (.!! language).
Proof. unfold CL.entry. by destruct (table !! contentType). Qed.

(** X18: for a content type and a language that name no member of
    Object.prototype, [updatePageMeta] chooses the title in three steps, the
    entry of the titles table for the content type and the language, else
    the entry for the content type and en, else LinuxToys, and the
    description the same way, with LinuxToys documentation last; when the
    six elements exist it writes the title to [document.title], #page-title
    and the og/twitter title tags and the description to the three
    description tags.  The choice is the generic one exactly for a content
    type outside the four the tables know; for Irish the description of a
    known type is the English one although the titles have Irish entries.
    A content type derived from the path is always a known one that occurs
    in the path. *)
Theorem X18_metadata_in_three_steps_for_plain_names
    (engine : Engine) (ctype language : string) (p : Page) :
  plain ctype → plain language →
  let three_steps (table : gmap string (gmap string string)) (generic : string) :=
    match table !! ctype ≫= (.!! language) with
    | Some t => t
    | None =>
        match table !! ctype ≫= (.!! "en") with
        | Some t => t
        | None => generic
        end
    end in
  let title := three_steps CL.titles "LinuxToys" in
  let description := three_steps CL.descriptions "LinuxToys documentation" in
  CLjs.chosen_title engine ctype language = Some (Str title)
  ∧ CLjs.chosen_description engine ctype language = Some (Str description)
  ∧ ((∀ i, i ∈ ["page-title"; "page-description"; "og-description";
                "twitter-description"; "og-title"; "twitter-title"] →
           is_Some (getElementById i (document p))) →
     ∃ p' : Page,
       CLjs.updatePageMeta engine ctype language p = (Return tt, p')
       ∧ doc_title (document p') = title
       ∧ content <$> element_by_id "page-title" (document p') = Some (Text title)
       ∧ (∀ i, i ∈ ["og-title"; "twitter-title"] →
          from_option (getAttribute "content") None
            (element_by_id i (document p')) = Some title)
       ∧ (∀ i, i ∈ ["page-description"; "og-description"; "twitter-description"] →
          from_option (getAttribute "content") None
            (element_by_id i (document p')) = Some description))
  ∧ (ctype ∈ known_content_types →
     title ≠ "LinuxToys" ∧ description ≠ "LinuxToys documentation")
  ∧ (ctype ∉ known_content_types →
     title = "LinuxToys" ∧ description = "LinuxToys documentation")
  ∧ (ctype ∈ known_content_types → language = "ga" →
     is_Some (CL.titles !! ctype ≫= (.!! "ga"))
     ∧ CL.descriptions !! ctype ≫= (.!! "ga") = None
     ∧ Some description = CL.descriptions !! ctype ≫= (.!! "en"))
  ∧ (∀ pathname : string,
       CL.getContentTypeFromPath pathname = Some ctype →
       ctype ∈ known_content_types ∧ includes pathname ctype = true).
Proof.
  intros Hc Hl three_steps title description.
  destruct tables_cover_known_types as (Htitles & Hdescriptions & Hknown).
  destruct tables_truthy as [Ttitles Tdescriptions].
  assert (CLjs.chosen_title engine ctype language = Some (Str title)) as Htitle.
  { unfold CLjs.chosen_title. rewrite chosen_plain by done.
    rewrite chosen_from_table by done. by rewrite !entry_lookup. }
  assert (CLjs.chosen_description engine ctype language = Some (Str description))
    as Hdescription.
  { unfold CLjs.chosen_description. rewrite chosen_plain by done.
    rewrite chosen_from_table by done. by rewrite !entry_lookup. }
  split; [done|]. split; [done|].
  split.
  { intros Hids.
    destruct (Hids "page-title") as [n1 H1]; [set_solver|].
    destruct (Hids "page-description") as [n2 H2]; [set_solver|].
    destruct (Hids "og-description") as [n3 H3]; [set_solver|].
    destruct (Hids "twitter-description") as [n4 H4]; [set_solver|].
    destruct (Hids "og-title") as [n5 H5]; [set_solver|].
    destruct (Hids "twitter-title") as [n6 H6]; [set_solver|].
    eexists. split.
    - rewrite (updatePageMeta_chosen engine ctype language _ _ Htitle Hdescription).
      by apply meta_writes.
    - cbn [document set_document to_text].
      by apply meta_written. }
  split.
  { intros Hk. rewrite Forall_forall in Hknown.
    destruct (Hknown _ Hk) as [[rt Hrt] [rd Hrd]].
    destruct (Htitles _ _ Hrt) as (_ & [ten Hten] & _ & Hgt).
    destruct (Hdescriptions _ _ Hrd) as (_ & [den Hden] & _ & Hgd).
    unfold title, description, three_steps. rewrite Hrt, Hrd. cbn.
    rewrite Hten, Hden. split.
    - destruct (rt !! language) as [t|] eqn:Ht; [exact (Hgt _ _ Ht) | exact (Hgt _ _ Hten)].
    - destruct (rd !! language) as [t|] eqn:Ht; [exact (Hgd _ _ Ht) | exact (Hgd _ _ Hden)]. }
  split.
  { intros Hk.
    assert (CL.titles !! ctype = None) as Hrt.
    { destruct (CL.titles !! ctype) as [row|] eqn:Hrow; [|done].
      by destruct (Htitles _ _ Hrow) as [? _]. }
    assert (CL.descriptions !! ctype = None) as Hrd.
    { destruct (CL.descriptions !! ctype) as [row|] eqn:Hrow; [|done].
      by destruct (Hdescriptions _ _ Hrow) as [? _]. }
    unfold title, description, three_steps. by rewrite Hrt, Hrd. }
  split.
  { intros Hk ->. rewrite Forall_forall in Hknown.
    destruct (Hknown _ Hk) as [[rt Hrt] [rd Hrd]].
    destruct (Htitles _ _ Hrt) as (_ & _ & Htga & _).
    destruct (Hdescriptions _ _ Hrd) as (_ & [den Hden] & Hdga & _).
    unfold description, three_steps. rewrite Hrt, Hrd. cbn.
    by rewrite Hdga, Hden. }
  intros pathname. apply getContentTypeFromPath_known.
Qed.

Lemma X18_witness :
  ∃ p' : Page,
    CLjs.updatePageMeta Edge.engine "handbook" "pt" Sample.fresh = (Return tt, p')
    ∧ doc_title (document p') = "Manual do Desenvolvedor - LinuxToys".
Proof.
  destruct (X18_metadata_in_three_steps_for_plain_names Edge.engine
              "handbook" "pt" Sample.fresh)
    as (_ & _ & Hwrites & _).
  - unfold plain. apply (bool_decide_unpack _). vm_compute. exact I.
  - apply sample_plain_languages.
  - destruct (Hwrites sample_meta_elements) as (p' & Hrun & Htitle & _).
    exists p'. split; [exact Hrun|]. rewrite Htitle. vm_compute. reflexivity.
Defined.



(** * More of the methods, with the lookups as the engine makes them *)

(** X4: on a manager whose languages name no member of Object.prototype,
    [getTranslation] gives the value the page's bundle has for the key when
    it has a non-empty one.  Otherwise it gives the key itself when the key
    names no member of Object.prototype or the bundle has an empty value for
    it; for a key such as constructor that the bundle does not have, it
    gives the inherited member, a function, not the key.  For a non-empty
    key the result is never falsy.  [updatePageTranslations] does not follow
    it: on a page with plain keys, an element whose key has no non-empty
    value is left as it was, the key is not written to it; and the first
    element whose key is an inherited name that the bundle lacks stops the
    loop with a TypeError, after at most its title attribute was written. *)
Theorem X4_getTranslation_falls_back_to_the_key
    (engine : Engine) (this : TranslationManager) (key : string) :
  plain (currentLang this) → plain (fallbackLang this) →
  let chosen : Bundle :=
    match translations this !! currentLang this with
    | Some b => b
    | None =>
        match translations this !! fallbackLang this with
        | Some b => b
        | None => ∅
        end
    end in
  (∀ t, chosen !! key = Some t → t ≠ "" →
        TMjs.getTranslation engine this key = Some (Str t))
  ∧ (chosen !! key = Some "" → TMjs.getTranslation engine this key = Some (Str key))
  ∧ (chosen !! key = None → plain key →
     TMjs.getTranslation engine this key = Some (Str key))
  ∧ (chosen !! key = None → key ∈ Object_prototype →
     TMjs.getTranslation engine this key =
     Some (Other true (member_text engine key)))
  ∧ (key ≠ "" →
     ∃ v, TMjs.getTranslation engine this key = Some v ∧ value_truthy v = true)
  ∧ (∀ (d : Document) (i : nat) (element : Element),
       elements d !! i = Some element →
       getAttribute "data-key" element = Some key →
       key ≠ "toggle-button" →
       (plain_document d →
        chosen !! key = None ∨ chosen !! key = Some "" →
        ∃ d', TMjs.updatePageTranslations engine this d = (Return tt, d')
              ∧ elements d' !! i = Some element)
       ∧ (chosen !! key = None → key ∈ Object_prototype →
          (∀ j e, (j < i)%nat → elements d !! j = Some e → ¬ stops chosen e) →
          ∃ d', TMjs.updatePageTranslations engine this d = (Throw TypeError, d')
                ∧ elements d' !! i =
                  Some (TMjs.write_title (member_text engine key) element)
                ∧ ∀ n, (i < n)%nat → elements d' !! n = elements d !! n)).
Proof.
  intros Hcur Hfb chosen.
  assert (TMjs.getTranslation engine this key =
          match lookup engine (Own chosen) key with
          | Some v => Some (value_or v (Str key))
          | None => None
          end) as Hget.
  { unfold TMjs.getTranslation. by rewrite currentTranslations_plain. }
  split; [|split; [|split; [|split; [|split]]]].
  - intros t Ht Hne%truthy_true. rewrite Hget, (lookup_own_found _ _ _ _ Ht).
    unfold value_or. cbn. by rewrite Hne.
  - intros Ht. by rewrite Hget, (lookup_own_found _ _ _ _ Ht).
  - intros Hnone Hplain. rewrite Hget, lookup_own by done. by rewrite Hnone.
  - intros Hnone Hin. by rewrite Hget, lookup_own_inherited.
  - intros Hkey%truthy_true. rewrite Hget. unfold lookup, property.
    destruct (chosen !! key) as [t|]; [|case_bool_decide];
      eexists; (split; [done|]); unfold value_or; cbn; try done.
    by destruct (truthy t) eqn:Ht.
  - intros d i element He Hdk Htoggle. split.
    + intros Hd Hvalue. exists (TM.updatePageTranslations this d).
      split; [by apply updatePageTranslations_plain|].
      rewrite updatePageTranslations_lookup, He. cbn.
      unfold translated. rewrite Hdk, bool_decide_eq_false_2 by done.
      change (TM.currentTranslations this) with chosen.
      by destruct Hvalue as [-> | ->].
    + intros Hnone Hin Hbefore.
      destruct (updatePageTranslations_stops engine this d i element key
                  Hcur Hfb He Hdk Htoggle Hin Hnone Hbefore)
        as (d' & Hrun & Hi & _ & Hafter).
      by exists d'.
Qed.

Lemma X4_witness :
  TMjs.getTranslation Edge.engine (translationManager Sample.portuguese) "greeting" =
  Some (Str "greeting").
Proof.
  refine (proj1 (proj2 (proj2
            (X4_getTranslation_falls_back_to_the_key Edge.engine
               (translationManager Sample.portuguese) "greeting" _ _))) _ _).
  - apply sample_plain_languages.
  - apply sample_plain_languages.
  - vm_compute. reflexivity.
  - unfold plain. apply (bool_decide_unpack _). vm_compute. exact I.
Defined.

(** X6: whatever the engine, the cache and the keys are,
    [updatePageTranslations] returns or throws a TypeError, nothing else,
    and either way it has kept the language of the document and, of every
    element, the id, the class list, the style and every attribute but
    title; it has given no element a title attribute and taken none
    away. *)
Theorem X6_updatePageTranslations_frame
    (engine : Engine) (this : TranslationManager) (d : Document) :
  let run := TMjs.updatePageTranslations engine this d in
  (run.1 = Return tt ∨ run.1 = Throw TypeError)
  ∧ doc_lang run.2 = doc_lang d
  ∧ (∀ (i : nat) (e : Element),
       elements d !! i = Some e →
       ∃ e' : Element,
         elements run.2 !! i = Some e'
         ∧ el_id e' = el_id e
         ∧ classList e' = classList e
         ∧ style e' = style e
         ∧ hasAttribute "title" e' = hasAttribute "title" e
         ∧ (∀ k, k ≠ "title" → getAttribute k e' = getAttribute k e)).
Proof.
  intros run.
  destruct (updatePageTranslations_step engine this d) as [Hout [Hlang Hkept]].
  split; [done|]. split; [done|].
  intros i e He. specialize (Hkept i). rewrite He in Hkept.
  fold run in Hkept. destruct (elements run.2 !! i) as [e'|]; [|done].
  exists e'. split; [done|]. exact Hkept.
Qed.

(** X10: [init] can only fail with a TypeError, thrown when the
    translations are applied, and it returns when the language it settles
    on, the fallback language and the translation keys of the page name no
    member of Object.prototype.  Either way its first request is for the
    bundle of the fallback language; when the language it settles on is
    another one it then requests that bundle, and when this load fails it
    requests the fallback bundle once more; it makes no other request.  It
    stores no preference, sends no notification, and leaves the document's
    language attribute and the content loader alone. *)
Theorem X10_init_requests_and_frame
    (engine : Engine) (network : nat -> string -> FetchResult)
    (navigator : Navigator) (fuel : nat) (p : Page) :
  (2 ≤ fuel)%nat →
  let this := translationManager p in
  let fb := fallbackLang this in
  let initial :=
    TM.initialLanguage navigator this (localStorage p !! "preferredLanguage") in
  let n := length (requests p) in
  let run := TMjs.init engine network navigator fuel p in
  (run.1 = Return tt ∨ run.1 = Throw TypeError)
  ∧ (plain initial → plain fb → plain_document (document p) → run.1 = Return tt)
  ∧ requests run.2 =
    (requests p ++
     translations_url fb ::
     (if bool_decide (initial = fb) then []
      else translations_url initial ::
           match bundle_served network (S n) initial with
           | Some _ => []
           | None => [translations_url fb]
           end))%list
  ∧ localStorage run.2 = localStorage p
  ∧ notifications run.2 = notifications p
  ∧ contentLoader run.2 = contentLoader p
  ∧ doc_lang (document run.2) = doc_lang (document p).
Proof.
  intros Hfuel this fb initial n run.
  destruct (init_any engine network navigator fuel p Hfuel)
    as (r & p' & Hrun & Hout & _ & _ & _ & Hreq & Hls & Hnt & Hcl & Hlang & Hplain).
  unfold run. rewrite Hrun. cbn [fst snd]. by repeat split.
Qed.

Lemma X10_witness :
  requests (TMjs.init Edge.engine Sample.network Sample.navigator 2 Sample.fresh).2 =
  ["translations/en.json"; "translations/pt.json"; "translations/en.json"].
Proof.
  refine (eq_trans
            (proj1 (proj2 (proj2
               (X10_init_requests_and_frame Edge.engine Sample.network
                  Sample.navigator 2 Sample.fresh _)))) _).
  - lia.
  - vm_compute. reflexivity.
Defined.

(** X12: [setLanguage] does not check that the language is supported or
    that its bundle could be loaded.  On a page whose keys and fallback
    language name no member of Object.prototype, when the bundle of such a
    language other than the fallback is neither cached nor served, the
    language still becomes current, is written to the document's language
    attribute and is stored as the preference, after one request for its
    bundle and one for the fallback bundle; the cache gets no entry for it,
    and the page is translated with the fallback bundle: the one just
    served, or else the one in the cache, or else nothing.  A language that
    does name a member of Object.prototype passes for loaded: nothing is
    requested for it and the cache is left as it was. *)
Theorem X12_setLanguage_after_a_failed_load
    (engine : Engine) (network : nat -> string -> FetchResult)
    (toolsLoader : bool) (fuel : nat) (language : string) (p : Page) :
  (2 ≤ fuel)%nat →
  let this := translationManager p in
  let n := length (requests p) in
  let run := TMjs.setLanguage engine network toolsLoader fuel language p in
  (plain language → plain (fallbackLang this) → plain_document (document p) →
   translations this !! language = None →
   bundle_served network n language = None →
   language ≠ fallbackLang this →
   ∃ p' : Page,
     run = (Return tt, p')
     ∧ currentLang (translationManager p') = language
     ∧ doc_lang (document p') = language
     ∧ localStorage p' !! "preferredLanguage" = Some language
     ∧ requests p' =
       (requests p ++ [translations_url language;
                       translations_url (fallbackLang this)])%list
     ∧ translations (translationManager p') !! language = None
     ∧ TMjs.currentTranslations (translationManager p') =
       Own match bundle_served network (S n) (fallbackLang this) with
           | Some b => b
           | None => default ∅ (translations this !! fallbackLang this)
           end)
  ∧ (language ∈ Object_prototype →
     (run.1 = Return tt ∨ run.1 = Throw TypeError)
     ∧ requests run.2 = requests p
     ∧ translations (translationManager run.2) = translations this
     ∧ currentLang (translationManager run.2) = language).
Proof.
  intros Hfuel this n run. split; [|by apply setLanguage_inherited].
  intros Hl Hfb Hd Hnone Hserved Hne.
  unfold run. rewrite setLanguage_plain by done.
  rewrite setLanguage_not_cached by done.
  rewrite (loadTranslations_eq network fuel language p Hfuel). cbn zeta.
  fold this n. rewrite Hserved, bool_decide_eq_true_2 by done.
  eexists. split; [done|].
  match goal with |- context [switch_to _ _ ?q0] =>
    destruct (switch_to_facts toolsLoader language q0) as (Htm & Hdl & Hls & Hrq & _);
    set (q := q0) in *
  end.
  cbn zeta in *. rewrite Htm, Hdl, Hls, Hrq.
  split; [done|]. split; [done|]. split; [apply lookup_insert_eq|].
  assert (fallbackLang (translationManager q) = fallbackLang this) as Hfq.
  { unfold q. by destruct (bundle_served network (S n) (fallbackLang this)). }
  rewrite currentTranslations_plain; cbn; [|done|by rewrite Hfq].
  unfold TM.currentTranslations, q.
  destruct (bundle_served network (S n) (fallbackLang this)) as [b|]; cbn;
    fold this.
  - split; [by rewrite <- app_assoc|].
    rewrite lookup_insert_ne by done. split; [done|].
    by rewrite Hnone, lookup_insert_eq.
  - split; [by rewrite <- app_assoc|]. split; [done|].
    rewrite Hnone. by destruct (translations this !! fallbackLang this).
Qed.

Lemma X12_witness :
  ∃ p' : Page,
    TMjs.setLanguage Edge.engine Sample.network false 2 "pt" Sample.fresh =
    (Return tt, p')
    ∧ currentLang (translationManager p') = "pt"
    ∧ translations (translationManager p') !! "pt" = None
    ∧ TMjs.currentTranslations (translationManager p') = Own Sample.en_bundle.
Proof.
  destruct (proj1 (X12_setLanguage_after_a_failed_load Edge.engine
                     Sample.network false 2 "pt" Sample.fresh
                     ltac:(lia)))
    as (p' & Hrun & Hcur & _ & _ & _ & Hnone & Hused).
  - apply sample_plain_languages.
  - apply sample_plain_languages.
  - apply sample_plain_document.
  - vm_compute. reflexivity.
  - vm_compute. reflexivity.
  - vm_compute. discriminate.
  - exists p'. split; [exact Hrun|]. split; [exact Hcur|].
    split; [exact Hnone|]. rewrite Hused. reflexivity.
Defined.

(** ** Loading the content *)

Lemma updatePageMeta_js_preserves {X} (engine : Engine) (obs : Page → X)
    (contentType language : string) :
  (∀ g p, obs (set_document g p) = obs p) →
  preserves obs (CLjs.updatePageMeta engine contentType language).
Proof.
  intros Hobs. unfold CLjs.updatePageMeta.
  destruct (CLjs.chosen_title _ _ _); [|apply preserves_throw].
  cbn zeta.
  apply preserves_bind; [by apply preserves_modify|]. intros _.
  apply preserves_bind; [by apply preserves_with_element_by_id|intros _].
  destruct (CLjs.chosen_description _ _ _); [|apply preserves_throw].
  cbn zeta.
  do 4 (apply preserves_bind; [by apply preserves_with_element_by_id|intros _]).
  by apply preserves_with_element_by_id.
Qed.

Lemma updatePageMeta_js_triple (engine : Engine) (PD : Document → Prop)
    (contentType language : string) :
  (∀ s d, PD d → PD (set_doc_title s d)) →
  (∀ n f d, (∀ e, el_id (f e) = el_id e) → (∀ e, classList (f e) = classList e) →
            PD d → PD (update_element n f d)) →
  triple (fun q => PD (document q))
    (CLjs.updatePageMeta engine contentType language)
    (fun _ q => PD (document q)) (fun q => PD (document q)).
Proof.
  intros Htitle Hwrite. unfold CLjs.updatePageMeta.
  destruct (CLjs.chosen_title _ _ _); [|by apply triple_throw].
  cbn zeta.
  apply (triple_bind _ (fun _ q => PD (document q))).
  { apply triple_modify. intros p HP. by apply Htitle. }
  intros _.
  apply (triple_bind _ (fun _ q => PD (document q))).
  { apply triple_with_element_by_id;
      [intros n p _ HP; by apply Hwrite | by intros p _ HP]. }
  intros _.
  destruct (CLjs.chosen_description _ _ _); [|by apply triple_throw].
  cbn zeta.
  do 4 (apply (triple_bind _ (fun _ q => PD (document q)));
        [apply triple_with_element_by_id;
           [intros n p _ HP; by apply Hwrite | by intros p _ HP]
        |intros _]).
  apply triple_with_element_by_id; [intros n p _ HP; by apply Hwrite | by intros p _ HP].
Qed.

Section LoadContentJs.

Variable engine : Engine.
Variable network : nat -> string -> FetchResult.
Variable marked_parse : string -> option string.

Lemma loadContent_js_unfold :
  CLjs.loadContent engine network marked_parse =
  (p ← get;
   let loadingEl := getElementById "content-loading" (document p) in
   let contentEl := getElementById "markdown-content" (document p) in
   let errorEl := getElementById "content-error" (document p) in
   on_element loadingEl (classList_remove "hidden");;
   on_element contentEl (classList_add "hidden");;
   on_element errorEl (classList_add "hidden");;
   try_catch (loadContent_try_js engine network marked_parse loadingEl contentEl)
     (fun error => CL.showError)).
Proof. reflexivity. Qed.

Section Panels.

(** A document in which the three panels are at [nL], [nC] and [nE]. *)
Variable d0 : Document.
Variables nL nC nE : nat.
Hypothesis HL : getElementById "content-loading" d0 = Some nL.
Hypothesis HC : getElementById "markdown-content" d0 = Some nC.
Hypothesis HE : getElementById "content-error" d0 = Some nE.

Lemma loadContent_try_js_triple :
  triple
    (fun q => ids (document q) = ids d0 ∧ has_hidden nE (document q) = Some true)
    (loadContent_try_js engine network marked_parse (Some nL) (Some nC))
    (fun _ q =>
       ids (document q) = ids d0
       ∧ has_hidden nL (document q) = Some true
       ∧ has_hidden nC (document q) = Some false
       ∧ has_hidden nE (document q) = Some true)
    (fun q => ids (document q) = ids d0).
Proof.
  destruct (panels_distinct d0 nL nC nE HL HC HE) as (HLC & HLE & HCE).
  set (PD := fun d => ids d = ids d0 ∧ has_hidden nE d = Some true).
  assert (∀ n f d, (∀ e, el_id (f e) = el_id e) →
                   (∀ e, classList (f e) = classList e) →
                   PD d → PD (update_element n f d)) as Hwrite.
  { intros n f d Hid Hcl [Hids Hh]. split.
    - by rewrite ids_update.
    - by rewrite has_hidden_update_classes. }
  unfold loadContent_try_js.
  apply (triple_bind _ (fun _ q => PD (document q))).
  { by intros q Hq. }
  intros p0. cbn zeta.
  apply (triple_bind _ (fun _ q => PD (document q))).
  { apply (fetchMarkdownContent_triple network PD). }
  unfold loadContent_render_js.
  intros [content|]; [|apply triple_throw; by intros p [? _]].
  destruct (truthy content); [|apply triple_throw; by intros p [? _]].
  destruct (marked_parse content) as [htmlContent|];
    [|apply triple_throw; by intros p [? _]].
  apply (triple_bind _ (fun _ q => PD (document q))).
  { apply triple_on_element; [|done]. intros i p _ HP. by apply Hwrite. }
  intros _.
  apply (triple_bind _ (fun _ q => PD (document q))).
  { eapply triple_weaken; [apply (updatePageMeta_js_triple engine PD)| | |].
    - by intros s d.
    - exact Hwrite.
    - done.
    - done.
    - by intros p [? _]. }
  intros _.
  apply (triple_bind _ (fun _ q => PD (document q)
                                   ∧ has_hidden nL (document q) = Some true)).
  { apply triple_on_element; [|done]. intros i p [= <-] [Hids Hh]. cbn [document set_document].
    split; [split|].
    - by rewrite ids_update.
    - by rewrite has_hidden_update_ne.
    - apply has_hidden_add. by eapply (panel_lookup d0). }
  intros _.
  apply (triple_bind _ (fun _ q =>
                          ids (document q) = ids d0
                          ∧ has_hidden nL (document q) = Some true
                          ∧ has_hidden nC (document q) = Some false
                          ∧ has_hidden nE (document q) = Some true)).
  { apply triple_on_element; [|done]. intros i p [= <-] [[Hids Hh] HhL]. cbn [document set_document].
    split; [by rewrite ids_update|].
    split; [by rewrite has_hidden_update_ne|].
    split; [apply has_hidden_remove; by eapply (panel_lookup d0)|].
    by rewrite has_hidden_update_ne. }
  intros _. by apply triple_modify.
Qed.

(** With the panels there, [loadContent] returns, and the page shows the
    content or the error. *)
Lemma loadContent_js_ends (p : Page) :
  ids (document p) = ids d0 →
  ∃ p' : Page,
    CLjs.loadContent engine network marked_parse p = (Return tt, p')
    ∧ (view (document p') = Some ContentShown
       ∨ view (document p') = Some ErrorShown).
Proof.
  intros Hids. destruct (panels_distinct d0 nL nC nE HL HC HE) as (HLC & HLE & HCE).
  assert (triple (fun q => ids (document q) = ids d0)
            (on_element (Some nL) (classList_remove "hidden");;
             on_element (Some nC) (classList_add "hidden");;
             on_element (Some nE) (classList_add "hidden");;
             try_catch
               (loadContent_try_js engine network marked_parse (Some nL) (Some nC))
               (fun _ => CL.showError))
            (fun _ q =>
               ids (document q) = ids d0
               ∧ (view (document q) = Some ContentShown
                  ∨ view (document q) = Some ErrorShown))
            (fun _ => False)) as Hbody.
  { apply (triple_bind _ (fun _ q => ids (document q) = ids d0)).
    { apply triple_on_element; [|done]. intros i q _ Hq.
      cbn [document set_document]. by rewrite ids_update. }
    intros _.
    apply (triple_bind _ (fun _ q => ids (document q) = ids d0)).
    { apply triple_on_element; [|done]. intros i q _ Hq.
      cbn [document set_document]. by rewrite ids_update. }
    intros _.
    apply (triple_bind _ (fun _ q => ids (document q) = ids d0
                                     ∧ has_hidden nE (document q) = Some true)).
    { apply triple_on_element; [|done]. intros i q [= <-] Hq.
      cbn [document set_document].
      split; [by rewrite ids_update|].
      apply has_hidden_add. by eapply (panel_lookup d0). }
    intros _.
    apply (triple_try_catch _ _ _ (fun q => ids (document q) = ids d0)).
    - eapply triple_weaken; [apply loadContent_try_js_triple|done| |done].
      intros _ q (Hq & HhL & HhC & HhE). split; [done|]. left.
      rewrite (view_has_hidden _ nL nC nE);
        rewrite ?(getElementById_same_ids _ (document q) d0 Hq); try done.
      by rewrite HhL, HhC, HhE.
    - intros _.
      eapply triple_weaken; [apply (showError_triple d0 nL nC nE HL HC HE)|done| |done].
      intros _ q (Hq & HhL & HhC & HhE). split; [done|]. right.
      rewrite (view_has_hidden _ nL nC nE);
        rewrite ?(getElementById_same_ids _ (document q) d0 Hq); try done.
      by rewrite HhL, HhC, HhE. }
  specialize (Hbody p Hids).
  rewrite loadContent_js_unfold. unfold mbind at 1, M_bind at 1, bind at 1, get at 1.
  cbn zeta.
  rewrite !(getElementById_same_ids _ (document p) d0 Hids), HL, HC, HE.
  match goal with |- ∃ p', ?m p = _ ∧ _ => destruct (m p) as [[[]|e|] p'] end;
    [|done..].
  exists p'. by destruct Hbody.
Qed.

End Panels.

Section Frame.

Context {X : Type} (obs : Page → X).
Hypothesis obs_document : ∀ g p, obs (set_document g p) = obs p.
Hypothesis obs_notifications : ∀ g p, obs (set_notifications g p) = obs p.

Lemma loadContent_render_js_preserves (loadingEl contentEl : option nat)
    (contentType currentLang : string) (content : option string) :
  preserves obs
    (loadContent_render_js engine marked_parse loadingEl contentEl contentType
       currentLang content).
Proof.
  unfold loadContent_render_js.
  destruct content as [content|]; [|apply preserves_throw].
  destruct (truthy content); [|apply preserves_throw].
  destruct (marked_parse content); [|apply preserves_throw].
  apply preserves_bind; [by apply preserves_on_element|intros _].
  apply preserves_bind; [by apply updatePageMeta_js_preserves|intros _].
  do 2 (apply preserves_bind; [by apply preserves_on_element|intros _]).
  by apply preserves_modify.
Qed.

Hypothesis obs_requests : ∀ g p, obs (set_requests g p) = obs p.

Lemma loadContent_js_preserves :
  preserves obs (CLjs.loadContent engine network marked_parse).
Proof.
  rewrite loadContent_js_unfold.
  apply preserves_bind; [apply preserves_get|]. intros p.
  do 3 (apply preserves_bind; [by apply preserves_on_element|intros _]).
  apply preserves_try_catch; [|intros _; by apply showError_preserves].
  apply preserves_bind; [apply preserves_get|]. intros p'.
  apply preserves_bind; [by apply fetchMarkdownContent_preserves|].
  intros content. apply loadContent_render_js_preserves.
Qed.

End Frame.

(** The requests of [loadContent] are those of its fetch. *)
Lemma loadContent_js_requests (p : Page) :
  panels_exist (document p) →
  let currentLang := currentLang (translationManager p) in
  let contentType := default "null" (contentType (contentLoader p)) in
  ∃ rest : list string,
    requests (CLjs.loadContent engine network marked_parse p).2 =
      (requests p ++
       ("content/" +:+ currentLang +:+ "/" +:+ contentType +:+ ".md") :: rest)%list
    ∧ (rest = [] ∨ rest = ["content/en/" +:+ contentType +:+ ".md"]).
Proof.
  intros ([nL HL] & [nC HC] & [nE HE]) currentLang contentType.
  rewrite loadContent_js_unfold, get_bind. cbn zeta. rewrite HL, HC, HE.
  unfold mbind, M_bind, bind, on_element, modify. cbn [fst snd].
  unfold try_catch, loadContent_try_js. rewrite get_bind. cbn zeta.
  cbn [translationManager contentLoader set_document].
  fold currentLang contentType.
  unfold mbind, M_bind, bind.
  match goal with |- context [CL.fetchMarkdownContent network contentType currentLang ?q] =>
    destruct (fetchMarkdownContent_facts network contentType currentLang q)
      as (r & p1 & rest & -> & Hreq & Hrest & _);
    cbn [requests set_document] in Hreq
  end.
  exists rest. split; [|done].
  pose proof (loadContent_render_js_preserves requests
                ltac:(done) ltac:(done) (Some nL) (Some nC)
                contentType currentLang r p1) as Hrender.
  destruct (loadContent_render_js _ _ _ _ _ _ _ p1) as [[[]|e|] p2]; cbn [snd] in *.
  - by rewrite Hrender.
  - rewrite (showError_preserves requests ltac:(done) p2). by rewrite Hrender.
  - by rewrite Hrender.
Qed.

End LoadContentJs.

(** X13: when the three panels exist, [loadContent] never throws, whatever
    content type and language it is given, and ends with the page showing
    either the content or the error panel, never the loading panel.  It
    makes one request for the document in the current language and at most
    one more, for the English document; it changes nothing of the manager,
    the stored preference or the content loader. *)
Theorem X13_loadContent_ends_in_content_or_error
    (engine : Engine) (network : nat -> string -> FetchResult)
    (marked_parse : string -> option string) (p : Page) :
  panels_exist (document p) →
  let currentLang := currentLang (translationManager p) in
  let contentType := default "null" (contentType (contentLoader p)) in
  ∃ p' : Page,
    CLjs.loadContent engine network marked_parse p = (Return tt, p')
    ∧ (view (document p') = Some ContentShown
       ∨ view (document p') = Some ErrorShown)
    ∧ (∃ rest : list string,
         requests p' =
           (requests p ++
            ("content/" +:+ currentLang +:+ "/" +:+ contentType +:+ ".md")
              :: rest)%list
         ∧ (rest = [] ∨ rest = ["content/en/" +:+ contentType +:+ ".md"]))
    ∧ translationManager p' = translationManager p
    ∧ localStorage p' = localStorage p
    ∧ contentLoader p' = contentLoader p.
Proof.
  intros Hpanels currentLang contentType.
  pose proof Hpanels as ([nL HL] & [nC HC] & [nE HE]).
  destruct (loadContent_js_ends engine network marked_parse (document p) nL nC nE
              HL HC HE p eq_refl) as (p' & Hrun & Hview).
  exists p'. split; [done|]. split; [done|].
  pose proof (loadContent_js_requests engine network marked_parse p Hpanels) as Hreq.
  pose proof (loadContent_js_preserves engine network marked_parse translationManager
                ltac:(done) ltac:(done) ltac:(done) p) as Htm.
  pose proof (loadContent_js_preserves engine network marked_parse localStorage
                ltac:(done) ltac:(done) ltac:(done) p) as Hls.
  pose proof (loadContent_js_preserves engine network marked_parse contentLoader
                ltac:(done) ltac:(done) ltac:(done) p) as Hcl.
  rewrite Hrun in Hreq, Htm, Hls, Hcl. by cbn [snd] in *.
Qed.

Lemma X13_witness :
  ∃ p' : Page,
    CLjs.loadContent Edge.engine Sample.network Sample.marked_parse Sample.fresh =
    (Return tt, p')
    ∧ (view (document p') = Some ContentShown
       ∨ view (document p') = Some ErrorShown).
Proof.
  destruct (X13_loadContent_ends_in_content_or_error
              Edge.engine Sample.network Sample.marked_parse Sample.fresh)
    as (p' & Hrun & Hview & _).
  - repeat split; vm_compute; eexists; reflexivity.
  - exists p'. split; [exact Hrun | exact Hview].
Defined.

(** * The two readings agree on plain pages *)

(** For a content type and a language that name no member of
    Object.prototype, [updatePageMeta] is what the own properties alone
    make it. *)
Lemma updatePageMeta_plain (engine : Engine) (contentType language : string) :
  plain contentType → plain language →
  CLjs.updatePageMeta engine contentType language =
  CL.updatePageMeta contentType language.
Proof.
  intros Hc Hl.
  rewrite (updatePageMeta_chosen engine contentType language
             (Str (CL.chosen_title contentType language))
             (Str (CL.chosen_description contentType language)));
    [done | by apply chosen_plain | by apply chosen_plain].
Qed.

(** For languages and a key that name no member of Object.prototype,
    [getTranslation] is what the own properties alone make it. *)
Lemma getTranslation_plain (engine : Engine) (this : TranslationManager)
    (key : string) :
  plain (currentLang this) → plain (fallbackLang this) → plain key →
  TMjs.getTranslation engine this key = Some (Str (TM.getTranslation this key)).
Proof.
  intros Hcur Hfb Hkey. unfold TMjs.getTranslation, TM.getTranslation.
  rewrite currentTranslations_plain, lookup_own by done.
  destruct (TM.currentTranslations this !! key) as [s|]; [|done].
  unfold value_or. cbn. by destruct (truthy s).
Qed.

Section InitPlain.

Variable engine : Engine.
Variable network : nat -> string -> FetchResult.
Variable navigator : Navigator.

(** On a page where the language [init] settles on, the fallback language
    and the translation keys are plain, [init] is what the own properties
    alone make it. *)
Lemma init_plain (fuel : nat) (p : Page) :
  (2 ≤ fuel)%nat →
  plain (TM.initialLanguage navigator (translationManager p)
           (localStorage p !! "preferredLanguage")) →
  plain (fallbackLang (translationManager p)) →
  plain_document (document p) →
  TMjs.init engine network navigator fuel p = TM.init network navigator fuel p.
Proof.
  intros Hfuel Hi Hfb Hd.
  unfold TMjs.init, TM.init. run.
  destruct (loadTranslations_facts network fuel
              (fallbackLang (translationManager p)) p Hfuel)
    as (b1 & p1 & -> & _ & Hl1 & _ & _ & Hd1 & _ & _ & Hs1 & Hf1 & _).
  rewrite Hl1, Hf1.
  rewrite (initialLanguage_ext navigator (translationManager p1)
             (translationManager p) _ Hs1 Hf1).
  set (initial := TM.initialLanguage navigator (translationManager p) _) in *.
  assert (∀ q : Page,
            fallbackLang (translationManager q) = fallbackLang (translationManager p) →
            document q = document p →
            on_document
              (TMjs.updatePageTranslations engine
                 (translationManager (set_tm (set_currentLang initial) q)))
              (set_tm (set_currentLang initial) q) =
            (Return tt,
             set_document
               (TM.updatePageTranslations
                  (translationManager (set_tm (set_currentLang initial) q)))
               (set_tm (set_currentLang initial) q))) as Hstep.
  { intros q Hq Hdq. apply on_document_plain; cbn; [done | by rewrite Hq |].
    by rewrite Hdq. }
  case_bool_decide as Hne.
  - destruct (loadTranslations_facts network fuel initial p1 Hfuel)
      as (b2 & p2 & -> & _ & _ & _ & _ & Hd2 & _ & _ & _ & Hf2 & _).
    change (get ?q) with (Return q, q). cbn beta iota.
    rewrite (Hstep p2) by congruence. done.
  - change (get ?q) with (Return q, q). cbn beta iota.
    rewrite (Hstep p1) by congruence. done.
Qed.

End InitPlain.
